(** * Context manager of magenta.nvim: the per-file reconciliation engine

    A shallow embedding of [ContextManager] (the file that tracks which
    files are in the agent's context, and computes, before each user
    message, the updates the agent has not seen yet), with the properties
    the specification states about it.

    Layout:
    - [DiffEngine]: [createPatch] and [applyPatch] of the [diff] package;
    - [Base64]: [Buffer.toString("base64")];
    - [ContextManager]: data model, oracles and the operations
      [reset], [update], [getContextUpdate] and the per-file handlers;
    - [Messages]: [contextUpdatesToContent], what the agent is told;
    - [Rendering]: [view] and [renderContextUpdate], what the user is shown;
    - [AutoContext]: [loadAutoContext], the files a manager starts with;
    - the theorems. *)

From Stdlib Require Import Ascii String.
From stdpp Require Import gmap strings list fin_maps pretty.

Local Open Scope string_scope.
Local Open Scope list_scope.
Local Open Scope nat_scope.

(** ** The line diff *)

Module DiffEngine.

(** Modelled from the spec: the DiffEngine of section 4.2, that is
    [createPatch] of the [diff] package, and [applyPatch] of the same
    package, by which the round trip of section 8 is read.  The code of the
    package is not part of the sources; the model follows the algorithm of
    the package step by step: the tokens of the line diff, the shortest edit
    script as the package searches it, the hunks with their context, the
    text of the unified format; and, for the application, the reading of
    that text and the hunks applied in turn.  The call site fixes the
    options of [createPatch]: [context: 2] and [ignoreNewlineAtEof: true];
    [applyPatch] has its default options. *)

Definition nl : ascii := "010"%char.
Definition NL : string := String nl EmptyString.

Definition context : nat := 2.

Fixpoint endsWithNewline (s : string) : bool :=
  match s with
  | EmptyString => false
  | String c r =>
      match r with
      | EmptyString => Ascii.eqb c nl
      | String _ _ => endsWithNewline r
      end
  end.

(** The content without its final newline, when it has one. *)
Fixpoint stripEofNewline (s : string) : string :=
  match s with
  | EmptyString => EmptyString
  | String c r =>
      match r with
      | EmptyString => if Ascii.eqb c nl then EmptyString else s
      | String _ _ => String c (stripEofNewline r)
      end
  end.

Definition eofNewline (s : string) : string :=
  if endsWithNewline s then NL else EmptyString.

(** A text in which no newline stands. *)
Fixpoint noNewline (s : string) : bool :=
  match s with
  | EmptyString => true
  | String c r => negb (Ascii.eqb c nl) && noNewline r
  end.

(** [s.split("\n")] *)
Fixpoint splitLines (s : string) : list string :=
  match s with
  | EmptyString => [EmptyString]
  | String c r =>
      if Ascii.eqb c nl then EmptyString :: splitLines r
      else match splitLines r with
           | l :: ls => String c l :: ls
           | [] => [String c EmptyString]
           end
  end.

(** [lines.join("\n")] *)
Definition joinLines (ls : list string) : string := String.concat NL ls.

(** *** The tokens *)

(** Modelled from the spec: the tokens of the line diff of the package
    ([tokenize]): the lines, each with the newline that ends
    it; the last line has none when the content does not end with one, and
    an empty content has no token. *)
Fixpoint tokenize (value : string) : list string :=
  match value with
  | EmptyString => []
  | String c r =>
      if Ascii.eqb c nl then NL :: tokenize r
      else match tokenize r with
           | t :: ts => String c t :: ts
           | [] => [String c EmptyString]
           end
  end.

(** The comparison of two tokens under [ignoreNewlineAtEof]: a newline at
    the end of either is left out. *)
Definition sameLine (left right : string) : bool :=
  String.eqb (stripEofNewline left) (stripEofNewline right).

(** *** The edit script *)

Inductive Op := Context | Removed | Added.

Definition Edit : Type := Op * string.

(** The old and the new side of an edit script.  A common line carries the
    token of the new content; the old token is the same but for a newline at
    its end. *)
Fixpoint oldOf (es : list Edit) : list string :=
  match es with
  | [] => []
  | (Added, _) :: r => oldOf r
  | (_, l) :: r => l :: oldOf r
  end.

(** The edits that consume an old token. *)
Fixpoint oldEdits (es : list Edit) : list Edit :=
  match es with
  | [] => []
  | (Added, _) :: r => oldEdits r
  | e :: r => e :: oldEdits r
  end.

Fixpoint newOf (es : list Edit) : list string :=
  match es with
  | [] => []
  | (Removed, _) :: r => newOf r
  | (_, l) :: r => l :: newOf r
  end.

(** A path through the edit graph: the position reached in the old tokens
    (the index of the last one consumed, [-1] at the start) and the edits
    made so far, the last one first. *)
Record Path := {
  oldPos : Z;
  edits : list Edit;
}.

(** The tokens that two sequences have in common at their start; the token
    kept for a common line is the one of the new content. *)
Fixpoint commonRun (olds news : list string) : list Edit :=
  match olds, news with
  | o :: olds', n :: news' =>
      if sameLine o n then (Context, n) :: commonRun olds' news' else []
  | _, _ => []
  end.

Section Diff.

Variable oldTokens newTokens : list string.

Let oldLen : Z := Z.of_nat (length oldTokens).
Let newLen : Z := Z.of_nat (length newTokens).

(** Follows the diagonal as long as the tokens are the same; gives the path
    and the position reached in the new tokens. *)
Definition extractCommon (basePath : Path) (diagonalPath : Z) : Path * Z :=
  let newPos := (oldPos basePath - diagonalPath)%Z in
  let common :=
    commonRun (drop (Z.to_nat (oldPos basePath + 1)) oldTokens)
              (drop (Z.to_nat (newPos + 1)) newTokens) in
  ({| oldPos := oldPos basePath + Z.of_nat (length common);
      edits := rev common ++ edits basePath |},
   (newPos + Z.of_nat (length common))%Z).

Definition reachesEnd (path : Path) (newPos : Z) : bool :=
  (oldLen <=? oldPos path + 1)%Z && (newLen <=? newPos + 1)%Z.

(** A path may be continued by an addition when a new token is left at its
    place, and by a removal when an old token is left. *)
Definition canAdd (addPath : option Path) (diagonalPath : Z) : bool :=
  match addPath with
  | Some path =>
      let addPathNewPos := (oldPos path - diagonalPath)%Z in
      (0 <=? addPathNewPos)%Z && (addPathNewPos <? newLen)%Z
  | None => false
  end.

Definition canRemove (removePath : option Path) : bool :=
  match removePath with
  | Some path => (oldPos path + 1 <? oldLen)%Z
  | None => false
  end.

Definition adding (diagonalPath : Z) (path : Path) : Path :=
  {| oldPos := oldPos path;
     edits := (Added, default "" (newTokens !! Z.to_nat (oldPos path - diagonalPath)))
                :: edits path |}.

Definition removing (path : Path) : Path :=
  {| oldPos := oldPos path + 1;
     edits := (Removed, default "" (oldTokens !! Z.to_nat (oldPos path + 1)))
                :: edits path |}.

(** One diagonal of one edit length: the path of the diagonal below is
    continued by a removal, or the path of the diagonal above by an
    addition, whichever has come further in the old tokens, the removal
    when they have come equally far; then the diagonal is followed. *)
Definition visit (bestPath : gmap Z Path) (diagonalPath : Z) : option (Path * Z) :=
  let removePath := bestPath !! (diagonalPath - 1)%Z in
  let addPath := bestPath !! (diagonalPath + 1)%Z in
  if negb (canAdd addPath diagonalPath) && negb (canRemove removePath) then None
  else
    let basePath :=
      if negb (canRemove removePath)
         || (canAdd addPath diagonalPath
             && match removePath, addPath with
                | Some r, Some a => (oldPos r <? oldPos a)%Z
                | _, _ => false
                end)
      then adding diagonalPath <$> addPath
      else removing <$> removePath in
    (λ path, extractCommon path diagonalPath) <$> basePath.

(** The diagonals of an edit length, from the lowest. *)
Definition diagonals (editLength : nat) : list Z :=
  (λ i : nat, (2 * Z.of_nat i - Z.of_nat editLength)%Z) <$> seq 0 (S editLength).

Fixpoint execEditLength (bestPath : gmap Z Path) (ks : list Z) (next : gmap Z Path)
  : Path + gmap Z Path :=
  match ks with
  | [] => inr next
  | diagonalPath :: ks' =>
      match visit bestPath diagonalPath with
      | None => execEditLength bestPath ks' next
      | Some (basePath, newPos) =>
          if reachesEnd basePath newPos then inl basePath
          else execEditLength bestPath ks' (<[diagonalPath := basePath]> next)
      end
  end.

Fixpoint editLengths (more : nat) (editLength : nat) (bestPath : gmap Z Path)
  : option Path :=
  match more with
  | 0 => None
  | S more' =>
      match execEditLength bestPath (diagonals editLength) ∅ with
      | inl path => Some path
      | inr next => editLengths more' (S editLength) next
      end
  end.

(** Modelled from the spec: the diff of the package between the old and the
    new tokens.  The paths of one edit length are built from those of the
    edit length before, diagonal by diagonal; the search ends with the first
    path that has consumed both sequences, and gives up after as many edit
    lengths as there are tokens.  To save time the package does not visit
    the diagonals beyond one on which a path has come to the end of a
    sequence; the model visits them all, and the paths between those
    diagonals, among which the search ends, are the same. *)
Definition diff : option (list Edit) :=
  let '(path0, newPos0) := extractCommon {| oldPos := -1; edits := [] |} 0 in
  if reachesEnd path0 newPos0 then Some (rev (edits path0))
  else
    (λ path, rev (edits path))
      <$> editLengths (length oldTokens + length newTokens) 1 {[ 0%Z := path0 ]}.

(** **** What the paths of the diff keep *)

(** An edit that consumes an old token fits it: a removed line is that
    token, a common line is the same but for a newline at its end. *)
Definition fits (e : Edit) (old : string) : Prop :=
  match e.1 with
  | Removed => e.2 = old
  | _ => sameLine old e.2 = true
  end.

(** A path on a diagonal is sound: its edits lead from the old tokens it has
    consumed to the new tokens it has produced. *)
Definition sound (diagonalPath : Z) (path : Path) : Prop :=
  let x := (oldPos path + 1)%Z in
  let y := (x - diagonalPath)%Z in
  (0 ≤ x ≤ oldLen)%Z
  ∧ (0 ≤ y ≤ newLen)%Z
  ∧ Forall2 fits (oldEdits (rev (edits path))) (take (Z.to_nat x) oldTokens)
  ∧ newOf (rev (edits path)) = take (Z.to_nat y) newTokens.

(** A path that has not consumed everything. *)
Definition unfinished (diagonalPath : Z) (path : Path) : Prop :=
  reachesEnd path (oldPos path - diagonalPath) = false.

(** How far a path has come: the tokens consumed on both sides. *)
Definition progress (diagonalPath : Z) (path : Path) : Z :=
  (2 * (oldPos path + 1) - diagonalPath)%Z.

(** The paths of an edit length: each lies on a diagonal of that length, is
    sound and has not come to the end, and one of them has consumed at least
    as many tokens as the edit length. *)
Definition frontier (editLength : nat) (bestPath : gmap Z Path) : Prop :=
  (∀ k p, bestPath !! k = Some p →
          k ∈ diagonals editLength ∧ sound k p ∧ unfinished k p)
  ∧ ∃ k p, bestPath !! k = Some p ∧ (Z.of_nat editLength ≤ progress k p)%Z.

End Diff.

(** *** The hunks *)

Definition isChange (e : Edit) : bool :=
  match e.1 with Context => false | _ => true end.

(** The context window: a common line is shown when a change lies at most
    [context] lines before it ([since] counts the common lines since the
    last change) or at most [context] lines after it. *)
Fixpoint mark (since : nat) (es : list Edit) : list (Edit * bool) :=
  match es with
  | [] => []
  | e :: r =>
      if isChange e then (e, true) :: mark 0 r
      else (e, (since <? context)%nat || existsb isChange (take context r))
             :: mark (S since) r
  end.

(** A segment: so many old lines passed over, then the lines of one hunk. *)
Definition Segment : Type := nat * list Edit.

Fixpoint group (m : list (Edit * bool)) : list Segment :=
  match m with
  | [] => []
  | (e, shown) :: r =>
      let segs := group r in
      if shown then
        match segs with
        | (0, ls) :: segs' => (0, e :: ls) :: segs'
        | _ => (0, [e]) :: segs
        end
      else
        match segs with
        | (n, ls) :: segs' => (S n, ls) :: segs'
        | [] => []
        end
  end.

(** What a segment means: the lines of a hunk against the old tokens at its
    place give the tokens produced and the old tokens left after the hunk;
    the segments in turn, each after the old tokens it passes over. *)
Fixpoint applyLines (ls : list Edit) (old : list string)
  : option (list string * list string) :=
  match ls with
  | [] => Some ([], old)
  | (Added, l) :: r =>
      match applyLines r old with
      | Some (out, rest) => Some (l :: out, rest)
      | None => None
      end
  | (Context, l) :: r =>
      match old with
      | x :: old' =>
          if String.eqb x l then
            match applyLines r old' with
            | Some (out, rest) => Some (x :: out, rest)
            | None => None
            end
          else None
      | [] => None
      end
  | (Removed, l) :: r =>
      match old with
      | x :: old' => if String.eqb x l then applyLines r old' else None
      | [] => None
      end
  end.

Fixpoint applySegments (segs : list Segment) (old : list string)
  : option (list string) :=
  match segs with
  | [] => Some old
  | (skip, ls) :: r =>
      if skip <=? length old then
        match applyLines ls (drop skip old) with
        | Some (out, rest) =>
            match applySegments r rest with
            | Some tl => Some (take skip old ++ out ++ tl)
            | None => None
            end
        | None => None
        end
      else None
  end.

(** A marked script hides common lines only. *)
Definition wellMarked (m : list (Edit * bool)) : Prop :=
  Forall (λ eb, eb.2 = false → isChange eb.1 = false) m.

(** The common lines at the end of some lines, [n] of them being there
    already. *)
Fixpoint trailing (n : nat) (ls : list Edit) : nat :=
  match ls with
  | [] => n
  | (Context, _) :: r => trailing (S n) r
  | _ :: r => trailing 0 r
  end.

Definition marker : string := "\ No newline at end of file".

Definition sign (op : Op) : string :=
  match op with
  | Context => " "
  | Removed => "-"
  | Added => "+"
  end.

(** A line of a hunk: the sign and the token without its newline; a token
    that has no newline is followed by the marker. *)
Definition hunkLine (e : Edit) : list string :=
  if endsWithNewline e.2 then [sign e.1 +:+ stripEofNewline e.2]
  else [sign e.1 +:+ e.2; marker].

(** The line of a token that ends with a newline. *)
Definition textLine (e : Edit) : string := sign e.1 +:+ stripEofNewline e.2.

Record Hunk := {
  oldStart : nat;
  oldLines : nat;
  newStart : nat;
  newLines : nat;
  lines : list string;
}.

(** Line numbers are 1-based; [oldLine] and [newLine] count the lines of the
    old and of the new content that lie before the segment. *)
Fixpoint toHunks (oldLine newLine : nat) (segs : list Segment) : list Hunk :=
  match segs with
  | [] => []
  | (skip, ls) :: r =>
      let o := length (oldOf ls) in
      let n := length (newOf ls) in
      {| oldStart := oldLine + skip + 1; oldLines := o;
         newStart := newLine + skip + 1; newLines := n;
         lines := concat (map hunkLine ls) |}
      :: toHunks (oldLine + skip + o) (newLine + skip + n) r
  end.

Record StructuredPatch := {
  oldFileName : string;
  newFileName : string;
  oldHeader : string;
  newHeader : string;
  hunks : list Hunk;
}.

(** Modelled from the spec: [structuredPatch] of the package with the
    options of the call site, [context: 2] and [ignoreNewlineAtEof: true];
    nothing when the diff gives up, which it does not do without a limit on
    the edit length. *)
Definition structuredPatch (fileName oldStr newStr oldHeader newHeader : string)
  : option StructuredPatch :=
  (λ es,
     {| oldFileName := fileName;
        newFileName := fileName;
        oldHeader := oldHeader;
        newHeader := newHeader;
        hunks := toHunks 0 0 (group (mark context es)) |})
    <$> diff (tokenize oldStr) (tokenize newStr).

(** In the unified format a range of no lines starts one line earlier. *)
Definition rangeStart (start len : nat) : nat :=
  if (len =? 0)%nat then start - 1 else start.

Definition hunkHeader (h : Hunk) : string :=
  "@@ -" +:+ pretty (rangeStart (oldStart h) (oldLines h)) +:+ "," +:+ pretty (oldLines h)
  +:+ " +" +:+ pretty (rangeStart (newStart h) (newLines h)) +:+ "," +:+ pretty (newLines h)
  +:+ " @@".

Definition formatHunk (h : Hunk) : list string := hunkHeader h :: lines h.

Definition tab : string := String "009"%char EmptyString.

Definition separator : string :=
  "===================================================================".

(** [formatPatch]: the text of a patch in the unified format. *)
Definition formatPatch (p : StructuredPatch) : string :=
  joinLines
    ([ "Index: " +:+ oldFileName p;
       separator;
       "--- " +:+ oldFileName p +:+ tab +:+ oldHeader p;
       "+++ " +:+ newFileName p +:+ tab +:+ newHeader p ]
     ++ concat (map formatHunk (hunks p)))
  +:+ NL.

(** Modelled from the spec: [createPatch(fileName, oldStr, newStr,
    oldHeader, newHeader, { context: 2, ignoreNewlineAtEof: true })]: the
    text of the patch.  Where the diff gives up the package returns
    [undefined], here the empty text; without a limit on the edit length
    the diff does not give up. *)
Definition createPatch (fileName oldStr newStr oldHeader newHeader : string) : string :=
  match structuredPatch fileName oldStr newStr oldHeader newHeader with
  | Some p => formatPatch p
  | None => EmptyString
  end.

(** *** Reading a patch *)

(** [parsePatch] and [applyPatch] of the package, with their default
    options, on the text of a patch. *)

Definition cr : ascii := "013"%char.

Fixpoint dropPrefix (prefix s : string) : option string :=
  match prefix with
  | EmptyString => Some s
  | String c prefix' =>
      match s with
      | String c' s' => if Ascii.eqb c c' then dropPrefix prefix' s' else None
      | EmptyString => None
      end
  end.

Definition startsWith (prefix s : string) : bool :=
  bool_decide (is_Some (dropPrefix prefix s)).

(** The rest of [s] after one white-space character of a regular
    expression ([\s]); the characters beyond [US-ASCII] are read as the
    bytes of their [UTF-8] form. *)
Definition afterSpace (s : string) : option string :=
  match s with
  | EmptyString => None
  | String c r =>
      let n := nat_of_ascii c in
      if ((9 <=? n) && (n <=? 13)) || (n =? 32) then Some r
      else
        match r with
        | String c2 r2 =>
            let n2 := nat_of_ascii c2 in
            if (n =? 194) && (n2 =? 160) then Some r2
            else
              match r2 with
              | String c3 r3 =>
                  let n3 := nat_of_ascii c3 in
                  if ((n =? 225) && (n2 =? 154) && (n3 =? 128))
                     || ((n =? 226) && (n2 =? 128)
                         && (((128 <=? n3) && (n3 <=? 138))
                             || (n3 =? 168) || (n3 =? 169) || (n3 =? 175)))
                     || ((n =? 226) && (n2 =? 129) && (n3 =? 159))
                     || ((n =? 227) && (n2 =? 128) && (n3 =? 128))
                     || ((n =? 239) && (n2 =? 187) && (n3 =? 191))
                  then Some r3
                  else None
              | EmptyString => None
              end
        | EmptyString => None
        end
  end.

(** The rest of [s] after all the white space at its start. *)
Fixpoint skipSpaces (more : nat) (s : string) : string :=
  match more with
  | 0 => s
  | S more' =>
      match afterSpace s with
      | Some r => skipSpaces more' r
      | None => s
      end
  end.

(** [s] is matched by [.*\r?$]: no line terminator stands in it, but for a
    carriage return at its very end.  [seen] counts the bytes of a
    separator [U+2028] or [U+2029] that have just been read. *)
Fixpoint restOfLine (seen : nat) (s : string) : bool :=
  match s with
  | EmptyString => true
  | String c r =>
      let n := nat_of_ascii c in
      if n =? 13 then match r with EmptyString => true | String _ _ => false end
      else if n =? 10 then false
      else if (seen =? 2) && ((n =? 168) || (n =? 169)) then false
      else
        restOfLine (if n =? 226 then 1 else if (seen =? 1) && (n =? 128) then 2 else 0) r
  end.

Definition followedBySpace (prefix line : string) : bool :=
  match dropPrefix prefix line with
  | Some r => bool_decide (is_Some (afterSpace r))
  | None => false
  end.

(** [/^(\-\-\-|\+\+\+|@@)\s/]: the line that ends the lines before the
    headers of the files. *)
Definition startsHeaders (line : string) : bool :=
  followedBySpace "---" line || followedBySpace "+++" line || followedBySpace "@@" line.

(** The header of a file: [---] or [+++], white space, and a rest that is
    matched by [.*\r?$]. *)
Definition isFileHeader (line : string) : bool :=
  let after r :=
    match afterSpace r with
    | Some r' => restOfLine 0 (skipSpaces (String.length r') r')
    | None => false
    end in
  match dropPrefix "---" line, dropPrefix "+++" line with
  | Some r, _ => after r
  | None, Some r => after r
  | None, None => false
  end.

(** The line after which no hunk of the same file follows. *)
Definition endsHunks (line : string) : bool :=
  followedBySpace "Index:" line || followedBySpace "diff" line
  || followedBySpace "---" line || followedBySpace "+++" line
  || startsWith separator line.

Definition digitOf (c : ascii) : option nat :=
  let n := nat_of_ascii c in
  if (48 <=? n) && (n <=? 57) then Some (n - 48) else None.

Fixpoint readDigits (value : nat) (s : string) : nat * string :=
  match s with
  | EmptyString => (value, s)
  | String c r =>
      match digitOf c with
      | Some d => readDigits (10 * value + d) r
      | None => (value, s)
      end
  end.

(** [(\d+)]: the number written at the start of [s], and the rest. *)
Definition readNumber (s : string) : option (nat * string) :=
  match s with
  | EmptyString => None
  | String c r =>
      match digitOf c with
      | Some d => Some (readDigits d r)
      | None => None
      end
  end.

(** [(?:,(\d+))?] *)
Definition readLength (s : string) : option nat * string :=
  match dropPrefix "," s with
  | Some r =>
      match readNumber r with
      | Some (n, r') => (Some n, r')
      | None => (None, s)
      end
  | None => (None, s)
  end.

(** [/@@ -(\d+)(?:,(\d+))? \+(\d+)(?:,(\d+))? @@/], read at the start of the
    line. *)
Definition readHunkHeader (line : string) : option (nat * option nat * nat * option nat) :=
  r1 ← dropPrefix "@@ -" line;
  '(oldStart, r2) ← readNumber r1;
  let '(oldLines, r3) := readLength r2 in
  r4 ← dropPrefix " +" r3;
  '(newStart, r5) ← readNumber r4;
  let '(newLines, r6) := readLength r5 in
  _ ← dropPrefix " @@" r6;
  Some (oldStart, oldLines, newStart, newLines).

(** The lines of a hunk, as long as the counts of its header ask for more
    or the line is a marker; [None] for a line that cannot be one of a
    hunk, for which the package throws. *)
Fixpoint readHunkLines (oldLines newLines removeCount addCount : nat)
    (diffstr : list string) : option (list string * nat * nat * list string) :=
  match diffstr with
  | [] => Some ([], removeCount, addCount, [])
  | line :: rest =>
      if (removeCount <? oldLines) || (addCount <? newLines) || startsWith "\" line
      then
        let operation :=
          match line with
          | String c _ => Some c
          | EmptyString => match rest with [] => None | _ :: _ => Some " "%char end
          end in
        let more removeCount addCount :=
          match readHunkLines oldLines newLines removeCount addCount rest with
          | Some (ls, removed, added, rest') => Some (line :: ls, removed, added, rest')
          | None => None
          end in
        match operation with
        | Some c =>
            if Ascii.eqb c "+" then more removeCount (S addCount)
            else if Ascii.eqb c "-" then more (S removeCount) addCount
            else if Ascii.eqb c " " then more (S removeCount) (S addCount)
            else if Ascii.eqb c "\" then more removeCount addCount
            else None
        | None => None
        end
      else Some ([], removeCount, addCount, diffstr)
  end.

(** [parseHunk]: the hunk whose header is [header], read from the lines
    after it, and the lines after the hunk.  A header that is not of the
    form above is refused here; the package reads it as numbers that are
    none. *)
Definition parseHunk (header : string) (diffstr : list string)
  : option (Hunk * list string) :=
  '(oldStart, oldLines, newStart, newLines) ← readHunkHeader header;
  let oldLines := default 1 oldLines in
  let newLines := default 1 newLines in
  let oldStart := if oldLines =? 0 then oldStart + 1 else oldStart in
  let newStart := if newLines =? 0 then newStart + 1 else newStart in
  '(ls, removeCount, addCount, rest) ← readHunkLines oldLines newLines 0 0 diffstr;
  let newLines := if (addCount =? 0) && (newLines =? 1) then 0 else newLines in
  let oldLines := if (removeCount =? 0) && (oldLines =? 1) then 0 else oldLines in
  if (addCount =? newLines) && (removeCount =? oldLines)
  then Some ({| oldStart := oldStart; oldLines := oldLines;
                newStart := newStart; newLines := newLines; lines := ls |}, rest)
  else None.

(** The hunks of one file, and the lines after them. *)
Fixpoint parseHunks (more : nat) (diffstr : list string)
  : option (list Hunk * list string) :=
  match more with
  | 0 => None
  | S more' =>
      match diffstr with
      | [] => Some ([], [])
      | line :: rest =>
          if endsHunks line then Some ([], diffstr)
          else if startsWith "@@" line then
            '(hunk, rest') ← parseHunk line rest;
            '(hs, rest'') ← parseHunks more' rest';
            Some (hunk :: hs, rest'')
          else if bool_decide (line = EmptyString) then parseHunks more' rest
          else None
      end
  end.

Fixpoint skipMetadata (diffstr : list string) : list string :=
  match diffstr with
  | [] => []
  | line :: rest => if startsHeaders line then diffstr else skipMetadata rest
  end.

Definition parseFileHeader (diffstr : list string) : list string :=
  match diffstr with
  | line :: rest => if isFileHeader line then rest else diffstr
  | [] => []
  end.

(** [parseIndex]: the hunks of the next file of the patch. *)
Definition parseIndex (diffstr : list string) : option (list Hunk * list string) :=
  let diffstr := parseFileHeader (parseFileHeader (skipMetadata diffstr)) in
  parseHunks (S (length diffstr)) diffstr.

(** Modelled from the spec: [parsePatch] of the package: the files of a
    patch, each with its hunks; [None] where
    the package throws, and where it would never come to an end. *)
Fixpoint parseIndexes (more : nat) (diffstr : list string) : option (list (list Hunk)) :=
  match more with
  | 0 => None
  | S more' =>
      match diffstr with
      | [] => Some []
      | _ :: _ =>
          '(hs, rest) ← parseIndex diffstr;
          indexes ← parseIndexes more' rest;
          Some (hs :: indexes)
      end
  end.

Definition parsePatch (uniDiff : string) : option (list (list Hunk)) :=
  let diffstr := splitLines uniDiff in
  parseIndexes (S (length diffstr)) diffstr.

(** *** Applying a patch *)

Inductive Applied :=
  | Patched (result : string)
  | Refused
  | Thrown.

Definition lineAt (lines : list string) (i : Z) : option string :=
  if (i <? 0)%Z then None else lines !! Z.to_nat i.

(** [applyHunk] without tolerance ([fuzzFactor] is 0): the lines of the hunk
    against the lines at [toPos]; the lines patched, without the common
    lines at the end of the hunk, and the position of the last line
    consumed before these. *)
Fixpoint applyHunk (lines hunkLines : list string) (toPos : Z)
    (patchedLines : list string) (nConsecutiveOldContextLines : nat)
  : option (list string * Z) :=
  match hunkLines with
  | [] =>
      Some (take (length patchedLines - nConsecutiveOldContextLines) patchedLines,
            (toPos - Z.of_nat nConsecutiveOldContextLines - 1)%Z)
  | hunkLine :: rest =>
      let operation := match hunkLine with String c _ => c | EmptyString => " "%char end in
      let content := match hunkLine with String _ r => r | EmptyString => EmptyString end in
      if Ascii.eqb operation "-" then
        if bool_decide (lineAt lines toPos = Some content)
        then applyHunk lines rest (toPos + 1) patchedLines 0
        else None
      else if Ascii.eqb operation "+" then
        applyHunk lines rest toPos (patchedLines ++ [content]) 0
      else if Ascii.eqb operation " " then
        if bool_decide (lineAt lines toPos = Some content)
        then applyHunk lines rest (toPos + 1) (patchedLines ++ [content])
               (S nConsecutiveOldContextLines)
        else None
      else applyHunk lines rest toPos patchedLines nConsecutiveOldContextLines
  end.

Fixpoint interleave (forward backward : list Z) : list Z :=
  match forward, backward with
  | f :: forward', b :: backward' => f :: b :: interleave forward' backward'
  | [], _ => backward
  | _, [] => forward
  end.

(** The places at which a hunk is tried: the one it names, then those next
    to it, further and further away, after it up to [maxLine] and before it
    down to [minLine]. *)
Definition places (start minLine maxLine : Z) : list Z :=
  start
  :: interleave
       ((λ i : nat, (start + 1 + Z.of_nat i)%Z) <$> seq 0 (Z.to_nat (maxLine - start)))
       ((λ i : nat, (start - 1 - Z.of_nat i)%Z) <$> seq 0 (Z.to_nat (start - minLine))).

Fixpoint firstFit (lines hunkLines : list string) (candidates : list Z)
  : option (Z * (list string * Z)) :=
  match candidates with
  | [] => None
  | toPos :: rest =>
      match applyHunk lines hunkLines toPos [] 0 with
      | Some hunkResult => Some (toPos, hunkResult)
      | None => firstFit lines hunkLines rest
      end
  end.

(** The lines from [from] up to [to]; a line that is not there is empty
    when the lines are joined. *)
Definition copied (lines : list string) (from to : Z) : list string :=
  (λ i : nat, default EmptyString (lineAt lines (from + Z.of_nat i)))
    <$> seq 0 (Z.to_nat (to - from)).

Fixpoint applyHunks (lines : list string) (hs : list Hunk) (minLine prevHunkOffset : Z)
    (resultLines : list string) : option (list string) :=
  match hs with
  | [] => Some (resultLines ++ copied lines minLine (Z.of_nat (length lines)))
  | hunk :: rest =>
      let maxLine := (Z.of_nat (length lines) - Z.of_nat (oldLines hunk))%Z in
      let start := (Z.of_nat (oldStart hunk) + prevHunkOffset - 1)%Z in
      match firstFit lines (DiffEngine.lines hunk) (places start minLine maxLine) with
      | None => None
      | Some (toPos, (patchedLines, oldPosInc)) =>
          applyHunks lines rest (oldPosInc + 1)%Z (toPos + 1 - Z.of_nat (oldStart hunk))%Z
            (resultLines ++ copied lines minLine toPos ++ patchedLines)
      end
  end.

(** What the markers of the last hunk say of the newline at the end of the
    file: whether it is taken away, and whether it is put there. *)
Fixpoint eofNewlines (prevLine : string) (hunkLines : list string) (removeEOFNL addEOFNL : bool)
  : bool * bool :=
  match hunkLines with
  | [] => (removeEOFNL, addEOFNL)
  | line :: rest =>
      if startsWith "\" line then
        eofNewlines line rest
          (removeEOFNL || startsWith "+" prevLine)
          (addEOFNL || (negb (startsWith "+" prevLine) && startsWith "-" prevLine))
      else eofNewlines line rest removeEOFNL addEOFNL
  end.

(** **** The line endings

    With the default [autoConvertLineEndings] a patch is brought to the
    line endings of the source before it is applied. *)

(** [string.includes(part)] *)
Fixpoint includes (part s : string) : bool :=
  startsWith part s
  || match s with
     | String _ r => includes part r
     | EmptyString => false
     end.

(** [/[^\r]\n/]: a newline that does not follow a carriage return, and does
    not stand at the very start. *)
Fixpoint bareNewline (s : string) : bool :=
  match s with
  | String c r =>
      match r with
      | String c' _ => (negb (Ascii.eqb c cr) && Ascii.eqb c' nl) || bareNewline r
      | EmptyString => false
      end
  | EmptyString => false
  end.

Definition crlf : string := String cr NL.

Definition hasOnlyWinLineEndings (s : string) : bool :=
  includes crlf s && negb (startsWith NL s) && negb (bareNewline s).

Definition hasOnlyUnixLineEndings (s : string) : bool :=
  negb (includes crlf s) && includes NL s.

(** [line.endsWith('\r')] *)
Fixpoint endsWithCr (line : string) : bool :=
  match line with
  | EmptyString => false
  | String c r =>
      match r with
      | EmptyString => Ascii.eqb c cr
      | String _ _ => endsWithCr r
      end
  end.

(** [line.substring(0, line.length - 1)] *)
Fixpoint withoutLast (line : string) : string :=
  match line with
  | EmptyString => EmptyString
  | String c r =>
      match r with
      | EmptyString => EmptyString
      | String _ _ => String c (withoutLast r)
      end
  end.

(** A line that is left as it is by [unixToWin]: a marker, a line that ends
    with a carriage return, or the line before a marker. *)
Definition keepsEnding (line : string) (rest : list string) : bool :=
  startsWith "\" line || endsWithCr line
  || match rest with
     | next :: _ => startsWith "\" next
     | [] => false
     end.

Fixpoint allKeepEnding (hunkLines : list string) : bool :=
  match hunkLines with
  | [] => true
  | line :: rest => keepsEnding line rest && allKeepEnding rest
  end.

Definition isUnix (hs : list Hunk) : bool :=
  negb (existsb (λ h, existsb (λ line, negb (startsWith "\" line) && endsWithCr line) (lines h))
          hs).

Definition isWin (hs : list Hunk) : bool :=
  existsb (λ h, existsb endsWithCr (lines h)) hs
  && forallb (λ h, allKeepEnding (lines h)) hs.

Definition withLines (h : Hunk) (ls : list string) : Hunk :=
  {| oldStart := oldStart h; oldLines := oldLines h;
     newStart := newStart h; newLines := newLines h; lines := ls |}.

Fixpoint toWin (hunkLines : list string) : list string :=
  match hunkLines with
  | [] => []
  | line :: rest =>
      (if keepsEnding line rest then line else line +:+ String cr EmptyString)
      :: toWin rest
  end.

Definition unixToWin (hs : list Hunk) : list Hunk :=
  map (λ h, withLines h (toWin (lines h))) hs.

Definition winToUnix (hs : list Hunk) : list Hunk :=
  map (λ h, withLines h
              (map (λ line, if endsWithCr line then withoutLast line else line) (lines h)))
    hs.

Definition convertLineEndings (source : string) (hs : list Hunk) : list Hunk :=
  if hasOnlyWinLineEndings source && isUnix hs then unixToWin hs
  else if hasOnlyUnixLineEndings source && isWin hs then winToUnix hs
  else hs.

(** Modelled from the spec: [applyPatch(source, uniDiff)] of the package
    with its default options: the patch applied, refused (the package
    returns [false]), or an exception thrown. *)
Definition applyPatch (source uniDiff : string) : Applied :=
  match parsePatch uniDiff with
  | Some [hs] =>
      let hs := convertLineEndings source hs in
      let lines := splitLines source in
      match last hs with
      | None => Patched source
      | Some lastHunk =>
          let '(removeEOFNL, addEOFNL) :=
            eofNewlines EmptyString (DiffEngine.lines lastHunk) false false in
          let endsEmpty := bool_decide (last lines = Some EmptyString) in
          let adjusted :=
            if removeEOFNL then
              if addEOFNL then (if endsEmpty then None else Some lines)
              else if endsEmpty then Some (removelast lines)
              else None
            else if addEOFNL then
              (if endsEmpty then None else Some (lines ++ [EmptyString]))
            else Some lines in
          match adjusted with
          | None => Refused
          | Some lines =>
              match applyHunks lines hs 0 0 [] with
              | Some resultLines => Patched (joinLines resultLines)
              | None => Refused
              end
          end
      end
  | _ => Thrown
  end.

(** *** What the proofs speak of *)

(** A content made of whole lines: it is empty or ends with a newline. *)
Definition wholeLines (s : string) : bool :=
  match s with
  | EmptyString => true
  | String _ _ => endsWithNewline s
  end.

(** The hunk of the lines [ls] of a segment, each of which ends with a
    newline. *)
Definition hunkOf (oldStart newStart : nat) (ls : list Edit) : Hunk :=
  {| oldStart := oldStart; oldLines := length (oldOf ls);
     newStart := newStart; newLines := length (newOf ls);
     lines := map textLine ls |}.

(** What follows the lines of a hunk is no marker. *)
Definition noMarker (rest : list string) : Prop :=
  match rest with
  | line :: _ => startsWith "\" line = false
  | [] => True
  end.

(** The decimal digits of a number, as characters and as a value. *)
Definition digitChar (d : nat) : ascii := ascii_of_nat (48 + d).

Definition digits (ds : list nat) : string :=
  foldr (λ d s, String (digitChar d) s) EmptyString ds.

Definition valueOf (v : nat) (ds : list nat) : nat := foldl (λ v d, 10 * v + d) v ds.

(** What follows a number is no digit. *)
Definition noDigit (rest : string) : Prop :=
  match rest with
  | String c _ => digitOf c = None
  | EmptyString => True
  end.

End DiffEngine.

(** ** Base64 *)

Module Base64.

(** [Buffer.toString("base64")] of the Node runtime: the standard alphabet,
    three bytes to four digits, padded with [=]. *)

Definition alphabet : string :=
  "ABCDEFGHIJKLMNOPQRSTUVWXYZabcdefghijklmnopqrstuvwxyz0123456789+/".

Definition digit (n : N) : ascii :=
  match String.get (N.to_nat n) alphabet with
  | Some c => c
  | None => "="%char
  end.

Fixpoint encode (bs : list N) : string :=
  match bs with
  | [] => EmptyString
  | a :: r1 =>
      match r1 with
      | [] =>
          String (digit (a / 4)) (String (digit ((a mod 4) * 16)) "==")
      | b :: r2 =>
          match r2 with
          | [] =>
              String (digit (a / 4))
                (String (digit ((a mod 4) * 16 + b / 16))
                   (String (digit ((b mod 16) * 4)) "="))
          | c :: r3 =>
              String (digit (a / 4))
                (String (digit ((a mod 4) * 16 + b / 16))
                   (String (digit ((b mod 16) * 4 + c / 64))
                      (String (digit (c mod 64)) (encode r3))))
          end
      end
  end%N.

Definition toBase64 (raw : string) : string :=
  encode (map N_of_ascii (list_ascii_of_string raw)).

End Base64.

(** ** The context manager *)

Module ContextManager.

Import DiffEngine.

(** *** Data model *)

Definition AbsFilePath : Type := string.
Definition RelFilePath : Type := string.

(** [FileCategory] and [FileTypeInfo] are declared in [utils/files]. *)
Inductive FileCategory := TEXT | IMAGE | PDF | UNSUPPORTED.

#[global] Instance FileCategory_eq_dec : EqDecision FileCategory.
Proof. solve_decision. Defined.

Record FileTypeInfo := {
  category : FileCategory;
  mimeType : string;
}.

(** What was the last update we sent to the agent about this file? *)
Inductive AgentView :=
  | AgentText (content : string)
  | AgentBinary (mtime : Z).

Record FileInfo := {
  relFilePath : RelFilePath;
  fileTypeInfo : FileTypeInfo;
  agentView : option AgentView;
}.

(** [this.files]: an object keyed by absolute path. *)
Abbreviation Files := (gmap AbsFilePath FileInfo).

Definition Patch : Type := string.

Inductive FileUpdate :=
  | WholeFileUpdate (content : string)
  | DiffUpdate (patch : Patch)
  | FileDeletedUpdate.

(** [Result<T>] of [utils/result]: a status, with a value or an error text. *)
Inductive Result (A : Type) :=
  | StatusOk (value : A)
  | StatusError (error : string).
Arguments StatusOk {A} value.
Arguments StatusError {A} error.

(** An entry of [FileUpdates]: its fields [absFilePath], [relFilePath] and
    [update]. *)
Record FileUpdateEntry := {
  entryAbsFilePath : AbsFilePath;
  entryRelFilePath : RelFilePath;
  update_ : Result FileUpdate;
}.

Abbreviation FileUpdates := (gmap AbsFilePath FileUpdateEntry).

Inductive ToolApplication :=
  | GetFile (content : string)
  | GetFileBinary (mtime : Z)
  | Insert (insertAfter content : string)
  | Replace (find replace : string).

Inductive Msg :=
  | AddFileContext (rel : RelFilePath) (abs : AbsFilePath) (info : FileTypeInfo)
  | RemoveFileContext (abs : AbsFilePath)
  | OpenFile (abs : AbsFilePath)
  | ToolApplied (abs : AbsFilePath) (tool : ToolApplication) (info : FileTypeInfo).

(** *** Exceptions and state *)

(** A JavaScript [Error]: its message, its stack trace and, for the errors of
    the file system, its code ([ENOENT], [EACCES], ...). *)
Record JsError := {
  message : string;
  stack : string;
  code : option string;
}.

(** [new Error(msg)]; the stack trace of an error made here is not modelled. *)
Definition newError (msg : string) : JsError :=
  {| message := msg; stack := EmptyString; code := None |}.

(** A call either returns or throws. *)
Inductive Outcome (A : Type) :=
  | Return (a : A)
  | Throw (e : JsError).
Arguments Return {A} a.
Arguments Throw {A} e.

Definition obind {A B} (o : Outcome A) (k : A → Outcome B) : Outcome B :=
  match o with
  | Return a => k a
  | Throw e => Throw e
  end.

Notation "'try' x ← o ; k" := (obind o (λ x, k))
  (at level 10, x name, o at level 100, k at level 200).

(** A method of the manager: it reads and mutates [this.files], and returns
    or throws (an [async] method: resolves or rejects). *)
Definition Eff (A : Type) : Type := Files → Outcome A * Files.

(** *** The oracles *)

(** [bufferTracker.getSyncInfo]: the buffer of a file, with the modification
    time and the change counter seen at the last synchronisation. *)
Record BufSyncInfo := {
  bufnr : nat;
  mtime : Z;
  changeTick : Z;
}.

(** The outcome of [applyInsert] and [applyReplace] of [utils/contentEdits]. *)
Inductive EditResult :=
  | EditOk (content : string)
  | EditError (error : string).

(** What the manager consumes and does not own, as it answers during one
    call: the working directory, the file system, the buffer tracker, the
    editor, the PDF extractor and the helpers of [utils].  The answers are
    independent of each other, so that a file can exist when it is looked for
    and be gone when it is read. *)
Record World := {
  (** [relativePath(cwd, path)] of [utils/files] *)
  relativePath : AbsFilePath → RelFilePath;
  (** the text of a category in a message: the values of the enumeration
      are declared in [utils/files] *)
  categoryLabel : FileCategory → string;
  existsSync : AbsFilePath → bool;
  (** [fs.statSync(path).mtime.getTime()] *)
  statSync : AbsFilePath → Outcome Z;
  (** [fs.readFileSync(path)]: the bytes of the file *)
  readFileSync : AbsFilePath → Outcome string;
  getSyncInfo : AbsFilePath → option BufSyncInfo;
  getChangeTick : nat → Outcome Z;
  attemptEdit : nat → Outcome ();
  (** [buffer.getLines] of the whole buffer; the flag tells whether
      [attemptEdit] ran before *)
  getLines : nat → bool → Outcome (list string);
  extractPdfText : AbsFilePath → Outcome (Result string);
  applyInsert : string → string → string → EditResult;
  applyReplace : string → string → string → EditResult;
}.

(** [Buffer.toString()]: a text is identified with its bytes. *)
Definition toString (raw : string) : string := raw.

(** *** Operations *)

(** [fileInfo.agentView = v], on the object held under [absFilePath]. *)
Definition setAgentView (absFilePath : AbsFilePath) (v : option AgentView)
    (files : Files) : Files :=
  alter (λ fileInfo,
           {| relFilePath := relFilePath fileInfo;
              fileTypeInfo := fileTypeInfo fileInfo;
              agentView := v |}) absFilePath files.

Definition reset (files : Files) : Files :=
  (λ fileInfo,
     {| relFilePath := relFilePath fileInfo;
        fileTypeInfo := fileTypeInfo fileInfo;
        agentView := None |}) <$> files.

(** [Object.keys(this.files)]: each tracked path once.  The paths come in the
    order of the map, not in the order in which they were added; nothing
    below depends on the order. *)
Definition keys (files : Files) : list AbsFilePath := (map_to_list files).*1.

Definition isContextEmpty (files : Files) : bool :=
  bool_decide (length (keys files) = 0).

Definition toolType (tool : ToolApplication) : string :=
  match tool with
  | GetFile _ => "get-file"
  | GetFileBinary _ => "get-file-binary"
  | Insert _ _ => "insert"
  | Replace _ _ => "replace"
  end.

Definition updateAgentsViewOfFiles (w : World) (absFilePath : AbsFilePath)
    (tool : ToolApplication) : Eff () :=
  λ files,
  match files !! absFilePath with
  | None =>
      (Throw (newError ("File " +:+ absFilePath +:+ " not found in context")), files)
  | Some fileInfo =>
      match tool with
      | GetFile content =>
          (Return (), setAgentView absFilePath (Some (AgentText content)) files)
      | GetFileBinary mtime =>
          (Return (), setAgentView absFilePath (Some (AgentBinary mtime)) files)
      | Insert _ _ | Replace _ _ =>
          if negb (bool_decide (category (fileTypeInfo fileInfo) = TEXT)) then
            (Throw (newError
               ("Cannot perform " +:+ toolType tool +:+ " operation on non-text file "
                +:+ absFilePath +:+ " (file type: "
                +:+ categoryLabel w (category (fileTypeInfo fileInfo)) +:+ ")")),
             files)
          else
            match agentView fileInfo with
            | Some (AgentBinary _) =>
                (Throw (newError
                   ("Cannot perform " +:+ toolType tool +:+ " operation on "
                    +:+ absFilePath +:+ ": agent view type is binary, expected text")),
                 files)
            | Some (AgentText viewContent) =>
                let result :=
                  match tool with
                  | Insert insertAfter content => applyInsert w viewContent insertAfter content
                  | Replace find replace => applyReplace w viewContent find replace
                  | _ => EditOk viewContent
                  end in
                match result with
                | EditOk content =>
                    (Return (), setAgentView absFilePath (Some (AgentText content)) files)
                | EditError error =>
                    (Throw (newError
                       ("Failed to update agent's view of " +:+ absFilePath +:+ ": " +:+ error)),
                     files)
                end
            | None =>
                match readFileSync w absFilePath with
                | Return currentContent =>
                    (Return (),
                     setAgentView absFilePath (Some (AgentText (toString currentContent))) files)
                | Throw err =>
                    (Throw (newError
                       ("Failed to read file " +:+ absFilePath
                        +:+ " to update agent's view: " +:+ message err)),
                     files)
                end
            end
      end
  end.

Definition update (w : World) (msg : Msg) : Eff () :=
  λ files,
  match msg with
  | AddFileContext rel abs info =>
      if bool_decide (category info = UNSUPPORTED) then
        (Throw (newError
           ("Cannot add " +:+ rel +:+ " to context: " +:+ categoryLabel w (category info)
            +:+ " files are not supported in context (detected MIME type: "
            +:+ mimeType info +:+ ")")),
         files)
      else
        (Return (),
         <[abs := {| relFilePath := rel; fileTypeInfo := info; agentView := None |}]> files)
  | RemoveFileContext abs => (Return (), delete abs files)
  | OpenFile abs =>
      (* opens the file with the system's application or in the editor;
         failures are logged; the tracked files are not touched *)
      (Return (), files)
  | ToolApplied abs tool info =>
      let rel := relativePath w abs in
      let files1 :=
        match files !! abs with
        | None => <[abs := {| relFilePath := rel; fileTypeInfo := info; agentView := None |}]> files
        | Some _ => files
        end in
      updateAgentsViewOfFiles w abs tool files1
  end.

(** *** Reconciliation of one file *)

Definition entry (absFilePath : AbsFilePath) (relFilePath : RelFilePath)
    (u : Result FileUpdate) : option FileUpdateEntry :=
  Some {| entryAbsFilePath := absFilePath; entryRelFilePath := relFilePath; update_ := u |}.

Definition conflictError (b : BufSyncInfo) (absFilePath : AbsFilePath) : string :=
  "Both the buffer " +:+ pretty (bufnr b) +:+ " and the file on disk for " +:+ absFilePath
  +:+ " have changed. Cannot determine which version to use.".

Definition grabError (absFilePath : AbsFilePath) (err : JsError) : string :=
  "Error when trying to grab the context of the file " +:+ absFilePath +:+ ": "
  +:+ message err +:+ NL +:+ stack err.

Definition statError (absFilePath : AbsFilePath) (err : JsError) : string :=
  "Error checking file stats for " +:+ absFilePath +:+ ": " +:+ message err.

(** The [try] block of a file that is open in a buffer: the text of the
    conflict ([inl]), or the content of the buffer ([inr]); whatever is thrown
    inside is caught by the caller. *)
Definition readThroughBuffer (w : World) (absFilePath : AbsFilePath)
    (bufSyncInfo : BufSyncInfo) : Outcome (string + string) :=
  try diskMtime ← statSync w absFilePath;
  try currentChangeTick ← getChangeTick w (bufnr bufSyncInfo);
  let bufferChanged := negb (changeTick bufSyncInfo =? currentChangeTick)%Z in
  let fileChanged := (mtime bufSyncInfo <? diskMtime)%Z in
  if bufferChanged && fileChanged then
    Return (inl (conflictError bufSyncInfo absFilePath))
  else
    let reload := fileChanged && negb bufferChanged in
    try _ ← (if reload then attemptEdit w (bufnr bufSyncInfo) else Return ());
    try lines ← getLines w (bufnr bufSyncInfo) reload;
    Return (inr (joinLines lines)).

(** The part of [handleTextFileUpdate] after the content has been read: the
    agent's view is compared with it and replaced by it. *)
Definition compareWithAgentView (absFilePath : AbsFilePath) (relFilePath : RelFilePath)
    (fileInfo : FileInfo) (currentFileContent : string) : Eff (option FileUpdateEntry) :=
  λ files,
  let prevContent :=
    match agentView fileInfo with
    | Some (AgentText content) => Some content
    | _ => None
    end in
  let files' := setAgentView absFilePath (Some (AgentText currentFileContent)) files in
  match prevContent with
  | None | Some EmptyString =>
      (* [!prevContent]: undefined, or the empty string *)
      (Return (entry absFilePath relFilePath (StatusOk (WholeFileUpdate currentFileContent))),
       files')
  | Some prevContent =>
      if String.eqb prevContent currentFileContent then (Return None, files')
      else
        (Return (entry absFilePath relFilePath
                   (StatusOk (DiffUpdate
                      (createPatch relFilePath prevContent currentFileContent
                         "previous" "current")))),
         files')
  end.

Definition handleTextFileUpdate (w : World) (absFilePath : AbsFilePath)
    (relFilePath : RelFilePath) (fileInfo : FileInfo) : Eff (option FileUpdateEntry) :=
  λ files,
  match getSyncInfo w absFilePath with
  | Some bufSyncInfo =>
      (* This file is open in a buffer *)
      match readThroughBuffer w absFilePath bufSyncInfo with
      | Return (inl conflict) =>
          (Return (entry absFilePath relFilePath (StatusError conflict)), files)
      | Return (inr currentFileContent) =>
          compareWithAgentView absFilePath relFilePath fileInfo currentFileContent files
      | Throw err =>
          (Return (entry absFilePath relFilePath (StatusError (grabError absFilePath err))),
           files)
      end
  | None =>
      (* This file is only on disk *)
      match readFileSync w absFilePath with
      | Return raw =>
          compareWithAgentView absFilePath relFilePath fileInfo (toString raw) files
      | Throw err =>
          if bool_decide (code err = Some "ENOENT") then
            (Return (entry absFilePath relFilePath (StatusOk FileDeletedUpdate)),
             delete absFilePath files)
          else (Throw err, files)
      end
  end.

(** The truth value of [prevMtime && prevMtime >= currentMtime]: a number
    that is undefined or zero is falsy. *)
Definition notNewer (prevMtime : option Z) (currentMtime : Z) : bool :=
  match prevMtime with
  | Some prev => negb (prev =? 0)%Z && (currentMtime <=? prev)%Z
  | None => false
  end.

Definition handleBinaryFileUpdate (w : World) (absFilePath : AbsFilePath)
    (relFilePath : RelFilePath) (fileInfo : FileInfo) : Eff (option FileUpdateEntry) :=
  λ files,
  let caught err :=
    entry absFilePath relFilePath (StatusError (statError absFilePath err)) in
  match statSync w absFilePath with
  | Throw err => (Return (caught err), files)
  | Return currentMtime =>
      let prevMtime :=
        match agentView fileInfo with
        | Some (AgentBinary mtime) => Some mtime
        | _ => None
        end in
      (* Update agent's view with current mtime *)
      let files' := setAgentView absFilePath (Some (AgentBinary currentMtime)) files in
      if notNewer prevMtime currentMtime then (Return None, files')
      else if bool_decide (category (fileTypeInfo fileInfo) = PDF) then
        match extractPdfText w absFilePath with
        | Throw err => (Return (caught err), files')
        | Return (StatusError error) =>
            (Return (entry absFilePath relFilePath (StatusError error)), files')
        | Return (StatusOk value) =>
            (Return (entry absFilePath relFilePath (StatusOk (WholeFileUpdate value))), files')
        end
      else
        match readFileSync w absFilePath with
        | Throw err => (Return (caught err), files')
        | Return buffer =>
            (Return (entry absFilePath relFilePath
                       (StatusOk (WholeFileUpdate (Base64.toBase64 buffer)))),
             files')
        end
  end.

Definition getFileMessageAndUpdateAgentViewOfFile (w : World)
    (absFilePath : AbsFilePath) : Eff (option FileUpdateEntry) :=
  λ files,
  let relFilePath := relativePath w absFilePath in
  match files !! absFilePath with
  | None => (Return None, files)
  | Some fileInfo =>
      if negb (existsSync w absFilePath) then
        (Return (entry absFilePath relFilePath (StatusOk FileDeletedUpdate)),
         delete absFilePath files)
      else if bool_decide (category (fileTypeInfo fileInfo) = TEXT) then
        handleTextFileUpdate w absFilePath relFilePath fileInfo files
      else
        handleBinaryFileUpdate w absFilePath relFilePath fileInfo files
  end.

(** What a reconciliation may do to the registry: leave it, remove the entry
    of its path, or replace the agent's view in that entry. *)
Inductive touched (abs : AbsFilePath) (files : Files) : Files → Prop :=
  | touched_same : touched abs files files
  | touched_deleted : touched abs files (delete abs files)
  | touched_view v : touched abs files (setAgentView abs v files).

(** *** A synchronisation pass *)

(** The tasks that [Promise.all] waits for.  Every task is started and runs
    to its end, whatever becomes of the others; a task that returns an entry
    stores it in [results]; a task that throws rejects the whole, and the
    first rejection is the one reported.  The tasks are run one after the
    other here: a task only touches the entry of its own path. *)
Fixpoint reconcileAll (w : World) (paths : list AbsFilePath)
    (results : FileUpdates) (rejected : option JsError) (files : Files)
  : FileUpdates * option JsError * Files :=
  match paths with
  | [] => (results, rejected, files)
  | absFilePath :: rest =>
      match getFileMessageAndUpdateAgentViewOfFile w absFilePath files with
      | (Return (Some result), files') =>
          reconcileAll w rest (<[absFilePath := result]> results) rejected files'
      | (Return None, files') => reconcileAll w rest results rejected files'
      | (Throw err, files') =>
          reconcileAll w rest results
            (match rejected with Some _ => rejected | None => Some err end) files'
      end
  end.

Definition getContextUpdate (w : World) : Eff FileUpdates :=
  λ files,
  if isContextEmpty files then (Return ∅, files)
  else
    match reconcileAll w (keys files) ∅ None files with
    | (results, None, files') => (Return results, files')
    | (_, Some err, files') => (Throw err, files')
    end.

(** *** Identity of the tracked files *)

(** [files'] tracks no path that [files] does not track, and every file it
    tracks has the relative path and the file type it has in [files]. *)
Definition keepsIdentity (files files' : Files) : Prop :=
  ∀ p fileInfo',
    files' !! p = Some fileInfo' →
    ∃ fileInfo,
      files !! p = Some fileInfo
      ∧ relFilePath fileInfo' = relFilePath fileInfo
      ∧ fileTypeInfo fileInfo' = fileTypeInfo fileInfo.

(** *** A reconciliation that is repeated *)

(** What a reconciliation may still answer when nothing has changed since
    the one before: nothing, an error, the whole of an empty text, or the
    whole of a file whose modification time is 0. *)
Definition repeats (w : World) (absFilePath : AbsFilePath)
    (o : Outcome (option FileUpdateEntry)) : Prop :=
  match o with
  | Return (Some e) =>
      (∃ error, update_ e = StatusError error)
      ∨ update_ e = StatusOk (WholeFileUpdate "")
      ∨ (∃ content, update_ e = StatusOk (WholeFileUpdate content)
                    ∧ statSync w absFilePath = Return 0%Z)
  | _ => True
  end.

End ContextManager.

(** ** What the agent is told *)

Module Messages.

Import DiffEngine ContextManager.

(** The two shapes of [ProviderMessageContent] that are built here: a text,
    and an image given by its media type and its data in base64. *)
Inductive ProviderMessageContent :=
  | TextContent (text : string)
  | ImageContent (media_type data : string).

Definition fence : string := "```".

(** The body of the loop of [contextUpdatesToContent] for one path: the text
    that is pushed on [textUpdates], and what is pushed on [content]. *)
Definition describeUpdate (files : Files) (absFilePath : AbsFilePath)
    (update : FileUpdateEntry) : string * list ProviderMessageContent :=
  let name := "- `" +:+ entryRelFilePath update +:+ "`" +:+ NL in
  match update_ update with
  | StatusOk (WholeFileUpdate content) =>
      let fallback := (name +:+ "File content updated.", []) in
      match files !! absFilePath with
      | Some fileInfo =>
          match category (fileTypeInfo fileInfo) with
          | TEXT | PDF => (name +:+ fence +:+ NL +:+ content +:+ NL +:+ fence, [])
          | IMAGE =>
              (name +:+ "Image file updated (see attached image).",
               [ImageContent (mimeType (fileTypeInfo fileInfo)) content])
          | UNSUPPORTED => fallback
          end
      | None => fallback
      end
  | StatusOk (DiffUpdate patch) =>
      (name +:+ fence +:+ "diff" +:+ NL +:+ patch +:+ NL +:+ fence, [])
  | StatusOk FileDeletedUpdate =>
      (name +:+ "This file has been deleted and removed from context.", [])
  | StatusError error => (name +:+ "Error fetching update: " +:+ error, [])
  end.

Definition preamble : string :=
  "These files are part of your context. This is the latest information about the content of each file."
  +:+ NL
  +:+ "From now on, whenever any of these files are updated by the user, you will get a message letting you know."
  +:+ NL.

(** The object [contextUpdates] as [for (const path in contextUpdates)] goes
    through it: its paths, each once, with their updates, in the order in
    which they were stored.  This order is not a function of the map: it is
    the order in which the reconciliations of a pass came to their end. *)
Definition enumerates (entries : list (AbsFilePath * FileUpdateEntry))
    (contextUpdates : FileUpdates) : Prop :=
  NoDup entries.*1 ∧ ∀ p e, (p, e) ∈ entries ↔ contextUpdates !! p = Some e.

(** [contextUpdatesToContent]: the entries of [contextUpdates] are gone
    through in their order; the texts are joined into one text content,
    which is put in front of the images. *)
Definition contextUpdatesToContent (files : Files)
    (contextUpdates : list (AbsFilePath * FileUpdateEntry))
  : list ProviderMessageContent :=
  let described := map (λ pu, describeUpdate files pu.1 pu.2) contextUpdates in
  let content := concat (map snd described) in
  let textUpdates := map fst described in
  if 0 <? length textUpdates
  then TextContent (preamble +:+ joinLines textUpdates) :: content
  else content.

End Messages.

(** ** What the user is shown *)

Module Rendering.

Import DiffEngine ContextManager.

(** A piece of a view as the templates of [tea/view] build it: its text, and
    the messages that [withBindings] binds to keys on it. *)
Record BoundLine := {
  lineText : string;
  bindings : list (string * Msg);
}.

(** [view]: nothing without files; otherwise the heading, and one line for
    every file, on which [dd] removes the file from the context and [<CR>]
    opens it. *)
Definition view (files : Files) : list BoundLine :=
  if bool_decide (length (keys files) = 0) then []
  else
    {| lineText := "# context:" +:+ NL; bindings := [] |}
    :: map (λ pf : AbsFilePath * FileInfo,
              {| lineText := "- `" +:+ relFilePath pf.2 +:+ "`" +:+ NL;
                 bindings := [ ("dd", RemoveFileContext pf.1);
                               ("<CR>", OpenFile pf.1) ] |})
         (map_to_list files).

(** *** The counts of the change indicator *)

Definition cr : ascii := "013"%char.

(** The line terminators after which [^] matches in a multi-line pattern:
    line feed, carriage return, and the separators U+2028 and U+2029, which
    are the bytes [E2 80 A8] and [E2 80 A9] of a text.  [seen] counts the
    bytes of such a separator that have just been read. *)
Definition separatorBytes (seen : nat) (c : ascii) : nat :=
  if Ascii.eqb c "226"%char then 1
  else if (seen =? 1) && Ascii.eqb c "128"%char then 2
  else 0.

Definition endsTerminator (seen : nat) (c : ascii) : bool :=
  Ascii.eqb c nl || Ascii.eqb c cr
  || ((seen =? 2) && (Ascii.eqb c "168"%char || Ascii.eqb c "169"%char)).

(** The number of matches of the pattern [^L[^L]] with the flags [g] and [m],
    for a character [L]: the places at the start of a line where [L] stands,
    followed by one more character that is not [L].  [lineStart] tells
    whether the place is the start of a line. *)
Fixpoint countMatches (lead : ascii) (lineStart : bool) (seen : nat) (s : string) : nat :=
  match s with
  | EmptyString => 0
  | String c r =>
      (if lineStart && Ascii.eqb c lead
          && match r with
             | String c' _ => negb (Ascii.eqb c' lead)
             | EmptyString => false
             end
       then 1 else 0)
      + countMatches lead (endsTerminator seen c) (separatorBytes seen c) r
  end.

(** [(patch.match(/^\+[^+]/gm) || []).length] *)
Definition additions (patch : string) : nat := countMatches "+"%char true 0 patch.

(** [(patch.match(/^-[^-]/gm) || []).length] *)
Definition deletions (patch : string) : nat := countMatches "-"%char true 0 patch.

(** [(content.match(/\n/g) || []).length + 1] *)
Fixpoint countNewlines (s : string) : nat :=
  match s with
  | EmptyString => 0
  | String c r => (if Ascii.eqb c nl then 1 else 0) + countNewlines r
  end.

Definition lineCount (content : string) : nat := countNewlines content + 1.

(** A line without line terminator in it, read after [seen] bytes of a
    separator. *)
Fixpoint plainLine (seen : nat) (l : string) : bool :=
  match l with
  | EmptyString => true
  | String c r => negb (endsTerminator seen c) && plainLine (separatorBytes seen c) r
  end.

(** A line that begins with [lead], and not with two of them. *)
Definition beginsWithOne (lead : ascii) (l : string) : bool :=
  match l with
  | EmptyString => false
  | String c r =>
      Ascii.eqb c lead
      && match r with
         | String c' _ => negb (Ascii.eqb c' lead)
         | EmptyString => true
         end
  end.

(** The text of some lines, each ended by a line feed. *)
Definition unlines (ls : list string) : string :=
  foldr (λ l rest, l +:+ NL +:+ rest) EmptyString ls.

Definition changeIndicator (u : FileUpdate) : string :=
  match u with
  | DiffUpdate patch =>
      "[ +" +:+ pretty (additions patch) +:+ " / -" +:+ pretty (deletions patch) +:+ " ]"
  | WholeFileUpdate content => "[ +" +:+ pretty (lineCount content) +:+ " ]"
  | FileDeletedUpdate => "[ deleted ]"
  end.

(** [renderContextUpdate]: nothing without updates; otherwise a heading and
    one line for every update: the relative path, on which [<CR>] opens the
    file, and the change indicator; for an error the path and the error.
    The updates are given by their entries, in the order in which the object
    lists them. *)
Definition renderContextUpdate
    (contextUpdates : option (list (AbsFilePath * FileUpdateEntry))) : list BoundLine :=
  match contextUpdates with
  | None => []
  | Some updates =>
      if bool_decide (length updates = 0) then []
      else
        {| lineText := "Context Updates:" +:+ NL; bindings := [] |}
        :: map (λ pu : AbsFilePath * FileUpdateEntry,
                  match update_ pu.2 with
                  | StatusOk value =>
                      {| lineText := "- `" +:+ entryRelFilePath pu.2 +:+ "` "
                                     +:+ changeIndicator value +:+ NL;
                         bindings := [ ("<CR>", OpenFile pu.1) ] |}
                  | StatusError error =>
                      {| lineText := "- `" +:+ pu.1 +:+ "` [Error: " +:+ error +:+ "]" +:+ NL;
                         bindings := [] |}
                  end)
             updates
        ++ [ {| lineText := NL; bindings := [] |} ]
  end.

End Rendering.

(** ** The files of the automatic context *)

Module AutoContext.

Import ContextManager.

(** What the loading of the automatic context consumes besides the file
    system of [World]: the option [autoContext], the working directory of
    the editor, the [glob] package, [resolveFilePath] and [detectFileType]
    of [utils/files], and [realpathSync] and [normalize] of the runtime. *)
Record Oracles := {
  autoContext : option (list string);
  (** [getcwd(nvim)]: it may fail; the directory itself is behind
      [resolveFilePath] and [relativePath] *)
  getcwd : Outcome ();
  (** [glob(pattern, { cwd, nocase: true, nodir: true })] *)
  glob : string → Outcome (list string);
  resolveFilePath : string → AbsFilePath;
  realpathSync : AbsFilePath → Outcome string;
  normalize : string → string;
  (** [detectFileType(path)]: [undefined] for a file that is not there *)
  detectFileType : AbsFilePath → Outcome (option FileTypeInfo);
}.

Definition Matched : Type := AbsFilePath * RelFilePath.

(** The matches of one pattern that exist; a pattern whose glob fails is
    logged and gives nothing. *)
Definition matchesOf (w : World) (o : Oracles) (pattern : string) : list Matched :=
  match glob o pattern with
  | Return matches =>
      omap (λ m,
              let absFilePath := resolveFilePath o m in
              if existsSync w absFilePath
              then Some (absFilePath, relativePath w absFilePath)
              else None) matches
  | Throw _ => []
  end.

(** The key under which a file is kept once: its canonical path, normalized,
    or its own path, normalized, when the canonical path cannot be had. *)
Definition pathKey (o : Oracles) (absFilePath : AbsFilePath) : string :=
  match realpathSync o absFilePath with
  | Return canonicalPath => normalize o canonicalPath
  | Throw _ => normalize o absFilePath
  end.

(** The values of the map [uniqueFiles], in the order of insertion: a file
    is kept unless its key is already there ([seen]). *)
Fixpoint uniqueFiles (o : Oracles) (seen : list string) (all : list Matched)
  : list Matched :=
  match all with
  | [] => []
  | fileInfo :: rest =>
      let key := pathKey o fileInfo.1 in
      if bool_decide (key ∈ seen) then uniqueFiles o seen rest
      else fileInfo :: uniqueFiles o (key :: seen) rest
  end.

(** [findFilesCrossPlatform]; the globs are taken one after the other, in the
    order of the patterns. *)
Definition findFilesCrossPlatform (w : World) (o : Oracles) (globPatterns : list string)
  : list Matched :=
  uniqueFiles o [] (concat (map (matchesOf w o) globPatterns)).

(** [filterSupportedFiles]: the files whose type is detected and supported;
    the others are logged and left out. *)
Definition filterSupportedFiles (o : Oracles) (matchedFiles : list Matched)
  : list (Matched * FileTypeInfo) :=
  omap (λ fileInfo : Matched,
          match detectFileType o fileInfo.1 with
          | Return (Some fileTypeInfo) =>
              if bool_decide (category fileTypeInfo = UNSUPPORTED) then None
              else Some (fileInfo, fileTypeInfo)
          | Return None => None
          | Throw _ => None
          end) matchedFiles.

(** [files[matchInfo.absFilePath] = { ... }] *)
Definition tracks (files : Files) (m : Matched * FileTypeInfo) : Files :=
  <[m.1.1 := {| relFilePath := m.1.2; fileTypeInfo := m.2; agentView := None |}]> files.

(** [loadAutoContext]: the registry a manager starts with
    ([ContextManager.create]).  Without patterns it is empty; so it is when
    the working directory cannot be had, which is logged. *)
Definition loadAutoContext (w : World) (o : Oracles) : Files :=
  match autoContext o with
  | None => ∅
  | Some [] => ∅
  | Some patterns =>
      match getcwd o with
      | Throw _ => ∅
      | Return _ =>
          foldl tracks ∅ (filterSupportedFiles o (findFilesCrossPlatform w o patterns))
      end
  end.

End AutoContext.

(** ** Sample files and worlds *)

Module Samples.

Import ContextManager.

Definition textInfo : FileTypeInfo := {| category := TEXT; mimeType := "text/plain" |}.
Definition imageInfo : FileTypeInfo := {| category := IMAGE; mimeType := "image/png" |}.
Definition pdfInfo : FileTypeInfo := {| category := PDF; mimeType := "application/pdf" |}.

Definition tracked (rel : RelFilePath) (info : FileTypeInfo) (view : option AgentView)
  : FileInfo :=
  {| relFilePath := rel; fileTypeInfo := info; agentView := view |}.

(** The error of the file system for a path that is not there, and for one
    that may not be read. *)
Definition enoent : JsError :=
  {| message := "ENOENT: no such file or directory";
     stack := "Error: ENOENT: no such file or directory";
     code := Some "ENOENT" |}.

Definition eacces : JsError :=
  {| message := "EACCES: permission denied";
     stack := "Error: EACCES: permission denied";
     code := Some "EACCES" |}.

(** A world with the working directory [/], told by what its oracles answer:
    whether files exist, their modification time, their bytes by path, the
    buffer (the same for every path), its change counter and lines, and the
    outcome of the PDF extraction. *)
Definition world (there : bool) (stat : Outcome Z) (read : AbsFilePath → Outcome string)
    (buf : option BufSyncInfo) (tick : Outcome Z) (bufLines : list string)
    (pdf : Outcome (Result string)) : World :=
  {| relativePath := λ p, match p with String "/"%char r => r | _ => p end;
     categoryLabel := λ c, match c with
                           | TEXT => "text" | IMAGE => "image"
                           | PDF => "pdf" | UNSUPPORTED => "unsupported"
                           end;
     existsSync := λ _, there;
     statSync := λ _, stat;
     readFileSync := read;
     getSyncInfo := λ _, buf;
     getChangeTick := λ _, tick;
     attemptEdit := λ _, Return ();
     getLines := λ _ _, Return bufLines;
     extractPdfText := λ _, pdf;
     applyInsert := λ _ _ _, EditError "no match";
     applyReplace := λ _ _ _, EditError "no match" |}.

(** Files on disk only, all with the bytes [raw]. *)
Definition onDisk (mtime : Z) (raw : string) : World :=
  world true (Return mtime) (λ _, Return raw) None (Return 0%Z) [] (Return (StatusOk raw)).

(** The same world, where an insert appends the new text to the content and
    a replace finds nothing. *)
Definition appending (w : World) : World :=
  {| relativePath := relativePath w;
     categoryLabel := categoryLabel w;
     existsSync := existsSync w;
     statSync := statSync w;
     readFileSync := readFileSync w;
     getSyncInfo := getSyncInfo w;
     getChangeTick := getChangeTick w;
     attemptEdit := attemptEdit w;
     getLines := getLines w;
     extractPdfText := extractPdfText w;
     applyInsert := λ content _ inserted, EditOk (content +:+ inserted);
     applyReplace := λ _ _ _, EditError "no match" |}.

(** A project with three patterns in its option.  The second is not a glob
    that can be read; the third matches a link to a file of the first and a
    program, which is of no supported type. *)
Definition project : AutoContext.Oracles :=
  {| AutoContext.autoContext := Some ["*.md"; "broken["; "docs/*"];
     AutoContext.getcwd := Return ();
     AutoContext.glob := λ pattern,
       if String.eqb pattern "*.md" then Return ["README.md"; "notes.md"]
       else if String.eqb pattern "docs/*" then Return ["docs/link.md"; "docs/tool.exe"]
       else Throw (newError "Invalid glob pattern");
     AutoContext.resolveFilePath := λ m, "/" +:+ m;
     AutoContext.realpathSync := λ p,
       if String.eqb p "/docs/link.md" then Return "/README.md" else Return p;
     AutoContext.normalize := λ p, p;
     AutoContext.detectFileType := λ p,
       if String.eqb p "/docs/tool.exe"
       then Return (Some {| category := UNSUPPORTED;
                            mimeType := "application/octet-stream" |})
       else Return (Some textInfo) |}.

End Samples.

(** * Properties *)

Import DiffEngine ContextManager.

(** ** The line diff *)

(** *** The texts and their tokens *)

Section Strings.

Lemma strip_eof (s : string) : stripEofNewline s +:+ eofNewline s = s.
Proof.
  unfold eofNewline.
  induction s as [|c r IH]; first done.
  destruct r as [|c' r'].
  - simpl. destruct (Ascii.eqb_spec c nl) as [->|]; done.
  - change (stripEofNewline (String c (String c' r')))
      with (String c (stripEofNewline (String c' r'))).
    change (endsWithNewline (String c (String c' r')))
      with (endsWithNewline (String c' r')).
    change (String c (stripEofNewline (String c' r')) +:+ ?x)
      with (String c (stripEofNewline (String c' r') +:+ x)).
    by rewrite IH.
Qed.

Lemma splitLines_cons (s : string) : ∃ l ls, splitLines s = l :: ls.
Proof.
  induction s as [|c r (l & ls & IH)]; first by eexists _, _.
  simpl. destruct (Ascii.eqb c nl); first by eexists _, _.
  rewrite IH. by eexists _, _.
Qed.

Lemma joinLines_cons (l l' : string) (ls : list string) :
  joinLines (l :: l' :: ls) = l +:+ NL +:+ joinLines (l' :: ls).
Proof. done. Qed.

Lemma join_split (s : string) : joinLines (splitLines s) = s.
Proof.
  induction s as [|c r IH]; first done.
  simpl. destruct (splitLines_cons r) as [l [ls E]].
  rewrite E in IH |- *.
  destruct (Ascii.eqb_spec c nl) as [->|_].
  - rewrite joinLines_cons, IH. done.
  - destruct ls as [|l' ls].
    + unfold joinLines in *. simpl in *. congruence.
    + rewrite (joinLines_cons (String c l)). rewrite joinLines_cons in IH.
      rewrite <- IH. done.
Qed.

Lemma append_empty (s : string) : s +:+ "" = s.
Proof.
  induction s as [|c s IH]; first done.
  change (String c s +:+ "") with (String c (s +:+ "")). by rewrite IH.
Qed.

Lemma append_assoc (a b c : string) : (a +:+ b) +:+ c = a +:+ (b +:+ c).
Proof.
  induction a as [|x a IH]; first done.
  change ((String x a +:+ b) +:+ c) with (String x ((a +:+ b) +:+ c)).
  by rewrite IH.
Qed.

(** The tokens of a content that ends with a newline all end with one. *)
Lemma tokenize_terminated (s : string) :
  endsWithNewline s = true →
  Forall (λ t, endsWithNewline t = true) (tokenize s).
Proof.
  induction s as [|c r IH]; first done.
  intros Hs. cbn [tokenize].
  destruct r as [|c' r'].
  - simpl in Hs. rewrite Hs. repeat constructor.
  - change (endsWithNewline (String c (String c' r')))
      with (endsWithNewline (String c' r')) in Hs.
    specialize (IH Hs).
    destruct (Ascii.eqb_spec c nl) as [->|Hc]; first by constructor.
    destruct (tokenize (String c' r')) as [|t ts] eqn:E.
    + exfalso. simpl in E. destruct (Ascii.eqb c' nl); first done.
      by destruct (tokenize r').
    + apply Forall_cons in IH as [Ht Hts]. constructor; last done.
      destruct t; [done | exact Ht].
Qed.

(** No token has a newline before its end. *)
Lemma tokenize_lines (s : string) :
  Forall (λ t, noNewline (stripEofNewline t) = true ∧ t ≠ "") (tokenize s).
Proof.
  induction s as [|c r IH]; first done.
  cbn [tokenize]. destruct (Ascii.eqb_spec c nl) as [->|Hc].
  - constructor; last done. done.
  - destruct (tokenize r) as [|t ts].
    + constructor; last done. simpl.
      destruct (Ascii.eqb_spec c nl); first done. simpl.
      destruct (Ascii.eqb_spec c nl); done.
    + apply Forall_cons in IH as [[Ht Hne] Hts]. constructor; last done.
      split; last done. destruct t as [|c' t']; first done.
      change (stripEofNewline (String c (String c' t')))
        with (String c (stripEofNewline (String c' t'))).
      simpl. destruct (Ascii.eqb_spec c nl); first done. exact Ht.
Qed.

(** The lines of a content that ends with a newline are its tokens without
    their newlines, and one empty line after them. *)
Lemma splitLines_tokenize (s : string) :
  endsWithNewline s = true →
  splitLines s = map stripEofNewline (tokenize s) ++ [""].
Proof.
  induction s as [|c r IH]; first done.
  intros Hs. cbn [tokenize splitLines].
  destruct r as [|c' r'].
  - simpl in Hs. rewrite Hs. done.
  - change (endsWithNewline (String c (String c' r')))
      with (endsWithNewline (String c' r')) in Hs.
    specialize (IH Hs).
    destruct (Ascii.eqb_spec c nl) as [->|Hc]; first by rewrite IH.
    rewrite IH.
    destruct (tokenize (String c' r')) as [|t ts] eqn:E.
    + exfalso. simpl in E. destruct (Ascii.eqb c' nl); first done.
      by destruct (tokenize r').
    + pose proof (tokenize_terminated _ Hs) as Ht. rewrite E in Ht.
      apply Forall_cons in Ht as [Ht _]. simpl.
      destruct t as [|c'' t'']; first done.
      change (stripEofNewline (String c (String c'' t'')))
        with (String c (stripEofNewline (String c'' t''))). done.
Qed.

(** Tokens that end with a newline and are the same but for it are the
    same. *)
Lemma sameLine_terminated (a b : string) :
  endsWithNewline a = true → endsWithNewline b = true →
  sameLine a b = true → a = b.
Proof.
  intros Ha Hb E. unfold sameLine in E. apply String.eqb_eq in E.
  rewrite <- (strip_eof a), <- (strip_eof b). unfold eofNewline.
  by rewrite Ha, Hb, E.
Qed.

End Strings.

(** *** The search of the edit script *)

Section Scripts.

Lemma oldOf_app (es es' : list Edit) : oldOf (es ++ es') = oldOf es ++ oldOf es'.
Proof. induction es as [|[[] l] r IH]; simpl; by rewrite ?IH. Qed.

Lemma oldEdits_app (es es' : list Edit) :
  oldEdits (es ++ es') = oldEdits es ++ oldEdits es'.
Proof. induction es as [|[[] l] r IH]; simpl; by rewrite ?IH. Qed.

Lemma oldOf_oldEdits (es : list Edit) : oldOf es = (oldEdits es).*2.
Proof. induction es as [|[[] l] r IH]; simpl; by rewrite ?IH. Qed.

Lemma newOf_app (es es' : list Edit) : newOf (es ++ es') = newOf es ++ newOf es'.
Proof. induction es as [|[[] l] r IH]; simpl; by rewrite ?IH. Qed.

Lemma sameLine_refl (l : string) : sameLine l l = true.
Proof. unfold sameLine. apply String.eqb_refl. Qed.

End Scripts.

Section Myers.

Variable oldTokens newTokens : list string.

Lemma commonRun_sides (olds news : list string) :
  let common := commonRun olds news in
  length common ≤ length olds
  ∧ length common ≤ length news
  ∧ Forall2 fits (oldEdits common) (take (length common) olds)
  ∧ newOf common = take (length common) news.
Proof.
  revert news. induction olds as [|o olds IH]; intros [|n news]; simpl;
    try (repeat split; simpl; try lia; by constructor).
  destruct (sameLine o n) eqn:E; simpl.
  - destruct (IH news) as (H1 & H2 & H3 & H4). repeat split; try lia.
    + by constructor.
    + by rewrite H4.
  - repeat split; simpl; try lia. by constructor.
Qed.

Lemma take_drop_more {A} (n m : nat) (l : list A) :
  take (n + m) l = take n l ++ take m (drop n l).
Proof. by rewrite take_take_drop. Qed.

Lemma extractCommon_sound (diagonalPath : Z) (path : Path) :
  sound oldTokens newTokens diagonalPath path →
  sound oldTokens newTokens diagonalPath (extractCommon oldTokens newTokens path diagonalPath).1
  ∧ (extractCommon oldTokens newTokens path diagonalPath).2
    = (oldPos (extractCommon oldTokens newTokens path diagonalPath).1 - diagonalPath)%Z
  ∧ (oldPos path ≤ oldPos (extractCommon oldTokens newTokens path diagonalPath).1)%Z.
Proof.
  intros (Hx & Hy & Hold & Hnew). unfold extractCommon. cbn [fst snd oldPos edits].
  set (olds := drop _ oldTokens). set (news := drop _ newTokens).
  destruct (commonRun_sides olds news) as (H1 & H2 & H3 & H4).
  set (common := commonRun olds news) in *.
  subst olds news. rewrite length_drop in H1, H2.
  split; last (split; lia).
  unfold sound. cbn [oldPos edits].
  rewrite rev_app_distr, rev_involutive, oldEdits_app, newOf_app.
  replace (Z.to_nat (oldPos path + Z.of_nat (length common) + 1))
    with (Z.to_nat (oldPos path + 1) + length common) by lia.
  replace (Z.to_nat (oldPos path + Z.of_nat (length common) + 1 - diagonalPath))
    with (Z.to_nat (oldPos path - diagonalPath + 1) + length common) by lia.
  rewrite !take_drop_more.
  replace (Z.to_nat (oldPos path + 1 - diagonalPath))
    with (Z.to_nat (oldPos path - diagonalPath + 1)) in Hnew by lia.
  repeat split; try lia.
  - by apply Forall2_app.
  - by rewrite Hnew, H4.
Qed.


Lemma adding_sound (diagonalPath : Z) (path : Path) :
  sound oldTokens newTokens (diagonalPath + 1) path →
  canAdd newTokens (Some path) diagonalPath = true →
  sound oldTokens newTokens diagonalPath (adding newTokens diagonalPath path).
Proof.
  intros (Hx & Hy & Hold & Hnew) Hcan. unfold canAdd in Hcan.
  apply andb_true_iff in Hcan as [H0 Hlt].
  apply Z.leb_le in H0. apply Z.ltb_lt in Hlt.
  unfold sound, adding. cbn [oldPos edits]. simpl rev.
  rewrite oldEdits_app, newOf_app. simpl. rewrite app_nil_r.
  destruct (lookup_lt_is_Some_2 newTokens (Z.to_nat (oldPos path - diagonalPath)))
    as [t Ht]; first lia.
  rewrite Ht. simpl.
  replace (Z.to_nat (oldPos path + 1 - diagonalPath))
    with (S (Z.to_nat (oldPos path - diagonalPath))) by lia.
  rewrite (take_S_r _ _ t) by done.
  replace (Z.to_nat (oldPos path + 1 - (diagonalPath + 1)))
    with (Z.to_nat (oldPos path - diagonalPath)) in Hnew by lia.
  repeat split; try lia; try done. by rewrite Hnew.
Qed.

Lemma removing_sound (diagonalPath : Z) (path : Path) :
  sound oldTokens newTokens (diagonalPath - 1) path →
  canRemove oldTokens (Some path) = true →
  sound oldTokens newTokens diagonalPath (removing oldTokens path).
Proof.
  intros (Hx & Hy & Hold & Hnew) Hcan. unfold canRemove in Hcan.
  apply Z.ltb_lt in Hcan.
  unfold sound, removing. cbn [oldPos edits]. simpl rev.
  rewrite oldEdits_app, newOf_app. simpl. rewrite app_nil_r.
  destruct (lookup_lt_is_Some_2 oldTokens (Z.to_nat (oldPos path + 1)))
    as [t Ht]; first lia.
  rewrite Ht. simpl.
  replace (Z.to_nat (oldPos path + 1 + 1)) with (S (Z.to_nat (oldPos path + 1))) by lia.
  rewrite (take_S_r _ _ t) by done.
  replace (Z.to_nat (oldPos path + 1 + 1 - diagonalPath))
    with (Z.to_nat (oldPos path + 1 - (diagonalPath - 1))) by lia.
  repeat split; try lia; try done.
  apply Forall2_app; first done. by constructor.
Qed.

(** What a visit gives: a sound path that continues one of the two paths
    next to the diagonal. *)
Lemma visit_cases (bestPath : gmap Z Path) (diagonalPath : Z) :
  let removePath := bestPath !! (diagonalPath - 1)%Z in
  let addPath := bestPath !! (diagonalPath + 1)%Z in
  match visit oldTokens newTokens bestPath diagonalPath with
  | None => canAdd newTokens addPath diagonalPath = false
            ∧ canRemove oldTokens removePath = false
  | Some (path, newPos) =>
      (∃ a, addPath = Some a
            ∧ canAdd newTokens addPath diagonalPath = true
            ∧ (path, newPos)
              = extractCommon oldTokens newTokens (adding newTokens diagonalPath a)
                  diagonalPath
            ∧ ∀ r, removePath = Some r → canRemove oldTokens removePath = true →
                   (oldPos r < oldPos a)%Z)
      ∨ (∃ r, removePath = Some r
              ∧ canRemove oldTokens removePath = true
              ∧ (path, newPos)
                = extractCommon oldTokens newTokens (removing oldTokens r) diagonalPath
              ∧ ∀ a, addPath = Some a → canAdd newTokens addPath diagonalPath = true →
                     (oldPos a ≤ oldPos r)%Z)
  end.
Proof.
  intros removePath addPath. unfold visit. fold removePath addPath.
  destruct (canAdd newTokens addPath diagonalPath) eqn:Ea;
    destruct (canRemove oldTokens removePath) eqn:Er; cbn [negb andb orb].
  - destruct removePath as [r|]; last done. destruct addPath as [a|]; last done.
    destruct (oldPos r <? oldPos a)%Z eqn:E; cbn [fmap option_fmap option_map].
    + left. exists a. repeat split; try done. intros ? [= <-] _. by apply Z.ltb_lt.
    + right. exists r. repeat split; try done. intros ? [= <-] _. by apply Z.ltb_ge.
  - destruct addPath as [a|]; last done. cbn [fmap option_fmap option_map].
    left. exists a. repeat split; done.
  - destruct removePath as [r|]; last done. cbn [fmap option_fmap option_map].
    right. exists r. repeat split; done.
  - done.
Qed.

Lemma visit_sound (bestPath : gmap Z Path) (diagonalPath : Z) (path : Path) (newPos : Z) :
  (∀ k p, bestPath !! k = Some p → sound oldTokens newTokens k p) →
  visit oldTokens newTokens bestPath diagonalPath = Some (path, newPos) →
  sound oldTokens newTokens diagonalPath path ∧ newPos = (oldPos path - diagonalPath)%Z.
Proof.
  intros Hbest Hvisit. pose proof (visit_cases bestPath diagonalPath) as H.
  rewrite Hvisit in H. cbv zeta in H.
  destruct H as [(a & Ha & Hcan & E & _)|(r & Hr & Hcan & E & _)].
  - rewrite Ha in Hcan.
    destruct (extractCommon_sound diagonalPath (adding newTokens diagonalPath a))
      as (H1 & H2 & _).
    { apply adding_sound; [by apply Hbest | done]. }
    rewrite <- E in H1, H2. done.
  - rewrite Hr in Hcan.
    destruct (extractCommon_sound diagonalPath (removing oldTokens r)) as (H1 & H2 & _).
    { apply removing_sound; [by apply Hbest | done]. }
    rewrite <- E in H1, H2. done.
Qed.

(** A visit comes further than both paths it may continue. *)
Lemma visit_progress (bestPath : gmap Z Path) (diagonalPath : Z) (path : Path) (newPos : Z) :
  (∀ k p, bestPath !! k = Some p → sound oldTokens newTokens k p) →
  visit oldTokens newTokens bestPath diagonalPath = Some (path, newPos) →
  (∀ r, bestPath !! (diagonalPath - 1)%Z = Some r →
        canRemove oldTokens (Some r) = true →
        (progress (diagonalPath - 1) r < progress diagonalPath path)%Z)
  ∧ (∀ a, bestPath !! (diagonalPath + 1)%Z = Some a →
          canAdd newTokens (Some a) diagonalPath = true →
          (progress (diagonalPath + 1) a < progress diagonalPath path)%Z).
Proof.
  intros Hbest Hvisit. pose proof (visit_cases bestPath diagonalPath) as H.
  rewrite Hvisit in H. cbv zeta in H. unfold progress.
  destruct H as [(a & Ha & Hcan & E & Hfar)|(r & Hr & Hcan & E & Hfar)].
  - destruct (extractCommon_sound diagonalPath (adding newTokens diagonalPath a))
      as (_ & _ & H3).
    { apply adding_sound; [by apply Hbest | by rewrite <- Ha]. }
    rewrite <- E in H3. cbn [fst oldPos adding] in H3. split.
    + intros r Hr Hcr. rewrite Hr in Hfar. specialize (Hfar r eq_refl Hcr). lia.
    + intros a' Ha'. rewrite Ha in Ha'. injection Ha' as <-. lia.
  - destruct (extractCommon_sound diagonalPath (removing oldTokens r)) as (_ & _ & H3).
    { apply removing_sound; [by apply Hbest | by rewrite <- Hr]. }
    rewrite <- E in H3. cbn [fst oldPos removing] in H3. split.
    + intros r' Hr'. rewrite Hr in Hr'. injection Hr' as <-. lia.
    + intros a Ha Hca. rewrite Ha in Hfar. specialize (Hfar a eq_refl Hca). lia.
Qed.

Lemma diagonals_elem (editLength : nat) (k : Z) :
  k ∈ diagonals editLength
  ↔ ∃ i : nat, i ≤ editLength ∧ k = (2 * Z.of_nat i - Z.of_nat editLength)%Z.
Proof.
  unfold diagonals. rewrite list_elem_of_fmap. split.
  - intros (i & -> & Hi). apply elem_of_seq in Hi. exists i. split; [lia | done].
  - intros (i & Hi & ->). exists i. split; first done. apply elem_of_seq. lia.
Qed.

Lemma diagonals_NoDup (editLength : nat) : NoDup (diagonals editLength).
Proof.
  unfold diagonals. apply NoDup_fmap_2; last apply NoDup_seq.
  intros i j. lia.
Qed.

Lemma diagonals_next (editLength : nat) (k : Z) :
  k ∈ diagonals editLength →
  (k + 1)%Z ∈ diagonals (S editLength) ∧ (k - 1)%Z ∈ diagonals (S editLength).
Proof.
  rewrite !diagonals_elem. intros (i & Hi & ->). split.
  - exists (S i). split; lia.
  - exists i. split; lia.
Qed.

Lemma execEditLength_spec (bestPath : gmap Z Path) (ks : list Z) (next : gmap Z Path) :
  (∀ k p, bestPath !! k = Some p → sound oldTokens newTokens k p) →
  NoDup ks →
  match execEditLength oldTokens newTokens bestPath ks next with
  | inl path =>
      ∃ k, sound oldTokens newTokens k path
           ∧ reachesEnd oldTokens newTokens path (oldPos path - k) = true
  | inr next' =>
      (∀ k, k ∉ ks → next' !! k = next !! k)
      ∧ (∀ k, k ∈ ks →
              next' !! k
              = match visit oldTokens newTokens bestPath k with
                | Some (path, _) => Some path
                | None => next !! k
                end)
      ∧ ∀ k path newPos,
          k ∈ ks → visit oldTokens newTokens bestPath k = Some (path, newPos) →
          unfinished oldTokens newTokens k path
  end.
Proof.
  intros Hbest. revert next. induction ks as [|k0 ks IH]; intros next Hnd.
  - simpl. split; first done.
    split; [intros k Hk | intros k p np Hk _]; by apply elem_of_nil in Hk.
  - apply NoDup_cons in Hnd as [Hk0 Hnd]. cbn [execEditLength].
    destruct (visit oldTokens newTokens bestPath k0) as [[path newPos]|] eqn:Hv.
    + destruct (visit_sound bestPath k0 path newPos Hbest Hv) as [Hs ->].
      destruct (reachesEnd oldTokens newTokens path (oldPos path - k0)) eqn:Hend.
      * by exists k0.
      * specialize (IH (<[k0 := path]> next) Hnd).
        destruct (execEditLength oldTokens newTokens bestPath ks (<[k0 := path]> next))
          as [done|next']; first done.
        destruct IH as (Hout & Hin & Hun). split; last split.
        -- intros k Hk. apply not_elem_of_cons in Hk as [Hne Hk].
           rewrite Hout by done. by rewrite lookup_insert_ne.
        -- intros k [->|Hk]%elem_of_cons.
           ++ rewrite Hout by done. by rewrite Hv, lookup_insert_eq.
           ++ rewrite Hin by done. destruct (visit _ _ _ k) as [[? ?]|]; first done.
              rewrite lookup_insert_ne; first done. intros ->. done.
        -- intros k p np [->|Hk]%elem_of_cons Hvk.
           ++ rewrite Hv in Hvk. by injection Hvk as <- <-.
           ++ by eapply Hun.
    + specialize (IH next Hnd).
      destruct (execEditLength oldTokens newTokens bestPath ks next) as [done|next'];
        first done.
      destruct IH as (Hout & Hin & Hun). split; last split.
      * intros k Hk. apply not_elem_of_cons in Hk as [Hne Hk]. by apply Hout.
      * intros k [->|Hk]%elem_of_cons.
        -- rewrite Hout by done. by rewrite Hv.
        -- by apply Hin.
      * intros k p np [->|Hk]%elem_of_cons Hvk.
        -- by rewrite Hv in Hvk.
        -- by eapply Hun.
Qed.

(** An edit length either comes to the end or leaves the paths of the next
    length. *)
Lemma execEditLength_frontier (editLength : nat) (bestPath : gmap Z Path) :
  frontier oldTokens newTokens editLength bestPath →
  match execEditLength oldTokens newTokens bestPath (diagonals (S editLength)) ∅ with
  | inl path =>
      ∃ k, sound oldTokens newTokens k path
           ∧ reachesEnd oldTokens newTokens path (oldPos path - k) = true
  | inr next => frontier oldTokens newTokens (S editLength) next
  end.
Proof.
  intros [Hall (k & p & Hp & Hprog)].
  assert (Hbest : ∀ k p, bestPath !! k = Some p → sound oldTokens newTokens k p)
    by (intros k' p' H'; by apply Hall in H' as (_ & ? & _)).
  pose proof (execEditLength_spec bestPath (diagonals (S editLength)) ∅ Hbest
                (diagonals_NoDup _)) as Hspec.
  destruct (execEditLength _ _ _ _ _) as [done|next]; first done.
  destruct Hspec as (Hout & Hin & Hun). split.
  - intros k' p' H'.
    destruct (decide (k' ∈ diagonals (S editLength))) as [Hk|Hk];
      last by rewrite Hout, lookup_empty in H'.
    rewrite Hin in H' by done.
    destruct (visit oldTokens newTokens bestPath k') as [[path newPos]|] eqn:Hv;
      last by rewrite lookup_empty in H'.
    injection H' as <-. split; first done. split.
    + by destruct (visit_sound bestPath k' path newPos Hbest Hv).
    + by eapply Hun.
  - destruct (Hall k p Hp) as (Hk & Hs & Hun').
    destruct (diagonals_next editLength k Hk) as [Hup Hdown].
    unfold unfinished, reachesEnd in Hun'. apply andb_false_iff in Hun'.
    destruct Hs as (Hx & Hy & _).
    destruct Hun' as [Hold|Hnew].
    + (* an old token is left: the diagonal above continues the path *)
      apply Z.leb_gt in Hold.
      assert (canRemove oldTokens (Some p) = true) as Hcan
        by (unfold canRemove; apply Z.ltb_lt; lia).
      pose proof (visit_cases bestPath (k + 1)) as Hc. cbv zeta in Hc.
      replace (k + 1 - 1)%Z with k in Hc by lia. rewrite Hp in Hc.
      destruct (visit oldTokens newTokens bestPath (k + 1)) as [[path newPos]|] eqn:Hv;
        last by (destruct Hc as [_ Hc]; rewrite Hcan in Hc).
      exists (k + 1)%Z, path. split.
      * rewrite Hin by done. by rewrite Hv.
      * destruct (visit_progress bestPath (k + 1) path newPos Hbest Hv) as [Hr _].
        replace (k + 1 - 1)%Z with k in Hr by lia.
        specialize (Hr p Hp Hcan). lia.
    + (* a new token is left: the diagonal below continues the path *)
      apply Z.leb_gt in Hnew.
      assert (canAdd newTokens (Some p) (k - 1) = true) as Hcan.
      { unfold canAdd. apply andb_true_iff. split; [apply Z.leb_le | apply Z.ltb_lt]; lia. }
      pose proof (visit_cases bestPath (k - 1)) as Hc. cbv zeta in Hc.
      replace (k - 1 + 1)%Z with k in Hc by lia. rewrite Hp in Hc.
      destruct (visit oldTokens newTokens bestPath (k - 1)) as [[path newPos]|] eqn:Hv;
        last by (destruct Hc as [Hc _]; rewrite Hcan in Hc).
      exists (k - 1)%Z, path. split.
      * rewrite Hin by done. by rewrite Hv.
      * destruct (visit_progress bestPath (k - 1) path newPos Hbest Hv) as [_ Ha].
        replace (k - 1 + 1)%Z with k in Ha by lia.
        specialize (Ha p Hp Hcan). lia.
Qed.

(** No path that has not come to the end has consumed every token. *)
Lemma frontier_bound (editLength : nat) (bestPath : gmap Z Path) :
  frontier oldTokens newTokens editLength bestPath →
  editLength < length oldTokens + length newTokens.
Proof.
  intros [Hall (k & p & Hp & Hprog)].
  destruct (Hall k p Hp) as (_ & (Hx & Hy & _) & Hun).
  unfold unfinished, reachesEnd in Hun. unfold progress in Hprog.
  apply andb_false_iff in Hun as [H|H]; apply Z.leb_gt in H; lia.
Qed.

(** The edit lengths come to the end before they are used up. *)
Lemma editLengths_returns (more editLength : nat) (bestPath : gmap Z Path) :
  frontier oldTokens newTokens editLength bestPath →
  length oldTokens + length newTokens ≤ more + editLength →
  ∃ path k,
    editLengths oldTokens newTokens more (S editLength) bestPath = Some path
    ∧ sound oldTokens newTokens k path
    ∧ reachesEnd oldTokens newTokens path (oldPos path - k) = true.
Proof.
  revert editLength bestPath. induction more as [|more IH]; intros editLength bestPath Hf Hle.
  - apply frontier_bound in Hf. lia.
  - cbn [editLengths]. pose proof (execEditLength_frontier editLength bestPath Hf) as H.
    destruct (execEditLength _ _ _ _ _) as [path|next].
    + destruct H as (k & Hs & Hend). by exists path, k.
    + apply IH; [done | lia].
Qed.

(** The diff returns, and its script leads from the old tokens to the new
    ones. *)
Lemma diff_returns :
  ∃ es,
    diff oldTokens newTokens = Some es
    ∧ Forall2 fits (oldEdits es) oldTokens
    ∧ newOf es = newTokens.
Proof.
  assert (Hdone : ∀ path k,
            sound oldTokens newTokens k path →
            reachesEnd oldTokens newTokens path (oldPos path - k) = true →
            Forall2 fits (oldEdits (rev (edits path))) oldTokens
            ∧ newOf (rev (edits path)) = newTokens).
  { intros path k (Hx & Hy & Hold & Hnew) Hend. unfold reachesEnd in Hend.
    apply andb_true_iff in Hend as [H1 H2]. apply Z.leb_le in H1, H2.
    rewrite take_ge in Hold by lia. rewrite take_ge in Hnew by lia. done. }
  unfold diff.
  assert (sound oldTokens newTokens 0 {| oldPos := -1; edits := [] |}) as H0.
  { unfold sound. simpl. repeat split; try lia. constructor. }
  destruct (extractCommon_sound 0 _ H0) as (Hs & Hnp & _).
  destruct (extractCommon oldTokens newTokens {| oldPos := -1; edits := [] |} 0)
    as [path0 newPos0]. simpl in Hs, Hnp. subst newPos0.
  destruct (reachesEnd oldTokens newTokens path0 (oldPos path0 - 0)) eqn:Hend.
  - eexists. split; first done. by apply (Hdone path0 0%Z).
  - assert (frontier oldTokens newTokens 0 {[ 0%Z := path0 ]}) as Hf.
    { split.
      - intros k p [<- <-]%lookup_singleton_Some. split; last done.
        apply diagonals_elem. exists 0. split; lia.
      - exists 0%Z, path0. split; first by rewrite lookup_singleton_eq.
        destruct Hs as (Hx & Hy & _). unfold progress. lia. }
    destruct (editLengths_returns (length oldTokens + length newTokens) 0
                {[ 0%Z := path0 ]} Hf) as (path & k & -> & Hsp & Hendp); first lia.
    eexists. split; first done. by apply (Hdone path k).
Qed.

End Myers.

(** *** The hunks and what they mean *)

Section Segments.

Lemma mark_fst (since : nat) (es : list Edit) : (mark since es).*1 = es.
Proof.
  revert since. induction es as [|e r IH]; intros since; simpl; first done.
  destruct (isChange e); simpl; by rewrite IH.
Qed.

Lemma mark_wellMarked (since : nat) (es : list Edit) : wellMarked (mark since es).
Proof.
  revert since. induction es as [|e r IH]; intros since; simpl.
  - constructor.
  - destruct (isChange e) eqn:E; constructor; simpl; auto; try done.
    apply IH. apply IH.
Qed.

Lemma applySegments_extend (e : Edit) (ls : list Edit) (segs : list Segment)
    (r : list Edit) (new : list string) :
  applySegments ((0, ls) :: segs) (oldOf r) = Some new →
  applySegments ((0, e :: ls) :: segs) (oldOf (e :: r)) = Some (newOf [e] ++ new).
Proof.
  destruct e as [[] l]; simpl; rewrite ?drop_0.
  - rewrite String.eqb_refl.
    destruct (applyLines ls (oldOf r)) as [[out rest]|]; last done.
    destruct (applySegments segs rest); last done.
    intros [= <-]. done.
  - rewrite String.eqb_refl.
    destruct (applyLines ls (oldOf r)) as [[out rest]|]; last done.
    destruct (applySegments segs rest); last done.
    intros [= <-]. done.
  - destruct (applyLines ls (oldOf r)) as [[out rest]|]; last done.
    destruct (applySegments segs rest); last done.
    intros [= <-]. done.
Qed.

(** A hunk of one line in front of the segments. *)
Lemma applySegments_single (e : Edit) (segs : list Segment)
    (r : list Edit) (new : list string) :
  applySegments segs (oldOf r) = Some new →
  applySegments ((0, [e]) :: segs) (oldOf (e :: r)) = Some (newOf [e] ++ new).
Proof.
  intros H.
  destruct e as [[] l]; simpl; rewrite ?drop_0, ?String.eqb_refl, H; done.
Qed.

Lemma newOf_cons (e : Edit) (r : list Edit) : newOf (e :: r) = newOf [e] ++ newOf r.
Proof. by destruct e as [[] l]. Qed.

(** The segments of a marked script lead from its old side to its new
    side. *)
Lemma group_apply (m : list (Edit * bool)) :
  wellMarked m → applySegments (group m) (oldOf m.*1) = Some (newOf m.*1).
Proof.
  induction m as [|[e shown] r IH]; intros W; first done.
  inversion W as [|? ? We Wr]; subst. specialize (IH Wr).
  cbn [group fmap list_fmap fst]. rewrite (newOf_cons e).
  destruct shown.
  - destruct (group r) as [|[[|n] ls] segs].
    + by apply applySegments_single.
    + by apply applySegments_extend.
    + by apply applySegments_single.
  - destruct e as [op l]. simpl in We. specialize (We eq_refl).
    destruct op; try discriminate. cbn [oldOf newOf app].
    destruct (group r) as [|[n ls] segs].
    + simpl in IH |- *. congruence.
    + cbn [applySegments] in IH |- *. cbn [length skipn firstn].
      change (S n <=? S (length (oldOf r.*1))) with (n <=? length (oldOf r.*1)).
      destruct (n <=? length (oldOf r.*1)); last done.
      destruct (applyLines ls (drop n (oldOf r.*1))) as [[out rest]|]; last done.
      destruct (applySegments segs rest); last done.
      injection IH as <-. done.
Qed.

(** The lines of the segments are lines of the script. *)
Lemma group_lines (m : list (Edit * bool)) (seg : Segment) (e : Edit) :
  seg ∈ group m → e ∈ seg.2 → e ∈ m.*1.
Proof.
  revert seg. induction m as [|[e0 shown] r IH]; intros seg Hseg He.
  - by apply elem_of_nil in Hseg.
  - cbn [group] in Hseg. cbn [fmap list_fmap fst]. destruct shown.
    + destruct (group r) as [|[[|n] ls] segs] eqn:E.
      * apply list_elem_of_singleton in Hseg as ->. simpl in He.
        apply list_elem_of_singleton in He as ->. by left.
      * apply elem_of_cons in Hseg as [->|Hseg].
        -- simpl in He. apply elem_of_cons in He as [->|He]; first by left.
           right. apply (IH (0, ls)); [by left | done].
        -- right. apply (IH seg); [by right | done].
      * apply elem_of_cons in Hseg as [->|Hseg].
        -- simpl in He. apply list_elem_of_singleton in He as ->. by left.
        -- right. by apply (IH seg).
    + destruct (group r) as [|[n ls] segs] eqn:E; first by apply elem_of_nil in Hseg.
      right. apply elem_of_cons in Hseg as [->|Hseg].
      * apply (IH (n, ls)); [by left | done].
      * apply (IH seg); [by right | done].
Qed.

End Segments.

Section Apply.

Lemma lineAt_lookup (lines : list string) (i : nat) :
  lineAt lines (Z.of_nat i) = lines !! i.
Proof.
  unfold lineAt. destruct (Z.ltb_spec (Z.of_nat i) 0) as [H|H]; first lia.
  by rewrite Nat2Z.id.
Qed.

Lemma copied_drop (lines : list string) (from to : nat) :
  from ≤ to → to ≤ length lines →
  copied lines (Z.of_nat from) (Z.of_nat to) = drop from (take to lines).
Proof.
  intros Hft Hto. unfold copied.
  replace (Z.to_nat (Z.of_nat to - Z.of_nat from)) with (to - from) by lia.
  apply list_eq. intros i. rewrite list_lookup_fmap, lookup_drop.
  destruct (decide (i < to - from)) as [Hi|Hi].
  - rewrite lookup_seq_lt by done. simpl.
    rewrite lookup_take_lt by lia.
    rewrite <- Nat2Z.inj_add, lineAt_lookup.
    destruct (lookup_lt_is_Some_2 lines (from + i)) as [x Hx]; first lia.
    by rewrite Hx.
  - rewrite lookup_seq_ge by lia. simpl.
    symmetry. apply lookup_ge_None. rewrite length_take. lia.
Qed.

(** The common lines at the end of a hunk have been consumed and produced
    alike. *)
Lemma trailing_same (ls : list Edit) (old : list string) (n : nat)
    (consumed produced : list string) (out rest : list string) :
  applyLines ls old = Some (out, rest) →
  n ≤ length consumed → n ≤ length produced →
  drop (length consumed - n) consumed = drop (length produced - n) produced →
  let t := trailing n ls in
  let o := length (oldOf ls) in
  t ≤ length consumed + o
  ∧ t ≤ length produced + length out
  ∧ rest = drop o old
  ∧ o ≤ length old
  ∧ drop (length consumed + o - t) (consumed ++ take o old)
    = drop (length produced + length out - t) (produced ++ out).
Proof.
  revert old n consumed produced out.
  induction ls as [|[[] l] r IH]; intros old n consumed produced out Happly Hc Hp Hsame.
  - injection Happly as <- <-. simpl. rewrite !app_nil_r, !Nat.add_0_r, drop_0.
    repeat split; try lia; done.
  - (* a common line *)
    simpl in Happly. destruct old as [|x old']; first done.
    destruct (String.eqb_spec x l) as [->|]; last done.
    destruct (applyLines r old') as [[out' rest']|] eqn:E; last done.
    injection Happly as <- <-.
    destruct (IH old' (S n) (consumed ++ [l]) (produced ++ [l]) out' E) as (H1 & H2 & H3 & H4 & H5).
    { rewrite length_app. simpl. lia. }
    { rewrite length_app. simpl. lia. }
    { rewrite !length_app. simpl.
      replace (length consumed + 1 - S n) with (length consumed - n) by lia.
      replace (length produced + 1 - S n) with (length produced - n) by lia.
      rewrite !drop_app_le by lia. by rewrite Hsame. }
    rewrite !length_app in *. simpl in *.
    repeat split; try lia; first done.
    rewrite <- !app_assoc in H5. simpl in H5.
    replace (length consumed + S (length (oldOf r)) - trailing (S n) r)
      with (length consumed + 1 + length (oldOf r) - trailing (S n) r) by lia.
    replace (length produced + S (length out') - trailing (S n) r)
      with (length produced + 1 + length out' - trailing (S n) r) by lia.
    done.
  - (* a removed line *)
    simpl in Happly. destruct old as [|x old']; first done.
    destruct (String.eqb_spec x l) as [->|]; last done.
    destruct (IH old' 0 (consumed ++ [l]) produced out Happly) as (H1 & H2 & H3 & H4 & H5);
      [lia | lia | by rewrite !Nat.sub_0_r, !drop_all |].
    rewrite !length_app in *. simpl in *.
    repeat split; try lia; first done.
    rewrite <- !app_assoc in H5. simpl in H5.
    replace (length consumed + S (length (oldOf r)) - trailing 0 r)
      with (length consumed + 1 + length (oldOf r) - trailing 0 r) by lia.
    done.
  - (* an added line *)
    simpl in Happly.
    destruct (applyLines r old) as [[out' rest']|] eqn:E; last done.
    injection Happly as <- <-.
    destruct (IH old 0 consumed (produced ++ [l]) out' E) as (H1 & H2 & H3 & H4 & H5);
      [lia | lia | by rewrite !Nat.sub_0_r, !drop_all |].
    rewrite !length_app in *. simpl in *.
    repeat split; try lia; first done.
    rewrite <- !app_assoc in H5. simpl in H5.
    replace (length produced + S (length out') - trailing 0 r)
      with (length produced + 1 + length out' - trailing 0 r) by lia.
    done.
Qed.

Variable tokens : list string.
Variable extra : list string.

(** The lines of a hunk, applied by [applyHunk] to the lines of the old
    tokens at the place where the segment applies to the tokens. *)
Lemma applyHunk_lines (ls : list Edit) (pos : nat) (acc : list string) (n : nat)
    (out rest : list string) :
  applyLines ls (drop pos tokens) = Some (out, rest) →
  applyHunk (map stripEofNewline tokens ++ extra) (map textLine ls) (Z.of_nat pos) acc n
  = Some (take (length acc + length out - trailing n ls) (acc ++ map stripEofNewline out),
          (Z.of_nat (pos + length (oldOf ls)) - Z.of_nat (trailing n ls) - 1)%Z).
Proof.
  revert pos acc n out.
  induction ls as [|[[] l] r IH]; intros pos acc n out Happly.
  - injection Happly as <- <-. simpl. rewrite app_nil_r, !Nat.add_0_r. done.
  - simpl in Happly. destruct (drop pos tokens) as [|x old'] eqn:Ed; first done.
    destruct (String.eqb_spec x l) as [->|]; last done.
    destruct (applyLines r old') as [[out' rest']|] eqn:E; last done.
    injection Happly as <- <-.
    assert (tokens !! pos = Some l) as Hl
      by (rewrite <- (Nat.add_0_r pos), <- lookup_drop, Ed; done).
    assert (old' = drop (S pos) tokens) as ->.
    { replace (S pos) with (pos + 1) by lia. rewrite <- drop_drop, Ed. done. }
    cbn [map textLine sign fst snd applyHunk]. simpl Ascii.eqb. cbn iota.
    rewrite lineAt_lookup, lookup_app_l, list_lookup_fmap, Hl
      by (rewrite length_map; by apply lookup_lt_is_Some_1).
    simpl. rewrite bool_decide_true by done.
    replace (Z.of_nat pos + 1)%Z with (Z.of_nat (S pos)) by lia.
    rewrite (IH (S pos) _ _ out' E). rewrite length_app, <- app_assoc. simpl.
    f_equal. f_equal; [f_equal; lia | lia].
  - simpl in Happly. destruct (drop pos tokens) as [|x old'] eqn:Ed; first done.
    destruct (String.eqb_spec x l) as [->|]; last done.
    assert (tokens !! pos = Some l) as Hl
      by (rewrite <- (Nat.add_0_r pos), <- lookup_drop, Ed; done).
    assert (old' = drop (S pos) tokens) as ->.
    { replace (S pos) with (pos + 1) by lia. rewrite <- drop_drop, Ed. done. }
    cbn [map textLine sign fst snd applyHunk]. simpl Ascii.eqb. cbn iota.
    rewrite lineAt_lookup, lookup_app_l, list_lookup_fmap, Hl
      by (rewrite length_map; by apply lookup_lt_is_Some_1).
    simpl. rewrite bool_decide_true by done.
    replace (Z.of_nat pos + 1)%Z with (Z.of_nat (S pos)) by lia.
    rewrite (IH (S pos) _ _ out Happly). simpl.
    f_equal. f_equal. lia.
  - simpl in Happly.
    destruct (applyLines r (drop pos tokens)) as [[out' rest']|] eqn:E; last done.
    injection Happly as <- <-.
    cbn [map textLine sign fst snd applyHunk]. simpl Ascii.eqb. cbn iota.
    rewrite (IH pos _ _ out' E). rewrite length_app, <- app_assoc. simpl.
    f_equal. f_equal. f_equal. lia.
Qed.

End Apply.

Lemma hunkLines_terminated (ls : list Edit) :
  Forall (λ e : Edit, endsWithNewline e.2 = true) ls →
  concat (map hunkLine ls) = map textLine ls.
Proof.
  induction 1 as [|e r He _ IH]; first done.
  cbn [map concat]. unfold hunkLine at 1. rewrite He, IH. done.
Qed.

Section Application.

Variable tokens : list string.

(** The hunks of some segments, applied by [applyHunks] to the lines of the
    old tokens, give the lines of what the segments give. *)
Lemma applyHunks_segments (segs : list Segment) (pos npos minLine : nat)
    (resultLines out : list string) :
  Forall (λ seg : Segment, Forall (λ e : Edit, endsWithNewline e.2 = true) seg.2) segs →
  minLine ≤ pos → pos ≤ length tokens →
  applySegments segs (drop pos tokens) = Some out →
  applyHunks (map stripEofNewline tokens ++ [""]) (toHunks pos npos segs)
    (Z.of_nat minLine) 0 resultLines
  = Some (resultLines ++ drop minLine (take pos (map stripEofNewline tokens))
          ++ map stripEofNewline out ++ [""]).
Proof.
  intros Hterm. revert pos npos minLine resultLines out.
  induction Hterm as [|[skip ls] segs Hls _ IH];
    intros pos npos minLine resultLines out Hmin Hpos Happly.
  - injection Happly as <-. cbn [toHunks applyHunks].
    rewrite length_app, length_map. simpl length.
    replace (Z.of_nat (length tokens + 1)) with (Z.of_nat (S (length tokens))) by lia.
    rewrite copied_drop by (rewrite ?length_app, ?length_map; simpl; lia).
    rewrite take_ge by (rewrite length_app, length_map; simpl; lia).
    rewrite drop_app_le by (rewrite length_map; lia).
    rewrite <- (take_drop pos (map stripEofNewline tokens)) at 1.
    rewrite drop_app_le by (rewrite length_take, length_map; lia).
    rewrite <- !app_assoc, <- fmap_drop. done.
  - cbn [applySegments] in Happly.
    destruct (Nat.leb_spec skip (length (drop pos tokens))) as [Hskip|]; last done.
    rewrite length_drop in Hskip. rewrite drop_drop in Happly.
    destruct (applyLines ls (drop (pos + skip) tokens)) as [[o1 rest]|] eqn:El; last done.
    destruct (applySegments segs rest) as [tl|] eqn:Es; last done.
    injection Happly as <-.
    destruct (trailing_same ls _ 0 [] [] o1 rest El) as (Ht & Ht' & -> & Ho & Hsame);
      [simpl; lia | simpl; lia | done |].
    simpl in Ht, Ht', Hsame. rewrite length_drop in Ho. rewrite drop_drop in Es.
    cbn [toHunks applyHunks oldStart oldLines lines snd] in *.
    rewrite (hunkLines_terminated ls Hls).
    unfold places. cbn [firstFit].
    replace (Z.of_nat (pos + skip + 1) + 0 - 1)%Z with (Z.of_nat (pos + skip)) by lia.
    rewrite (applyHunk_lines tokens [""] ls (pos + skip) [] 0 o1 _ El).
    cbn [length Nat.add app].
    replace (Z.of_nat (pos + skip + length (oldOf ls)) - Z.of_nat (trailing 0 ls) - 1 + 1)%Z
      with (Z.of_nat (pos + skip + length (oldOf ls) - trailing 0 ls)) by lia.
    replace (Z.of_nat (pos + skip) + 1 - Z.of_nat (pos + skip + 1))%Z with 0%Z by lia.
    rewrite (IH _ _ _ _ tl) by (done || lia).
    f_equal. rewrite <- !app_assoc. f_equal.
    rewrite copied_drop by (rewrite ?length_app, ?length_map; simpl; lia).
    rewrite take_app_le by (rewrite length_map; lia).
    rewrite <- take_take_drop, drop_app_le by (rewrite length_take, length_map; lia).
    rewrite <- !app_assoc. f_equal.
    rewrite !fmap_app, <- !app_assoc, fmap_take, fmap_drop. f_equal.
    rewrite !app_assoc. f_equal. f_equal.
    rewrite <- (take_drop (length o1 - trailing 0 ls) o1) at 3.
    rewrite fmap_app, fmap_take. f_equal.
    rewrite <- Hsame, take_drop_commute, drop_drop, <- fmap_take, <- fmap_drop.
    f_equal. f_equal. lia.
Qed.

End Application.

(** *** The segments show an old line *)

Lemma group_shown (m : list (Edit * bool)) (e : Edit) :
  (e, true) ∈ m → ∃ seg, seg ∈ group m ∧ e ∈ seg.2.
Proof.
  induction m as [|[e0 shown] r IH]; intros Hin.
  - by apply elem_of_nil in Hin.
  - apply elem_of_cons in Hin as [[= <- <-]|Hin].
    + cbn [group]. destruct (group r) as [|[[|n] ls] segs].
      * exists (0, [e]). split; [left | simpl; left].
      * exists (0, e :: ls). split; [left | simpl; left].
      * exists (0, [e]). split; [left | simpl; left].
    + destruct (IH Hin) as (seg & Hseg & He). cbn [group].
      destruct shown.
      * destruct (group r) as [|[[|n] ls] segs].
        -- by apply elem_of_nil in Hseg.
        -- apply elem_of_cons in Hseg as [->|Hseg].
           ++ exists (0, e0 :: ls). split; [left | simpl; by right].
           ++ exists seg. split; [by right | done].
        -- exists seg. split; [by right | done].
      * destruct (group r) as [|[n ls] segs].
        -- by apply elem_of_nil in Hseg.
        -- apply elem_of_cons in Hseg as [->|Hseg].
           ++ exists (S n, ls). split; [left | done].
           ++ exists seg. split; [by right | done].
Qed.

Lemma mark_hidden (since : nat) (es : list Edit) :
  context ≤ since → existsb isChange es = false → group (mark since es) = [].
Proof.
  revert since. induction es as [|e r IH]; intros since Hsince Hes; first done.
  cbn [existsb] in Hes. apply orb_false_iff in Hes as [He Hr].
  cbn [mark]. rewrite He.
  replace (since <? context) with false by (symmetry; apply Nat.ltb_ge; done).
  replace (existsb isChange (take context r)) with false.
  - cbn [orb group]. rewrite IH; [done | lia | done].
  - symmetry. apply not_true_is_false. intros (x & Hx & Hc)%existsb_exists.
    apply list_elem_of_In, elem_of_take in Hx as (i & Hi & _).
    apply list_elem_of_lookup_2 in Hi.
    assert (existsb isChange r = true) as Hr'
      by (apply existsb_exists; exists x; split; [by apply list_elem_of_In | done]).
    congruence.
Qed.

Lemma mark_shows_old (since : nat) (es : list Edit) :
  existsb isChange es = true →
  (∃ e, e ∈ es ∧ e.1 ≠ Added) →
  ∃ e, (e, true) ∈ mark since es ∧ e.1 ≠ Added.
Proof.
  revert since. induction es as [|[op l] r IH]; intros since Hchange Hold; first done.
  destruct op.
  - (* a common line *)
    cbn [mark isChange fst]. cbn [existsb isChange fst orb] in Hchange.
    destruct ((since <? context) || existsb isChange (take context r)) eqn:Eshown.
    + exists (Context, l). split; [left | done].
    + apply orb_false_iff in Eshown as [_ Ehead].
      destruct (IH (S since) Hchange) as (e & He & Hne).
      * destruct r as [|[op' l'] r']; first done.
        exists (op', l'). split; first left.
        cbn [take context existsb isChange fst] in Ehead. by destruct op'.
      * exists e. split; [by right | done].
  - exists (Removed, l). split; [left | done].
  - cbn [mark isChange fst].
    destruct r as [|[op' l'] r']; first (destruct Hold as (e & He & Hne);
      apply elem_of_cons in He as [->|He]; [done | by apply elem_of_nil in He]).
    destruct op'.
    + exists (Context, l'). split; last done. right. cbn [mark isChange fst]. left.
    + exists (Removed, l'). split; last done. right. cbn [mark isChange fst]. left.
    + destruct (IH 0) as (e & He & Hne); first done.
      * destruct Hold as (e & He & Hne).
        apply elem_of_cons in He as [->|He]; first done. by exists e.
      * exists e. split; [by right | done].
Qed.

(** Where the old script is not empty, the segments of a script show a line
    of the old side when they show anything. *)
Lemma group_shows_old (es : list Edit) :
  oldOf es ≠ [] → group (mark context es) ≠ [] →
  ∃ seg e, seg ∈ group (mark context es) ∧ e ∈ seg.2 ∧ e.1 ≠ Added ∧ e ∈ es.
Proof.
  intros Hold Hsegs.
  destruct (existsb isChange es) eqn:Echange;
    last by (exfalso; apply Hsegs, mark_hidden).
  destruct (mark_shows_old context es Echange) as (e & He & Hne).
  - clear -Hold. induction es as [|[op l] r IH]; first done.
    destruct op; [by eexists; split; [left|] | by eexists; split; [left|] |].
    destruct IH as (e & He & Hne); first done. exists e. split; [by right | done].
  - destruct (group_shown _ _ He) as (seg & Hseg & Hin).
    exists seg, e. repeat split; try done.
    eapply group_lines in Hin; last done. by rewrite mark_fst in Hin.
Qed.

(** *** The line endings *)

Lemma strip_cons (c : ascii) (t : string) :
  t ≠ "" → stripEofNewline (String c t) = String c (stripEofNewline t).
Proof. by destruct t. Qed.

Lemma terminated_cons (c : ascii) (t : string) :
  t ≠ "" → endsWithNewline (String c t) = endsWithNewline t.
Proof. by destruct t. Qed.

Lemma tokenize_nil (s : string) : tokenize s = [] → s = "".
Proof.
  destruct s as [|c r]; first done. cbn [tokenize].
  destruct (Ascii.eqb c nl); first done. by destruct (tokenize r).
Qed.

Lemma tokenize_newline (s : string) (ts : list string) :
  tokenize s = NL :: ts → ∃ r, s = String nl r.
Proof.
  destruct s as [|c r]; first done. cbn [tokenize].
  destruct (Ascii.eqb_spec c nl) as [->|Hc]; first by eexists.
  destruct (tokenize r); intros [= E]; by subst.
Qed.

Lemma terminated_empty (t : string) :
  endsWithNewline t = true → stripEofNewline t = "" → t = NL.
Proof.
  intros Ht Hs. pose proof (strip_eof t) as E. unfold eofNewline in E.
  by rewrite Ht, Hs in E.
Qed.

Lemma tokenize_win (s : string) (p : ascii) :
  bareNewline (String p s) = false →
  match tokenize s with
  | [] => True
  | t :: ts =>
      (endsWithNewline t = true → endsWithCr (String p (stripEofNewline t)) = true)
      ∧ Forall (λ t, endsWithNewline t = true → endsWithCr (stripEofNewline t) = true) ts
  end.
Proof.
  revert p. induction s as [|c r IH]; intros p H; first done.
  cbn [bareNewline] in H. apply orb_false_iff in H as [Hp Hr].
  specialize (IH c Hr). pose proof (tokenize_lines r) as Hne.
  cbn [tokenize]. destruct (Ascii.eqb_spec c nl) as [->|Hc].
  - rewrite andb_true_r in Hp. apply negb_false_iff, Ascii.eqb_eq in Hp as ->.
    split; first done.
    destruct (tokenize r) as [|t ts]; first done.
    destruct IH as [Ht Hts]. constructor; last done.
    intros Hterm. specialize (Ht Hterm).
    by destruct (stripEofNewline t).
  - destruct (tokenize r) as [|t ts].
    + split; last done. cbn. intros Hterm. apply Ascii.eqb_eq in Hterm. done.
    + destruct IH as [Ht Hts]. inversion Hne as [|? ? [_ Htne] _]; subst.
      split; last done. rewrite terminated_cons, strip_cons by done. intros Hterm.
      specialize (Ht Hterm). done.
Qed.

Lemma win_tokens (s : string) :
  hasOnlyWinLineEndings s = true →
  Forall (λ t, endsWithNewline t = true → endsWithCr (stripEofNewline t) = true)
    (tokenize s).
Proof.
  unfold hasOnlyWinLineEndings. intros [[_ Hstart]%andb_true_iff Hbare]%andb_true_iff.
  apply negb_true_iff in Hstart, Hbare.
  pose proof (tokenize_win s " "%char) as H.
  destruct (tokenize s) as [|t ts] eqn:E; first done.
  destruct H as [Ht Hts].
  - destruct s as [|c r]; first done.
    change (bareNewline (String " " (String c r)))
      with ((negb (Ascii.eqb " " cr) && Ascii.eqb c nl) || bareNewline (String c r)).
    rewrite Hbare. unfold startsWith, NL in Hstart. cbn [dropPrefix] in Hstart.
    destruct (Ascii.eqb_spec nl c) as [<-|Hc].
    + by rewrite bool_decide_true in Hstart.
    + replace (Ascii.eqb c nl) with false by (symmetry; apply Ascii.eqb_neq; congruence).
      by rewrite andb_false_r.
  - constructor; last done. intros Hterm. specialize (Ht Hterm).
    by destruct (stripEofNewline t).
Qed.

Lemma unix_tokens (s : string) :
  includes crlf s = false →
  Forall (λ t, endsWithNewline t = true → endsWithCr (stripEofNewline t) = false)
    (tokenize s).
Proof.
  induction s as [|c r IH]; intros H; first done.
  cbn [includes] in H. apply orb_false_iff in H as [Hstart Hr].
  specialize (IH Hr). pose proof (tokenize_lines r) as Hne.
  cbn [tokenize]. destruct (Ascii.eqb_spec c nl) as [->|Hc].
  - by constructor.
  - destruct (tokenize r) as [|t ts] eqn:E.
    + constructor; last done. cbn. intros Hterm. apply Ascii.eqb_eq in Hterm. done.
    + inversion IH as [|? ? Ht Hts]; subst. inversion Hne as [|? ? [_ Htne] _]; subst.
      constructor; last done.
      rewrite terminated_cons, strip_cons by done. intros Hterm. specialize (Ht Hterm).
      destruct (stripEofNewline t) as [|a x] eqn:Es; last done.
      apply terminated_empty in Es as ->; last done.
      apply tokenize_newline in E as [r' ->].
      cbn [endsWithCr]. apply not_true_is_false. intros ->%Ascii.eqb_eq.
      unfold startsWith, crlf, NL in Hstart. cbn [dropPrefix] in Hstart.
      rewrite !Ascii.eqb_refl in Hstart.
      by rewrite bool_decide_true in Hstart.
Qed.

(** *** The lines of the hunks *)

Lemma toHunks_lines (segs : list Segment) (pos npos : nat) (h : Hunk) :
  h ∈ toHunks pos npos segs → ∃ seg, seg ∈ segs ∧ lines h = concat (map hunkLine seg.2).
Proof.
  revert pos npos. induction segs as [|[skip ls] segs IH]; intros pos npos Hh.
  - by apply elem_of_nil in Hh.
  - cbn [toHunks] in Hh. apply elem_of_cons in Hh as [->|Hh].
    + exists (skip, ls). split; [left | done].
    + destruct (IH _ _ Hh) as (seg & Hseg & E). exists seg. split; [by right | done].
Qed.

Lemma toHunks_segment (segs : list Segment) (pos npos : nat) (seg : Segment) :
  seg ∈ segs → ∃ h, h ∈ toHunks pos npos segs ∧ lines h = concat (map hunkLine seg.2).
Proof.
  revert pos npos. induction segs as [|[skip ls] segs IH]; intros pos npos Hseg.
  - by apply elem_of_nil in Hseg.
  - cbn [toHunks]. apply elem_of_cons in Hseg as [->|Hseg].
    + eexists. split; [left | done].
    + destruct (IH (pos + skip + length (oldOf ls)) (npos + skip + length (newOf ls)) Hseg)
        as (h & Hh & E).
      exists h. split; [by right | done].
Qed.

Lemma textLine_sign (e : Edit) : ∃ c r, textLine e = String c r ∧ c ≠ "\"%char.
Proof. destruct e as [[] l]; by eexists _, _. Qed.

Lemma textLine_no_marker (e : Edit) : startsWith "\" (textLine e) = false.
Proof. by destruct e as [[] l]. Qed.

Lemma eofNewlines_none (ls : list Edit) (prevLine : string) :
  eofNewlines prevLine (map textLine ls) false false = (false, false).
Proof.
  revert prevLine. induction ls as [|e r IH]; intros prevLine; first done.
  cbn [map eofNewlines]. by rewrite textLine_no_marker.
Qed.

Lemma textLine_endsWithCr (e : Edit) :
  endsWithCr (textLine e) = endsWithCr (stripEofNewline e.2).
Proof.
  destruct e as [op l]. unfold textLine. cbn [fst snd].
  destruct (stripEofNewline l) as [|a x]; by destruct op.
Qed.

Lemma allKeepEnding_unix (ls : list Edit) (e : Edit) :
  e ∈ ls → endsWithCr (stripEofNewline e.2) = false →
  allKeepEnding (map textLine ls) = false.
Proof.
  induction ls as [|e0 r IH]; intros He Hcr.
  - by apply elem_of_nil in He.
  - cbn [map allKeepEnding]. apply elem_of_cons in He as [<-|He].
    + unfold keepsEnding. rewrite textLine_no_marker, textLine_endsWithCr, Hcr.
      destruct r as [|e1 r']; first done.
      cbn [map]. by rewrite textLine_no_marker.
    + rewrite IH by done. apply andb_false_r.
Qed.

(** *** The text of a patch, read again *)

Section Numbers.

Lemma digits_app (ds ds' : list nat) : digits (ds ++ ds') = digits ds +:+ digits ds'.
Proof.
  induction ds as [|d r IH]; first done.
  change (digits ((d :: r) ++ ds')) with (String (digitChar d) (digits (r ++ ds'))).
  change (digits (d :: r) +:+ digits ds')
    with (String (digitChar d) (digits r +:+ digits ds')).
  by rewrite IH.
Qed.

Lemma pretty_N_char_digit (k : nat) :
  k < 10 → pretty_N_char (N.of_nat k) = digitChar k.
Proof. intros H. do 10 (destruct k as [|k]; first reflexivity). lia. Qed.

Lemma digitOf_digitChar (d : nat) : d < 10 → digitOf (digitChar d) = Some d.
Proof. intros H. do 10 (destruct d as [|d]; first reflexivity). lia. Qed.

Lemma pretty_N_go_digits (x : N) (s : string) :
  (0 < x)%N →
  ∃ ds, ds ≠ [] ∧ Forall (λ d, d < 10) ds
        ∧ pretty_N_go x s = digits ds +:+ s
        ∧ valueOf 0 ds = N.to_nat x.
Proof.
  revert s. induction (N.lt_wf_0 x) as [x _ IH]. intros s Hx.
  rewrite pretty_N_go_step by done.
  pose proof (N.mod_lt x 10) as Hr. pose proof (N.div_mod x 10) as Hdm.
  set (q := (x `div` 10)%N) in *. set (r := (x `mod` 10)%N) in *.
  assert (N.to_nat r < 10) as Hr' by lia.
  assert (pretty_N_char r = digitChar (N.to_nat r)) as ->
    by (rewrite <- pretty_N_char_digit, N2Nat.id; done).
  destruct (decide (q = 0)%N) as [Hq|Hq].
  - rewrite Hq, pretty_N_go_0. exists [N.to_nat r].
    refine (conj _ (conj _ (conj _ _))).
    + done.
    + by apply Forall_singleton.
    + done.
    + unfold valueOf. cbn. lia.
  - destruct (IH q) with (s := String (digitChar (N.to_nat r)) s)
      as (ds & Hne & Hds & E & Hv); [lia | lia |].
    exists (ds ++ [N.to_nat r]). refine (conj _ (conj _ (conj _ _))).
    + by destruct ds.
    + apply Forall_app. split; first done. by apply Forall_singleton.
    + rewrite E, digits_app, append_assoc. done.
    + unfold valueOf in *. rewrite foldl_app, Hv. cbn. lia.
Qed.

Lemma pretty_digits (n : nat) :
  ∃ ds, ds ≠ [] ∧ Forall (λ d, d < 10) ds ∧ pretty n = digits ds ∧ valueOf 0 ds = n.
Proof.
  change (pretty n) with (pretty_N (N.of_nat n)). unfold pretty_N.
  destruct (decide (N.of_nat n = 0)%N) as [E|E].
  - exists [0]. refine (conj _ (conj _ (conj _ _))).
    + done.
    + apply Forall_singleton. lia.
    + done.
    + unfold valueOf. cbn. lia.
  - destruct (pretty_N_go_digits (N.of_nat n) "") as (ds & Hne & Hds & Ep & Hv); first lia.
    exists ds. rewrite Ep, append_empty, Hv, Nat2N.id. done.
Qed.

Lemma readDigits_digits (ds : list nat) (v : nat) (rest : string) :
  Forall (λ d, d < 10) ds →
  readDigits v (digits ds +:+ rest) = readDigits (valueOf v ds) rest.
Proof.
  intros Hds. revert v. induction Hds as [|d r Hd _ IH]; intros v; first done.
  change (digits (d :: r) +:+ rest) with (String (digitChar d) (digits r +:+ rest)).
  cbn [readDigits]. rewrite digitOf_digitChar by done. apply IH.
Qed.

Lemma readNumber_pretty (n : nat) (rest : string) :
  noDigit rest → readNumber (pretty n +:+ rest) = Some (n, rest).
Proof.
  intros Hrest. destruct (pretty_digits n) as (ds & Hne & Hds & -> & Hv).
  destruct ds as [|d r]; first done. inversion Hds; subst.
  change (digits (d :: r) +:+ rest) with (String (digitChar d) (digits r +:+ rest)).
  cbn [readNumber]. rewrite digitOf_digitChar, readDigits_digits by done.
  unfold valueOf in *. cbn [foldl] in *. rewrite Nat.mul_0_r, Nat.add_0_l.
  destruct rest as [|c rest']; first done. cbn [readDigits]. cbn in Hrest. by rewrite Hrest.
Qed.

Lemma readLength_pretty (n : nat) (rest : string) :
  noDigit rest → readLength ("," +:+ pretty n +:+ rest) = (Some n, rest).
Proof.
  intros Hrest. unfold readLength.
  change (dropPrefix "," ("," +:+ pretty n +:+ rest)) with (Some (pretty n +:+ rest)).
  cbn beta iota. by rewrite readNumber_pretty.
Qed.

Lemma noNewline_append (a b : string) :
  noNewline (a +:+ b) = noNewline a && noNewline b.
Proof.
  induction a as [|c a IH]; first done.
  change (String c a +:+ b) with (String c (a +:+ b)). cbn [noNewline].
  by rewrite IH, andb_assoc.
Qed.

Lemma noNewline_pretty (n : nat) : noNewline (pretty n) = true.
Proof.
  destruct (pretty_digits n) as (ds & _ & Hds & -> & _).
  induction Hds as [|d r Hd _ IH]; first done.
  cbn [digits foldr noNewline]. fold (digits r). rewrite IH, andb_true_r.
  clear -Hd. do 10 (destruct d as [|d]; first reflexivity). lia.
Qed.

End Numbers.

Section Lines.

Lemma splitLines_line (l rest : string) :
  noNewline l = true → splitLines (l +:+ NL +:+ rest) = l :: splitLines rest.
Proof.
  induction l as [|c l IH]; intros Hl.
  - change ("" +:+ NL +:+ rest) with (String nl rest). cbn [splitLines].
    by rewrite Ascii.eqb_refl.
  - cbn [noNewline] in Hl. apply andb_true_iff in Hl as [Hc Hl].
    change (String c l +:+ NL +:+ rest) with (String c (l +:+ NL +:+ rest)).
    cbn [splitLines]. rewrite (negb_true_iff _), IH in * by done. by rewrite Hc.
Qed.

Lemma splitLines_joinLines (ls : list string) :
  ls ≠ [] → Forall (λ l, noNewline l = true) ls →
  splitLines (joinLines ls +:+ NL) = ls ++ [""].
Proof.
  intros Hne Hls. induction Hls as [|l r Hl Hr IH]; first done.
  destruct r as [|l' r'].
  - change (joinLines [l]) with l.
    rewrite <- (append_empty NL), splitLines_line by done. done.
  - rewrite joinLines_cons, !append_assoc, splitLines_line, IH by done. done.
Qed.

End Lines.

Section Headers.

Lemma eqb_nat_of_ascii (c : ascii) (k : nat) :
  k < 256 → Ascii.eqb c (ascii_of_nat k) = (nat_of_ascii c =? k).
Proof.
  intros Hk. destruct (Ascii.eqb_spec c (ascii_of_nat k)) as [->|Hne].
  - by rewrite nat_ascii_embedding, Nat.eqb_refl.
  - symmetry. apply Nat.eqb_neq. intros E. apply Hne.
    by rewrite <- E, ascii_nat_embedding.
Qed.

Lemma restOfLine_tab (seen : nat) (h : string) :
  restOfLine seen (tab +:+ h) = restOfLine 0 h.
Proof.
  change (tab +:+ h) with (String "009" h). cbn [restOfLine].
  change (nat_of_ascii "009") with 9. cbn [Nat.eqb orb].
  rewrite !andb_false_r. done.
Qed.

(** A line without line terminator, followed by a tab and a plain header,
    is the rest of the line of a file header. *)
Lemma plainLine_restOfLine (s h : string) (seen : nat) :
  Rendering.plainLine seen s = true → restOfLine 0 h = true →
  restOfLine seen (s +:+ tab +:+ h) = true.
Proof.
  intros Hs Hh. revert seen Hs. induction s as [|c r IH]; intros seen Hs.
  - change ("" +:+ tab +:+ h) with (tab +:+ h). by rewrite restOfLine_tab.
  - cbn [Rendering.plainLine] in Hs. apply andb_true_iff in Hs as [Hc Hr].
    apply negb_true_iff in Hc. unfold Rendering.endsTerminator in Hc.
    apply orb_false_iff in Hc as [[Hnl Hcr]%orb_false_iff Hsep].
    change (String c r +:+ tab +:+ h) with (String c (r +:+ tab +:+ h)).
    cbn [restOfLine].
    change nl with (ascii_of_nat 10) in Hnl.
    change Rendering.cr with (ascii_of_nat 13) in Hcr.
    change "168"%char with (ascii_of_nat 168) in Hsep.
    change "169"%char with (ascii_of_nat 169) in Hsep.
    rewrite !eqb_nat_of_ascii in * by lia.
    rewrite Hnl, Hcr, Hsep.
    specialize (IH _ Hr). unfold Rendering.separatorBytes in IH.
    change "226"%char with (ascii_of_nat 226) in IH.
    change "128"%char with (ascii_of_nat 128) in IH.
    rewrite !eqb_nat_of_ascii in IH by lia. done.
Qed.

Lemma plainLine_noNewline (s : string) (seen : nat) :
  Rendering.plainLine seen s = true → noNewline s = true.
Proof.
  revert seen. induction s as [|c r IH]; intros seen Hs; first done.
  cbn [Rendering.plainLine] in Hs. apply andb_true_iff in Hs as [Hc Hr].
  apply negb_true_iff in Hc. unfold Rendering.endsTerminator in Hc.
  apply orb_false_iff in Hc as [[Hnl Hcr]%orb_false_iff Hsep].
  cbn [noNewline]. rewrite Hnl. cbn [negb andb]. by eapply IH.
Qed.

Ltac name_codes :=
  repeat match goal with
         | |- context [nat_of_ascii ?c] => generalize (nat_of_ascii c); intro
         end.

Ltac split_tests :=
  repeat (cbn [Nat.eqb andb orb negb];
          match goal with
          | |- context [Nat.leb ?a ?b] => destruct (Nat.leb_spec a b)
          | |- context [Nat.eqb ?a ?b] =>
              is_var a; destruct (Nat.eqb_spec a b) as [->|?]
          end).

Ltac space_found E :=
  revert E; cbn [restOfLine]; cbn zeta; name_codes; split_tests;
  cbn [Nat.eqb andb orb negb]; try done;
  try (intros _ Hr [= <-]; first [exact Hr | by repeat case_match]);
  try (exfalso; lia).

(** White space at the start of the rest of a line is not a line
    terminator, or it is the carriage return that ends the line. *)
Lemma afterSpace_restOfLine (s s' : string) :
  restOfLine 0 s = true → afterSpace s = Some s' → restOfLine 0 s' = true.
Proof.
  destruct s as [|c r]; first done.
  cbn [afterSpace]; cbn zeta.
  match goal with |- context [if ?b then Some _ else _] => destruct b eqn:E1 end.
  { space_found E1. }
  destruct r as [|c2 r2]; first done.
  match goal with |- context [if ?b then Some _ else _] => destruct b eqn:E2 end.
  { space_found E2. }
  destruct r2 as [|c3 r3]; first done.
  match goal with |- context [if ?b then Some _ else _] => destruct b eqn:E3 end; last done.
  clear E1 E2. space_found E3.
Qed.

Lemma skipSpaces_restOfLine (more : nat) (s : string) :
  restOfLine 0 s = true → restOfLine 0 (skipSpaces more s) = true.
Proof.
  revert s. induction more as [|more IH]; intros s Hs; first done.
  cbn [skipSpaces]. destruct (afterSpace s) as [r|] eqn:E; last done.
  apply IH. by eapply afterSpace_restOfLine.
Qed.

End Headers.

Section Parse.

Lemma elem_of_concat {A : Type} (x : A) (ls : list (list A)) :
  x ∈ concat ls → ∃ l, x ∈ l ∧ l ∈ ls.
Proof.
  induction ls as [|l r IH]; cbn [concat]; first by intros ?%elem_of_nil.
  intros [H|H]%elem_of_app.
  - exists l. split; [done | left].
  - destruct (IH H) as (l' & ? & ?). exists l'. split; [done | by right].
Qed.

Lemma isFileHeader_old (rel h : string) :
  Rendering.plainLine 0 rel = true → restOfLine 0 h = true →
  isFileHeader ("--- " +:+ rel +:+ tab +:+ h) = true.
Proof.
  intros Hrel Hh. unfold isFileHeader.
  change (dropPrefix "---" ("--- " +:+ rel +:+ tab +:+ h))
    with (Some (String " " (rel +:+ tab +:+ h))).
  cbn beta iota.
  change (afterSpace (String " " (rel +:+ tab +:+ h))) with (Some (rel +:+ tab +:+ h)).
  cbn beta iota. by apply skipSpaces_restOfLine, plainLine_restOfLine.
Qed.

Lemma isFileHeader_new (rel h : string) :
  Rendering.plainLine 0 rel = true → restOfLine 0 h = true →
  isFileHeader ("+++ " +:+ rel +:+ tab +:+ h) = true.
Proof.
  intros Hrel Hh. unfold isFileHeader.
  change (dropPrefix "---" ("+++ " +:+ rel +:+ tab +:+ h)) with (@None string).
  change (dropPrefix "+++" ("+++ " +:+ rel +:+ tab +:+ h))
    with (Some (String " " (rel +:+ tab +:+ h))).
  cbn beta iota.
  change (afterSpace (String " " (rel +:+ tab +:+ h))) with (Some (rel +:+ tab +:+ h)).
  cbn beta iota. by apply skipSpaces_restOfLine, plainLine_restOfLine.
Qed.

Lemma readHunkHeader_header (h : Hunk) :
  readHunkHeader (hunkHeader h)
  = Some (rangeStart (oldStart h) (oldLines h), Some (oldLines h),
          rangeStart (newStart h) (newLines h), Some (newLines h)).
Proof.
  unfold readHunkHeader, hunkHeader.
  set (a := rangeStart (oldStart h) (oldLines h)).
  set (c := rangeStart (newStart h) (newLines h)).
  change (dropPrefix "@@ -" ("@@ -" +:+ pretty a +:+ "," +:+ pretty (oldLines h)
            +:+ " +" +:+ pretty c +:+ "," +:+ pretty (newLines h) +:+ " @@"))
    with (Some (pretty a +:+ "," +:+ pretty (oldLines h)
            +:+ " +" +:+ pretty c +:+ "," +:+ pretty (newLines h) +:+ " @@")).
  cbn [mbind option_bind].
  rewrite readNumber_pretty by done. cbn [mbind option_bind].
  rewrite readLength_pretty by done.
  change (dropPrefix " +" (" +" +:+ pretty c +:+ "," +:+ pretty (newLines h) +:+ " @@"))
    with (Some (pretty c +:+ "," +:+ pretty (newLines h) +:+ " @@")).
  cbn [mbind option_bind].
  rewrite readNumber_pretty by done. cbn [mbind option_bind].
  rewrite readLength_pretty by done.
  done.
Qed.

Lemma readHunkLines_lines (ls : list Edit) (rest : list string)
    (oldLines newLines removeCount addCount : nat) :
  removeCount + length (oldOf ls) = oldLines →
  addCount + length (newOf ls) = newLines →
  noMarker rest →
  readHunkLines oldLines newLines removeCount addCount (map textLine ls ++ rest)
  = Some (map textLine ls, oldLines, newLines, rest).
Proof.
  intros Ho Hn Hrest. revert removeCount addCount Ho Hn.
  induction ls as [|[op l] r IH]; intros removeCount addCount Ho Hn.
  - cbn in Ho, Hn. rewrite Nat.add_0_r in Ho, Hn. subst.
    cbn [map app]. destruct rest as [|line rest']; first done.
    cbn [readHunkLines]. cbn in Hrest. rewrite !Nat.ltb_irrefl, Hrest. done.
  - cbn [map app readHunkLines].
    destruct op; cbn [oldOf newOf length] in Ho, Hn.
    + replace (removeCount <? oldLines) with true by (symmetry; apply Nat.ltb_lt; lia).
      cbn [orb]. change (textLine (Context, l)) with (String " " (stripEofNewline l)).
      cbn iota.
      change (Ascii.eqb " " "+") with false. change (Ascii.eqb " " "-") with false.
      change (Ascii.eqb " " " ") with true. cbn iota.
      rewrite IH by lia. done.
    + replace (removeCount <? oldLines) with true by (symmetry; apply Nat.ltb_lt; lia).
      cbn [orb]. change (textLine (Removed, l)) with (String "-" (stripEofNewline l)).
      cbn iota.
      change (Ascii.eqb "-" "+") with false. change (Ascii.eqb "-" "-") with true.
      cbn iota.
      rewrite IH by lia. done.
    + replace (addCount <? newLines) with true by (symmetry; apply Nat.ltb_lt; lia).
      rewrite orb_true_r.
      cbn [orb]. change (textLine (Added, l)) with (String "+" (stripEofNewline l)).
      cbn iota.
      change (Ascii.eqb "+" "+") with true. cbn iota.
      rewrite IH by lia. done.
Qed.

Lemma parseHunk_hunk (oldStart newStart : nat) (ls : list Edit) (rest : list string) :
  1 ≤ oldStart → 1 ≤ newStart → noMarker rest →
  parseHunk (hunkHeader (hunkOf oldStart newStart ls)) (map textLine ls ++ rest)
  = Some (hunkOf oldStart newStart ls, rest).
Proof.
  intros Ho Hn Hrest. unfold parseHunk. rewrite readHunkHeader_header.
  cbn [mbind option_bind hunkOf DiffEngine.oldStart DiffEngine.oldLines
         DiffEngine.newStart DiffEngine.newLines default].
  rewrite (readHunkLines_lines ls rest _ _ 0 0) by done.
  cbn [mbind option_bind]. unfold rangeStart, id.
  set (o := length (oldOf ls)). set (n := length (newOf ls)).
  replace ((n =? 0) && (n =? 1)) with false by (by destruct n as [|[|]]).
  replace ((o =? 0) && (o =? 1)) with false by (by destruct o as [|[|]]).
  rewrite !Nat.eqb_refl. cbn [andb]. f_equal. f_equal. unfold hunkOf.
  fold o n. destruct (o =? 0), (n =? 0); f_equal; lia.
Qed.

Lemma toHunks_hunkOf (segs : list Segment) (pos npos : nat) :
  Forall (λ seg : Segment, Forall (λ e : Edit, endsWithNewline e.2 = true) seg.2) segs →
  toHunks pos npos segs
  = match segs with
    | [] => []
    | (skip, ls) :: r =>
        hunkOf (pos + skip + 1) (npos + skip + 1) ls
        :: toHunks (pos + skip + length (oldOf ls)) (npos + skip + length (newOf ls)) r
    end.
Proof.
  intros Hsegs. destruct Hsegs as [|[skip ls] r Hls _]; first done.
  cbn [toHunks]. unfold hunkOf. by rewrite hunkLines_terminated.
Qed.

Lemma formatHunk_header (h : Hunk) : formatHunk h = hunkHeader h :: lines h.
Proof. done. Qed.

Lemma hunkHeader_tests (h : Hunk) :
  endsHunks (hunkHeader h) = false
  ∧ startsWith "@@" (hunkHeader h) = true
  ∧ startsWith "\" (hunkHeader h) = false.
Proof. done. Qed.

Lemma parseHunks_toHunks (segs : list Segment) (pos npos more : nat) :
  Forall (λ seg : Segment, Forall (λ e : Edit, endsWithNewline e.2 = true) seg.2) segs →
  length segs + 2 ≤ more →
  parseHunks more (concat (map formatHunk (toHunks pos npos segs)) ++ [""])
  = Some (toHunks pos npos segs, []).
Proof.
  intros Hsegs. revert pos npos more.
  induction Hsegs as [|[skip ls] r Hls Hr IH]; intros pos npos more Hmore.
  - destruct more as [|[|more]]; [cbn in Hmore; lia | cbn in Hmore; lia |]. done.
  - rewrite (toHunks_hunkOf ((skip, ls) :: r)) by by constructor.
    destruct more as [|more]; first (cbn in Hmore; lia).
    cbn [map concat]. rewrite formatHunk_header. cbn [app parseHunks lines hunkOf].
    destruct (hunkHeader_tests (hunkOf (pos + skip + 1) (npos + skip + 1) ls))
      as (-> & -> & _).
    rewrite <- app_assoc, parseHunk_hunk; [|lia|lia|].
    + cbn [mbind option_bind]. rewrite IH by (cbn in Hmore; lia). done.
    + rewrite (toHunks_hunkOf r) by done.
      destruct r as [|[skip' ls'] r']; first done.
      cbn [map concat app]. rewrite formatHunk_header. cbn [app noMarker].
      apply hunkHeader_tests.
Qed.

Lemma formatHunk_length (hs : list Hunk) :
  length hs ≤ length (concat (map formatHunk hs)).
Proof.
  induction hs as [|h r IH]; first done.
  cbn [map concat]. rewrite formatHunk_header. cbn [app length].
  rewrite length_app. lia.
Qed.

Lemma toHunks_length (segs : list Segment) (pos npos : nat) :
  length (toHunks pos npos segs) = length segs.
Proof.
  revert pos npos. induction segs as [|[skip ls] r IH]; intros pos npos; first done.
  cbn [toHunks length]. by rewrite IH.
Qed.

(** The text of a patch is read back as the hunks it was made of. *)
Lemma parsePatch_formatPatch (rel oldHeader newHeader : string) (segs : list Segment) :
  Rendering.plainLine 0 rel = true →
  restOfLine 0 oldHeader = true → noNewline oldHeader = true →
  restOfLine 0 newHeader = true → noNewline newHeader = true →
  Forall (λ seg : Segment,
            Forall (λ e : Edit, endsWithNewline e.2 = true
                                ∧ noNewline (stripEofNewline e.2) = true) seg.2) segs →
  parsePatch (formatPatch {| oldFileName := rel; newFileName := rel;
                             oldHeader := oldHeader; newHeader := newHeader;
                             hunks := toHunks 0 0 segs |})
  = Some [toHunks 0 0 segs].
Proof.
  intros Hrel Hold Hold' Hnew Hnew' Hsegs.
  assert (Forall (λ seg : Segment, Forall (λ e : Edit, endsWithNewline e.2 = true) seg.2) segs)
    as Hterm.
  { eapply Forall_impl; [exact Hsegs|]. intros seg Hseg.
    eapply Forall_impl; [exact Hseg|]. by intros e [? _]. }
  unfold parsePatch, formatPatch.
  cbn [oldFileName newFileName DiffEngine.oldHeader DiffEngine.newHeader hunks].
  rewrite splitLines_joinLines; first last.
  { pose proof (plainLine_noNewline _ _ Hrel) as Hrel'.
    repeat (apply Forall_cons; split);
      rewrite ?noNewline_append, ?Hrel', ?Hold', ?Hnew'; try done.
    apply Forall_forall. intros line (hl & Hline & (h & -> & Hh)%list_elem_of_fmap)%elem_of_concat.
    apply toHunks_lines in Hh as (seg & Hseg & Elines).
    rewrite formatHunk_header in Hline. apply elem_of_cons in Hline as [->|Hline].
    - unfold hunkHeader. by rewrite !noNewline_append, !noNewline_pretty.
    - rewrite Elines in Hline.
      rewrite Forall_forall in Hsegs. specialize (Hsegs _ Hseg).
      rewrite hunkLines_terminated in Hline
        by (eapply Forall_impl; [exact Hsegs|]; by intros e [? _]).
      apply list_elem_of_fmap in Hline as (e & -> & He).
      rewrite Forall_forall in Hsegs. destruct (Hsegs _ He) as [_ Hplain].
      unfold textLine. rewrite noNewline_append, Hplain. by destruct e as [[] l]. }
  { done. }
  set (body := concat (map formatHunk (toHunks 0 0 segs))).
  cbn [app length parseIndexes].
  unfold parseIndex. cbn [skipMetadata].
  change (startsHeaders ("Index: " +:+ rel)) with false. cbn iota.
  change (startsHeaders separator) with false. cbn iota.
  change (startsHeaders ("--- " +:+ rel +:+ tab +:+ oldHeader)) with true. cbn iota.
  cbn [parseFileHeader].
  rewrite isFileHeader_old by done. cbn iota. cbn [parseFileHeader].
  rewrite isFileHeader_new by done. cbn iota.
  unfold body. rewrite parseHunks_toHunks; first done; first done.
  rewrite length_app. pose proof (formatHunk_length (toHunks 0 0 segs)) as Hlen.
  rewrite toHunks_length in Hlen. cbn [length]. lia.
Qed.

End Parse.

(** *** The round trip *)

Section RoundTrip.

Lemma wholeLines_terminated (s : string) :
  wholeLines s = true → Forall (λ t, endsWithNewline t = true) (tokenize s).
Proof. destruct s; [by constructor | apply tokenize_terminated]. Qed.

Lemma wholeLines_splitLines (s : string) :
  wholeLines s = true → splitLines s = map stripEofNewline (tokenize s) ++ [""].
Proof. destruct s; [done | apply splitLines_tokenize]. Qed.

Lemma wholeLines_tokens (s : string) :
  wholeLines s = true → joinLines (map stripEofNewline (tokenize s) ++ [""]) = s.
Proof. intros H. by rewrite <- wholeLines_splitLines, join_split. Qed.

(** Between lines that end with a newline, an edit script that fits the old
    tokens has them as its old side. *)
Lemma fits_terminated (es : list Edit) (old : list string) :
  Forall2 fits (oldEdits es) old →
  Forall (λ t, endsWithNewline t = true) old →
  Forall (λ t, endsWithNewline t = true) (newOf es) →
  oldOf es = old.
Proof.
  revert old. induction es as [|[op l] r IH]; intros old Hfits Hold Hnew.
  - by inversion Hfits.
  - destruct op; cbn [oldEdits oldOf newOf] in *.
    + inversion Hfits as [|? x ? old' Hx Hr]; subst.
      inversion Hold; subst. inversion Hnew; subst.
      unfold fits in Hx. cbn in Hx. apply sameLine_terminated in Hx as ->; [|done..].
      f_equal. by apply IH.
    + inversion Hfits as [|? x ? old' Hx Hr]; subst.
      inversion Hold; subst.
      unfold fits in Hx. cbn in Hx. subst. f_equal. by apply IH.
    + inversion Hnew; subst. by apply IH.
Qed.

Lemma edit_sides (es : list Edit) (e : Edit) :
  e ∈ es → e.2 ∈ oldOf es ∨ e.2 ∈ newOf es.
Proof.
  induction es as [|[op l] r IH]; intros He; first by apply elem_of_nil in He.
  apply elem_of_cons in He as [->|He].
  - destruct op; cbn; [left | left | right]; left.
  - destruct (IH He) as [H|H]; [left | right]; destruct op; cbn; try done; by right.
Qed.

Lemma edit_old_side (es : list Edit) (e : Edit) :
  e ∈ es → e.1 ≠ Added → e.2 ∈ oldOf es.
Proof.
  induction es as [|[op l] r IH]; intros He Hne; first by apply elem_of_nil in He.
  apply elem_of_cons in He as [->|He].
  - destruct op; cbn in *; [left | left | done].
  - specialize (IH He Hne). destruct op; cbn; try done; by right.
Qed.

Variables prev : string.
Variable es : list Edit.
Hypothesis old_side : oldOf es = tokenize prev.
Hypothesis whole : wholeLines prev = true.
Hypothesis terminated :
  Forall (λ seg : Segment, Forall (λ e : Edit, endsWithNewline e.2 = true) seg.2)
    (group (mark context es)).

(** The patch has the line endings of the content it was made from. *)
Lemma convertLineEndings_same :
  convertLineEndings prev (toHunks 0 0 (group (mark context es)))
  = toHunks 0 0 (group (mark context es)).
Proof.
  destruct (group (mark context es)) as [|seg0 segs0] eqn:Esegs.
  { unfold convertLineEndings. by repeat case_match. }
  rewrite <- Esegs in *.
  assert (tokenize prev ≠ [] →
          ∃ h e ls, h ∈ toHunks 0 0 (group (mark context es))
                    ∧ lines h = map textLine ls ∧ e ∈ ls
                    ∧ e.1 ≠ Added ∧ e.2 ∈ tokenize prev) as Hshown.
  { intros Hne.
    destruct (group_shows_old es) as (seg & e & Hseg & He & Hop & Hes).
    - by rewrite old_side.
    - by rewrite Esegs.
    - destruct (toHunks_segment _ 0 0 _ Hseg) as (h & Hh & Elines).
      rewrite Forall_forall in terminated.
      rewrite hunkLines_terminated in Elines by by apply terminated.
      exists h, e, seg.2. repeat split; try done.
      rewrite <- old_side. by apply edit_old_side. }
  unfold convertLineEndings.
  destruct (hasOnlyWinLineEndings prev) eqn:Ewin.
  - (* the content has the line endings of Windows *)
    destruct Hshown as (h & e & ls & Hh & Elines & He & Hop & Hin).
    { intros E. apply tokenize_nil in E. by rewrite E in Ewin. }
    assert (isUnix (toHunks 0 0 (group (mark context es))) = false) as ->.
    { unfold isUnix. apply negb_false_iff, existsb_exists.
      exists h. split; first by apply list_elem_of_In.
      apply existsb_exists. exists (textLine e). split.
      - apply list_elem_of_In. rewrite Elines. by apply list_elem_of_fmap_2.
      - rewrite textLine_no_marker, textLine_endsWithCr. cbn [negb andb].
        pose proof (win_tokens prev Ewin) as Hwin.
        rewrite Forall_forall in Hwin. apply Hwin; first done.
        pose proof (wholeLines_terminated prev whole) as Hterm.
        rewrite Forall_forall in Hterm. by apply Hterm. }
    cbn [andb]. unfold hasOnlyUnixLineEndings.
    unfold hasOnlyWinLineEndings in Ewin.
    apply andb_true_iff in Ewin as [[-> _]%andb_true_iff _]. done.
  - cbn [andb]. destruct (hasOnlyUnixLineEndings prev) eqn:Eunix; last done.
    (* the content has the line endings of Unix *)
    unfold hasOnlyUnixLineEndings in Eunix.
    apply andb_true_iff in Eunix as [Ecrlf%negb_true_iff Enl].
    destruct Hshown as (h & e & ls & Hh & Elines & He & Hop & Hin).
    { intros E. apply tokenize_nil in E. by rewrite E in Enl. }
    assert (isWin (toHunks 0 0 (group (mark context es))) = false) as ->; last done.
    unfold isWin. apply andb_false_iff. right. apply not_true_is_false.
    intros Hall. rewrite forallb_forall in Hall.
    specialize (Hall h). rewrite Elines in Hall.
    rewrite (allKeepEnding_unix ls e) in Hall; [|done|].
    + apply list_elem_of_In in Hh. by specialize (Hall Hh).
    + pose proof (unix_tokens prev Ecrlf) as Hunix.
      rewrite Forall_forall in Hunix. apply Hunix; first done.
      pose proof (wholeLines_terminated prev whole) as Hterm.
      rewrite Forall_forall in Hterm. by apply Hterm.
Qed.

End RoundTrip.

(** The patch between two contents made of whole lines, applied to the
    first, gives the second. *)
Theorem applyPatch_createPatch (rel prev cur : string) :
  Rendering.plainLine 0 rel = true →
  wholeLines prev = true → wholeLines cur = true →
  applyPatch prev (createPatch rel prev cur "previous" "current") = Patched cur.
Proof.
  intros Hrel Hprev Hcur.
  pose proof (wholeLines_terminated prev Hprev) as Hto.
  pose proof (wholeLines_terminated cur Hcur) as Htn.
  destruct (diff_returns (tokenize prev) (tokenize cur)) as (es & Hdiff & Hfits & Hnew).
  assert (oldOf es = tokenize prev) as Hold
    by (apply fits_terminated; [done | done | by rewrite Hnew]).
  pose proof (group_apply (mark context es) (mark_wellMarked _ _)) as Happly.
  rewrite mark_fst, Hold, Hnew in Happly.
  assert (Forall (λ seg : Segment,
                    Forall (λ e : Edit, endsWithNewline e.2 = true
                                        ∧ noNewline (stripEofNewline e.2) = true) seg.2)
            (group (mark context es))) as Hsegs.
  { apply Forall_forall. intros seg Hseg. apply Forall_forall. intros e He.
    assert (e ∈ es) as Hes
      by (eapply group_lines in He; last done; by rewrite mark_fst in He).
    assert (e.2 ∈ tokenize prev ∨ e.2 ∈ tokenize cur) as Hin
      by (rewrite <- Hold, <- Hnew; by apply edit_sides).
    pose proof (tokenize_lines prev) as Hlp. pose proof (tokenize_lines cur) as Hlc.
    rewrite Forall_forall in Hto, Htn, Hlp, Hlc.
    destruct Hin as [Hin|Hin]; split;
      [by apply Hto | by apply Hlp | by apply Htn | by apply Hlc]. }
  assert (Forall (λ seg : Segment, Forall (λ e : Edit, endsWithNewline e.2 = true) seg.2)
            (group (mark context es))) as Hterm.
  { eapply Forall_impl; [exact Hsegs|]. intros seg Hseg.
    eapply Forall_impl; [exact Hseg|]. by intros e [? _]. }
  unfold createPatch, structuredPatch. rewrite Hdiff.
  cbn [fmap option_fmap option_map].
  unfold applyPatch. rewrite parsePatch_formatPatch by done.
  cbn zeta. rewrite (convertLineEndings_same prev es) by done.
  rewrite wholeLines_splitLines by done.
  destruct (last (toHunks 0 0 (group (mark context es)))) as [lastHunk|] eqn:Elast.
  - apply last_Some_elem_of, toHunks_lines in Elast as (seg & Hseg & Elines).
    rewrite Forall_forall in Hterm.
    rewrite Elines, hunkLines_terminated, eofNewlines_none by by apply Hterm.
    rewrite <- Forall_forall in Hterm.
    rewrite (applyHunks_segments (tokenize prev) _ 0 0 0 [] (tokenize cur)) by (done || lia).
    rewrite take_0, drop_nil, !app_nil_l. by rewrite wholeLines_tokens.
  - apply last_None in Elast.
    pose proof (toHunks_length (group (mark context es)) 0 0) as Hlen.
    rewrite Elast in Hlen. destruct (group (mark context es)); last done.
    injection Happly as Happly.
    by rewrite <- (wholeLines_tokens prev), Happly, wholeLines_tokens.
Qed.

(** ** Reconciliation of one file *)

Section Reconcile.

Variable w : World.

Lemma touched_other (abs p : AbsFilePath) (files files' : Files) :
  touched abs files files' → p ≠ abs → files' !! p = files !! p.
Proof.
  intros [] Hne.
  - done.
  - by rewrite lookup_delete_ne.
  - unfold setAgentView. by rewrite lookup_alter_ne.
Qed.

Lemma touched_absent (abs p : AbsFilePath) (files files' : Files) :
  touched abs files files' → files !! p = None → files' !! p = None.
Proof.
  intros [] Hp.
  - done.
  - by apply lookup_delete_None; right.
  - unfold setAgentView. destruct (decide (abs = p)) as [->|Hne].
    + by rewrite lookup_alter_eq, Hp.
    + by rewrite lookup_alter_ne.
Qed.

Lemma compareWithAgentView_touched abs rel fileInfo content files :
  touched abs files (compareWithAgentView abs rel fileInfo content files).2.
Proof.
  unfold compareWithAgentView.
  destruct (agentView fileInfo) as [[[|? ?]|]|]; simpl; try constructor.
  case_match; constructor.
Qed.

Lemma handleTextFileUpdate_touched abs rel fileInfo files :
  touched abs files (handleTextFileUpdate w abs rel fileInfo files).2.
Proof.
  unfold handleTextFileUpdate.
  repeat case_match; simpl; try constructor; apply compareWithAgentView_touched.
Qed.

Lemma handleBinaryFileUpdate_touched abs rel fileInfo files :
  touched abs files (handleBinaryFileUpdate w abs rel fileInfo files).2.
Proof.
  unfold handleBinaryFileUpdate.
  repeat case_match; simpl; constructor.
Qed.

Lemma reconcile_touched abs files :
  touched abs files (getFileMessageAndUpdateAgentViewOfFile w abs files).2.
Proof.
  unfold getFileMessageAndUpdateAgentViewOfFile.
  destruct (files !! abs); last constructor.
  destruct (negb _); first constructor.
  case_bool_decide.
  - apply handleTextFileUpdate_touched.
  - apply handleBinaryFileUpdate_touched.
Qed.

End Reconcile.

Section Pass.

Variable w : World.

(** What a reconciliation answers, and what it leaves under its path, depends
    on the registry through the entry of that path only. *)
Lemma reconcile_local (abs : AbsFilePath) (files1 files2 : Files) :
  files1 !! abs = files2 !! abs →
  (getFileMessageAndUpdateAgentViewOfFile w abs files1).1
  = (getFileMessageAndUpdateAgentViewOfFile w abs files2).1
  ∧ (getFileMessageAndUpdateAgentViewOfFile w abs files1).2 !! abs
    = (getFileMessageAndUpdateAgentViewOfFile w abs files2).2 !! abs.
Proof.
  intros E.
  assert (Hd : delete abs files1 !! abs = delete abs files2 !! abs)
    by (by rewrite !lookup_delete_eq).
  assert (Hv : ∀ v, setAgentView abs v files1 !! abs = setAgentView abs v files2 !! abs)
    by (intros v; unfold setAgentView; by rewrite !lookup_alter_eq, E).
  unfold getFileMessageAndUpdateAgentViewOfFile. rewrite <- E.
  destruct (files1 !! abs) as [fileInfo|] eqn:E1; last (simpl; split; congruence).
  destruct (negb _); first done.
  unfold handleTextFileUpdate, handleBinaryFileUpdate, compareWithAgentView.
  repeat case_match; simpl; auto; split; congruence.
Qed.

Lemma reconcileAll_frame (p : AbsFilePath) (paths : list AbsFilePath)
    (results : FileUpdates) (rejected : option JsError) (files : Files) :
  p ∉ paths →
  (reconcileAll w paths results rejected files).1.1 !! p = results !! p
  ∧ (reconcileAll w paths results rejected files).2 !! p = files !! p.
Proof.
  revert results rejected files.
  induction paths as [|q rest IH]; intros results rejected files Hp; first done.
  apply not_elem_of_cons in Hp as [Hne Hrest].
  cbn [reconcileAll].
  pose proof (touched_other q p files _ (reconcile_touched w q files) Hne) as Hf.
  destruct (getFileMessageAndUpdateAgentViewOfFile w q files) as [[[e|]|err] files1];
    simpl in Hf;
    match goal with
    | |- context [reconcileAll w rest ?r ?j ?f] => destruct (IH r j f Hrest) as [-> ->]
    end;
    by rewrite ?lookup_insert_ne.
Qed.

(** With each path listed once, the entry recorded for a path, and what is
    left under it, are those of its own reconciliation. *)
Lemma reconcileAll_at (p : AbsFilePath) (paths : list AbsFilePath)
    (results : FileUpdates) (rejected : option JsError) (files : Files) :
  NoDup paths → p ∈ paths →
  (reconcileAll w paths results rejected files).1.1 !! p
  = match (getFileMessageAndUpdateAgentViewOfFile w p files).1 with
    | Return (Some e) => Some e
    | _ => results !! p
    end
  ∧ (reconcileAll w paths results rejected files).2 !! p
    = (getFileMessageAndUpdateAgentViewOfFile w p files).2 !! p.
Proof.
  revert results rejected files.
  induction paths as [|q rest IH]; intros results rejected files Hnd Hp.
  - by apply elem_of_nil in Hp.
  - apply NoDup_cons in Hnd as [Hq Hnd]. cbn [reconcileAll].
    destruct (decide (p = q)) as [->|Hne].
    + destruct (getFileMessageAndUpdateAgentViewOfFile w q files) as [[[e|]|err] files1];
        simpl;
        match goal with
        | |- context [reconcileAll w rest ?r ?j ?f] =>
            destruct (reconcileAll_frame q rest r j f Hq) as [-> ->]
        end;
        by rewrite ?lookup_insert_eq.
    + apply elem_of_cons in Hp as [?|Hp]; first done.
      pose proof (touched_other q p files _ (reconcile_touched w q files) Hne) as Hf.
      destruct (getFileMessageAndUpdateAgentViewOfFile w q files) as [[[e|]|err] files1];
        simpl in Hf; destruct (reconcile_local p files1 files Hf) as [E1 E2];
        match goal with
        | |- context [reconcileAll w rest ?r ?j ?f] =>
            destruct (IH r j f Hnd Hp) as [-> ->]
        end;
        rewrite E1, E2, ?lookup_insert_ne; done.
Qed.

End Pass.

Section PassResults.

Variable w : World.

Lemma keys_elem (files : Files) (p : AbsFilePath) : p ∈ keys files ↔ is_Some (files !! p).
Proof.
  unfold keys. rewrite list_elem_of_fmap. split.
  - intros [[q fileInfo] [-> H]]. apply elem_of_map_to_list in H. by eexists.
  - intros [fileInfo H]. exists (p, fileInfo). split; first done.
    by apply elem_of_map_to_list.
Qed.

Lemma keys_NoDup (files : Files) : NoDup (keys files).
Proof. apply NoDup_fst_map_to_list. Qed.

Lemma reconcileAll_rejected (paths : list AbsFilePath) (results : FileUpdates)
    (rejected : option JsError) (files : Files) :
  NoDup paths →
  (reconcileAll w paths results rejected files).1.2 = None
  ↔ rejected = None
    ∧ ∀ p, p ∈ paths → ∀ err,
        (getFileMessageAndUpdateAgentViewOfFile w p files).1 ≠ Throw err.
Proof.
  revert results rejected files.
  induction paths as [|q rest IH]; intros results rejected files Hnd.
  - simpl. split; [intros ->; split; [done|] | by intros [-> _]].
    intros p Hp. by apply elem_of_nil in Hp.
  - apply NoDup_cons in Hnd as [Hq Hnd]. cbn [reconcileAll].
    assert (Hloc : ∀ p, p ∈ rest →
              (getFileMessageAndUpdateAgentViewOfFile w p
                 (getFileMessageAndUpdateAgentViewOfFile w q files).2).1
              = (getFileMessageAndUpdateAgentViewOfFile w p files).1).
    { intros p Hp. apply reconcile_local.
      apply (touched_other q p files _ (reconcile_touched w q files)).
      intros ->. done. }
    destruct (getFileMessageAndUpdateAgentViewOfFile w q files)
      as [[[e|]|err] files1] eqn:Eq; simpl in Hloc; rewrite IH by done.
    + split; intros [-> H]; split; try done.
      * intros p [->|Hp]%elem_of_cons;
          [rewrite Eq; intros err; simpl; congruence | rewrite <- Hloc by done; auto].
      * intros p Hp. rewrite Hloc by done. apply H. by right.
    + split; intros [-> H]; split; try done.
      * intros p [->|Hp]%elem_of_cons;
          [rewrite Eq; intros err; simpl; congruence | rewrite <- Hloc by done; auto].
      * intros p Hp. rewrite Hloc by done. apply H. by right.
    + split.
      * intros [H _]. by destruct rejected.
      * intros [_ H]. exfalso. apply (H q (list_elem_of_here _ _) err).
        by rewrite Eq.
Qed.

(** What a pass that returns has in its map and leaves in the registry. *)
Lemma getContextUpdate_at (files files' : Files) (results : FileUpdates)
    (p : AbsFilePath) :
  getContextUpdate w files = (Return results, files') →
  results !! p
  = match (getFileMessageAndUpdateAgentViewOfFile w p files).1 with
    | Return (Some e) => Some e
    | _ => None
    end
  ∧ files' !! p = (getFileMessageAndUpdateAgentViewOfFile w p files).2 !! p.
Proof.
  unfold getContextUpdate, isContextEmpty. case_bool_decide as Hk.
  - intros [= <- <-].
    assert (files !! p = None) as Hp.
    { apply eq_None_not_Some. rewrite <- keys_elem.
      apply nil_length_inv in Hk. rewrite Hk. apply not_elem_of_nil. }
    unfold getFileMessageAndUpdateAgentViewOfFile. rewrite Hp. done.
  - destruct (decide (p ∈ keys files)) as [Hin|Hout].
    + destruct (reconcileAll_at w p (keys files) ∅ None files (keys_NoDup _) Hin)
        as [E1 E2].
      destruct (reconcileAll w (keys files) ∅ None files) as [[r [err|]] f]; first done.
      intros [= <- <-]. simpl in E1, E2. rewrite E1, E2, lookup_empty. done.
    + destruct (reconcileAll_frame w p (keys files) ∅ None files Hout) as [E1 E2].
      destruct (reconcileAll w (keys files) ∅ None files) as [[r [err|]] f]; first done.
      intros [= <- <-]. simpl in E1, E2. rewrite E1, E2, lookup_empty.
      assert (files !! p = None) as Hp.
      { apply eq_None_not_Some. by rewrite <- keys_elem. }
      unfold getFileMessageAndUpdateAgentViewOfFile. rewrite Hp. done.
Qed.

(** A pass returns unless the reconciliation of one of its files throws. *)
Lemma getContextUpdate_throws (files : Files) :
  (∃ err files', getContextUpdate w files = (Throw err, files'))
  ↔ ∃ p err, is_Some (files !! p)
      ∧ (getFileMessageAndUpdateAgentViewOfFile w p files).1 = Throw err.
Proof.
  unfold getContextUpdate, isContextEmpty. case_bool_decide as Hk.
  - split; first by intros (? & ? & [=]).
    intros (p & err & Hp & _). apply keys_elem in Hp.
    apply nil_length_inv in Hk. rewrite Hk in Hp. by apply elem_of_nil in Hp.
  - pose proof (reconcileAll_rejected (keys files) ∅ None files (keys_NoDup _)) as H.
    destruct (reconcileAll w (keys files) ∅ None files) as [[r [err|]] f]; simpl in H.
    + split; last by eauto.
      intros _.
      set (thrown := λ p,
             match (getFileMessageAndUpdateAgentViewOfFile w p files).1 with
             | Throw _ => true
             | Return _ => false
             end).
      destruct (decide (Exists (λ p, thrown p = true) (keys files))) as [Hex|Hno].
      * apply Exists_exists in Hex as (p & Hp & He). unfold thrown in He.
        destruct (getFileMessageAndUpdateAgentViewOfFile w p files).1 as [|err'] eqn:E;
          first done.
        exists p, err'. split; [by apply keys_elem | done].
      * exfalso. assert (Some err = None) as [=]. apply H. split; first done.
        intros p Hp err' He. apply Hno, Exists_exists. exists p. split; first done.
        unfold thrown. by rewrite He.
    + split; first by intros (? & ? & [=]).
      intros (p & err & Hp & He). exfalso.
      destruct H as [H _]. destruct (H eq_refl) as [_ H'].
      apply (H' p (proj2 (keys_elem files p) Hp) err He).
Qed.

End PassResults.

(** ** Conflicts *)

(** C1. A tracked text file that is open in a buffer, whose change counter
    differs from the one last observed while the modification time on disk is
    newer than the one of the last synchronisation: the reconciliation
    answers with the conflict error and leaves the registry as it was, so the
    agent's view is not touched and the file stays tracked; a pass that
    returns carries this error under the path. *)
Theorem conflict_is_reported (w : World) (files : Files) (abs : AbsFilePath)
    (fileInfo : FileInfo) (b : BufSyncInfo) (diskMtime tick : Z) :
  files !! abs = Some fileInfo →
  category (fileTypeInfo fileInfo) = TEXT →
  existsSync w abs = true →
  getSyncInfo w abs = Some b →
  statSync w abs = Return diskMtime →
  getChangeTick w (bufnr b) = Return tick →
  changeTick b ≠ tick →
  (mtime b < diskMtime)%Z →
  getFileMessageAndUpdateAgentViewOfFile w abs files
  = (Return (Some {| entryAbsFilePath := abs;
                     entryRelFilePath := relativePath w abs;
                     update_ := StatusError (conflictError b abs) |}), files)
  ∧ ∀ results files',
      getContextUpdate w files = (Return results, files') →
      results !! abs = Some {| entryAbsFilePath := abs;
                               entryRelFilePath := relativePath w abs;
                               update_ := StatusError (conflictError b abs) |}
      ∧ files' !! abs = Some fileInfo.
Proof.
  intros Hf Hcat Hex Hbuf Hstat Htick Hne Hlt.
  assert (getFileMessageAndUpdateAgentViewOfFile w abs files
          = (Return (Some {| entryAbsFilePath := abs;
                             entryRelFilePath := relativePath w abs;
                             update_ := StatusError (conflictError b abs) |}),
             files)) as E.
  { unfold getFileMessageAndUpdateAgentViewOfFile. rewrite Hf, Hex. simpl.
    rewrite bool_decide_true by done.
    unfold handleTextFileUpdate. rewrite Hbuf.
    unfold readThroughBuffer. rewrite Hstat, Htick. simpl.
    apply Z.eqb_neq in Hne. apply Z.ltb_lt in Hlt. rewrite Hne, Hlt. done. }
  split; first done.
  intros results files' Hpass.
  destruct (getContextUpdate_at w files files' results abs Hpass) as [-> ->].
  rewrite E. done.
Qed.

Lemma conflict_is_reported_witness :
  getFileMessageAndUpdateAgentViewOfFile
    (Samples.world true (Return 20%Z) (λ _, Return "on disk")
       (Some {| bufnr := 3; mtime := 10; changeTick := 7 |}) (Return 8%Z)
       ["in buffer"] (Return (StatusOk "")))
    "/a.txt"
    {[ "/a.txt" := Samples.tracked "a.txt" Samples.textInfo (Some (AgentText "old")) ]}
  = (Return (Some {| entryAbsFilePath := "/a.txt";
                     entryRelFilePath := "a.txt";
                     update_ := StatusError "Both the buffer 3 and the file on disk for /a.txt have changed. Cannot determine which version to use." |}),
     {[ "/a.txt" := Samples.tracked "a.txt" Samples.textInfo (Some (AgentText "old")) ]}).
Proof.
  refine (proj1 (conflict_is_reported _ _ "/a.txt"
           (Samples.tracked "a.txt" Samples.textInfo (Some (AgentText "old")))
           {| bufnr := 3; mtime := 10; changeTick := 7 |} 20 8 _ _ _ _ _ _ _ _));
    [reflexivity | reflexivity | reflexivity | reflexivity | reflexivity | reflexivity
    | simpl; lia | simpl; lia].
Defined.

(** ** Registration *)

(** C9. Adding a file whose category is unsupported throws, at once, and
    leaves the registry as it was; a path that was not tracked is therefore
    not tracked afterwards, and no later pass has an entry for it. *)
Theorem unsupported_is_rejected (w : World) (rel : RelFilePath) (abs : AbsFilePath)
    (info : FileTypeInfo) (files : Files) :
  category info = UNSUPPORTED →
  (∃ err, update w (AddFileContext rel abs info) files = (Throw err, files))
  ∧ (files !! abs = None →
     ∀ w' results files',
       getContextUpdate w' (update w (AddFileContext rel abs info) files).2
       = (Return results, files') →
       results !! abs = None ∧ files' !! abs = None).
Proof.
  intros Hcat. unfold update. rewrite bool_decide_true by done. split.
  - by eexists.
  - intros Hnone w' results files' Hpass. simpl in Hpass.
    destruct (getContextUpdate_at w' files files' results abs Hpass) as [-> ->].
    unfold getFileMessageAndUpdateAgentViewOfFile. by rewrite Hnone.
Qed.

Lemma unsupported_is_rejected_witness :
  ∃ err,
    update (Samples.onDisk 5 "MZ") (AddFileContext "tool.exe" "/tool.exe"
              {| category := UNSUPPORTED; mimeType := "application/x-msdownload" |})
      {[ "/a.txt" := Samples.tracked "a.txt" Samples.textInfo None ]}
    = (Throw err, {[ "/a.txt" := Samples.tracked "a.txt" Samples.textInfo None ]}).
Proof.
  refine (proj1 (unsupported_is_rejected _ _ _ _ _ _)). reflexivity.
Defined.

(** ** Reset *)

(** C10. After [reset] every tracked file is still tracked, with the same
    relative path and file type and with no agent view, and nothing else is
    tracked; this holds of every registry, the empty one included.  For each
    tracked text file, the next reconciliation that gets at its content, from
    the disk or from its buffer, sends the whole file and records the
    content as the agent's view; and whenever that reconciliation returns, it
    returns an entry, and an entry that is not an error tells that the file
    is deleted or carries the whole file: never a diff, never no update. *)
Theorem reset_forgets_agent_views (w : World) (files : Files) :
  (∀ p, reset files !! p
        = (λ info, {| relFilePath := relFilePath info;
                      fileTypeInfo := fileTypeInfo info;
                      agentView := None |}) <$> files !! p)
  ∧ ∀ abs fileInfo,
      files !! abs = Some fileInfo →
      category (fileTypeInfo fileInfo) = TEXT →
      (∀ content,
         existsSync w abs = true →
         (getSyncInfo w abs = None ∧ readFileSync w abs = Return content)
         ∨ (∃ b, getSyncInfo w abs = Some b
                 ∧ readThroughBuffer w abs b = Return (inr content)) →
         getFileMessageAndUpdateAgentViewOfFile w abs (reset files)
         = (Return (Some {| entryAbsFilePath := abs;
                            entryRelFilePath := relativePath w abs;
                            update_ := StatusOk (WholeFileUpdate content) |}),
            setAgentView abs (Some (AgentText content)) (reset files)))
      ∧ ∀ r files',
          getFileMessageAndUpdateAgentViewOfFile w abs (reset files) = (Return r, files') →
          ∃ e, r = Some e
            ∧ ∀ u, update_ e = StatusOk u →
                (u = FileDeletedUpdate ∧ files' !! abs = None)
                ∨ ∃ content,
                    u = WholeFileUpdate content
                    ∧ files' !! abs
                      = Some {| relFilePath := relFilePath fileInfo;
                                fileTypeInfo := fileTypeInfo fileInfo;
                                agentView := Some (AgentText content) |}.
Proof.
  assert (Hreset : ∀ p, reset files !! p
        = (λ info, {| relFilePath := relFilePath info;
                      fileTypeInfo := fileTypeInfo info;
                      agentView := None |}) <$> files !! p)
    by (intros p; unfold reset; apply lookup_fmap).
  split; first done.
  intros abs fileInfo Hf Hcat.
  assert (Hview : ∀ v, setAgentView abs v (reset files) !! abs
            = Some {| relFilePath := relFilePath fileInfo;
                      fileTypeInfo := fileTypeInfo fileInfo;
                      agentView := v |}).
  { intros v. unfold setAgentView. by rewrite lookup_alter_eq, Hreset, Hf. }
  unfold getFileMessageAndUpdateAgentViewOfFile.
  rewrite Hreset, Hf. cbn [fmap option_fmap option_map fileTypeInfo].
  split.
  - intros content -> Hread. simpl. rewrite bool_decide_true by done.
    unfold handleTextFileUpdate.
    destruct Hread as [[-> ->]|(b & -> & ->)]; done.
  - intros r files'. destruct (existsSync w abs); simpl.
    + rewrite bool_decide_true by done.
      unfold handleTextFileUpdate, compareWithAgentView. cbn [agentView].
      repeat case_match; intros [= <- <-]; eexists; (split; first done);
        simpl; intros u [= <-]; rewrite ?lookup_delete_eq, ?Hview; eauto.
    + intros [= <- <-]. eexists. split; first done. simpl. intros u [= <-].
      left. by rewrite lookup_delete_eq.
Qed.

Lemma reset_forgets_agent_views_witness :
  reset {[ "/a.txt" := Samples.tracked "a.txt" Samples.textInfo (Some (AgentText "foo")) ]}
    !! "/a.txt"
  = Some (Samples.tracked "a.txt" Samples.textInfo None)
  ∧ getFileMessageAndUpdateAgentViewOfFile (Samples.onDisk 5 "foo") "/a.txt"
      (reset {[ "/a.txt" := Samples.tracked "a.txt" Samples.textInfo
                              (Some (AgentText "foo")) ]})
    = (Return (Some {| entryAbsFilePath := "/a.txt";
                       entryRelFilePath := "a.txt";
                       update_ := StatusOk (WholeFileUpdate "foo") |}),
       {[ "/a.txt" := Samples.tracked "a.txt" Samples.textInfo (Some (AgentText "foo")) ]}).
Proof.
  refine ((λ H, conj (proj1 H "/a.txt")
                  (proj1 (proj2 H "/a.txt"
                            (Samples.tracked "a.txt" Samples.textInfo (Some (AgentText "foo")))
                            _ _) "foo" _ _))
            (reset_forgets_agent_views (Samples.onDisk 5 "foo")
               {[ "/a.txt" := Samples.tracked "a.txt" Samples.textInfo
                                (Some (AgentText "foo")) ]})).
  - reflexivity.
  - reflexivity.
  - reflexivity.
  - left. split; reflexivity.
Defined.

(** ** Text files *)

(** What the comparison with the agent's view answers once a text has been
    shown: the whole file again when the text shown was empty, nothing when
    the content is the text shown, a diff otherwise; the content becomes the
    agent's view in each case. *)
Lemma compareWithAgentView_seen (abs : AbsFilePath) (rel : RelFilePath)
    (fileInfo : FileInfo) (prev cur : string) (files : Files) :
  agentView fileInfo = Some (AgentText prev) →
  compareWithAgentView abs rel fileInfo cur files
  = (Return
       (if bool_decide (prev = "") then Some {| entryAbsFilePath := abs;
                                                entryRelFilePath := rel;
                                                update_ := StatusOk (WholeFileUpdate cur) |}
        else if bool_decide (prev = cur) then None
        else Some {| entryAbsFilePath := abs;
                     entryRelFilePath := rel;
                     update_ := StatusOk (DiffUpdate (createPatch rel prev cur "previous" "current")) |}),
     setAgentView abs (Some (AgentText cur)) files).
Proof.
  intros Hv. unfold compareWithAgentView. rewrite Hv.
  destruct prev as [|c prev]; first done.
  rewrite (bool_decide_false (String c prev = "")) by done.
  destruct (String.eqb_spec (String c prev) cur) as [->|Hne].
  - by rewrite bool_decide_true.
  - by rewrite bool_decide_false.
Qed.

(** A text file that is only on disk and can be read. *)
Lemma reconcile_text_on_disk (w : World) (files : Files) (abs : AbsFilePath)
    (fileInfo : FileInfo) (raw : string) :
  files !! abs = Some fileInfo →
  category (fileTypeInfo fileInfo) = TEXT →
  existsSync w abs = true →
  getSyncInfo w abs = None →
  readFileSync w abs = Return raw →
  getFileMessageAndUpdateAgentViewOfFile w abs files
  = compareWithAgentView abs (relativePath w abs) fileInfo raw files.
Proof.
  intros Hf Hcat Hex Hbuf Hread.
  unfold getFileMessageAndUpdateAgentViewOfFile. rewrite Hf, Hex. simpl.
  rewrite bool_decide_true by done.
  unfold handleTextFileUpdate. by rewrite Hbuf, Hread.
Qed.

(** C4, as amended.  A tracked text file whose reconciliation returns.
    While the agent's view is empty, the answer is an entry, and an entry
    that is not an error tells that the file is deleted or carries the whole
    file, whose content becomes the agent's view.  While the agent's view
    holds a text that is not empty, the answer never carries the whole file,
    and the file is afterwards untracked or viewed as a text again.  The
    agent's view is empty again after [reset], and after the file has been
    removed from the context and added anew. *)
Theorem whole_file_is_for_an_empty_view (w : World) (files files' : Files)
    (abs : AbsFilePath) (fileInfo : FileInfo) (r : option FileUpdateEntry) :
  files !! abs = Some fileInfo →
  category (fileTypeInfo fileInfo) = TEXT →
  getFileMessageAndUpdateAgentViewOfFile w abs files = (Return r, files') →
  (agentView fileInfo = None →
   ∃ e, r = Some e
     ∧ ∀ u, update_ e = StatusOk u →
         (u = FileDeletedUpdate ∧ files' !! abs = None)
         ∨ ∃ content,
             u = WholeFileUpdate content
             ∧ files' !! abs
               = Some {| relFilePath := relFilePath fileInfo;
                         fileTypeInfo := fileTypeInfo fileInfo;
                         agentView := Some (AgentText content) |})
  ∧ (∀ prev,
       agentView fileInfo = Some (AgentText prev) → prev ≠ "" →
       (∀ e content, r = Some e → update_ e ≠ StatusOk (WholeFileUpdate content))
       ∧ (files' !! abs = None
          ∨ ∃ cur, files' !! abs
                   = Some {| relFilePath := relFilePath fileInfo;
                             fileTypeInfo := fileTypeInfo fileInfo;
                             agentView := Some (AgentText cur) |}))
  ∧ agentView <$> reset files' !! abs = (λ _, None) <$> files' !! abs
  ∧ agentView <$>
      (update w (AddFileContext (relFilePath fileInfo) abs (fileTypeInfo fileInfo))
         (update w (RemoveFileContext abs) files').2).2 !! abs
    = Some None.
Proof.
  intros Hf Hcat.
  assert (Hlast : ∀ files' : Files,
            agentView <$> reset files' !! abs = (λ _, None) <$> files' !! abs
            ∧ agentView <$>
                (update w (AddFileContext (relFilePath fileInfo) abs (fileTypeInfo fileInfo))
                   (update w (RemoveFileContext abs) files').2).2 !! abs
              = Some None).
  { intros fs. split.
    - unfold reset. rewrite lookup_fmap. by destruct (fs !! abs).
    - unfold update. rewrite bool_decide_false by (rewrite Hcat; done).
      simpl. by rewrite lookup_insert_eq. }
  unfold getFileMessageAndUpdateAgentViewOfFile. rewrite Hf.
  assert (Hview : ∀ v, setAgentView abs v files !! abs
            = Some {| relFilePath := relFilePath fileInfo;
                      fileTypeInfo := fileTypeInfo fileInfo;
                      agentView := v |}).
  { intros v. unfold setAgentView. by rewrite lookup_alter_eq, Hf. }
  assert (Hsame : files !! abs
            = Some {| relFilePath := relFilePath fileInfo;
                      fileTypeInfo := fileTypeInfo fileInfo;
                      agentView := agentView fileInfo |})
    by (rewrite Hf; by destruct fileInfo).
  intros Hrec.
  refine ((λ H, conj (proj1 H) (conj (proj2 H) (Hlast files'))) _).
  revert Hrec. destruct (existsSync w abs); simpl.
  - rewrite bool_decide_true by done.
    unfold handleTextFileUpdate, compareWithAgentView.
    intros Hrec. split.
    + intros Hv. rewrite Hv in *. revert Hrec.
      repeat case_match; intros [= <- <-]; eexists; (split; first done);
        simpl; intros u [= <-]; rewrite ?lookup_delete_eq, ?Hview; eauto.
    + intros prev Hv Hne. rewrite Hv in *. revert Hrec.
      destruct prev as [|c prev]; first done.
      repeat case_match; intros [= <- <-];
        (split; first by intros ? ? [= <-]);
        rewrite ?lookup_delete_eq, ?Hview, ?Hsame; eauto.
  - intros [= <- <-]. split.
    + intros _. eexists. split; first done. simpl. intros u [= <-].
      left. by rewrite lookup_delete_eq.
    + intros prev _ _. split; first by intros ? ? [= <-].
      left. by rewrite lookup_delete_eq.
Qed.

Lemma whole_file_is_for_an_empty_view_witness :
  (∀ e content,
     Some {| entryAbsFilePath := "/a.txt";
             entryRelFilePath := "a.txt";
             update_ := StatusOk (DiffUpdate (createPatch "a.txt" "foo" "bar" "previous" "current")) |}
     = Some e →
     update_ e ≠ StatusOk (WholeFileUpdate content))
  ∧ (({[ "/a.txt" := Samples.tracked "a.txt" Samples.textInfo (Some (AgentText "bar")) ]}
        : Files) !! "/a.txt" = None
     ∨ ∃ cur,
         ({[ "/a.txt" := Samples.tracked "a.txt" Samples.textInfo (Some (AgentText "bar")) ]}
            : Files) !! "/a.txt"
         = Some (Samples.tracked "a.txt" Samples.textInfo (Some (AgentText cur)))).
Proof.
  refine (proj1 (proj2 (whole_file_is_for_an_empty_view (Samples.onDisk 6 "bar")
            {[ "/a.txt" := Samples.tracked "a.txt" Samples.textInfo (Some (AgentText "foo")) ]}
            _ "/a.txt"
            (Samples.tracked "a.txt" Samples.textInfo (Some (AgentText "foo")))
            _ _ _ _)) "foo" _ _); [reflexivity | reflexivity | reflexivity | reflexivity
                                  | discriminate].
Defined.

(** C4, the claim as stated fails.  A text file is tracked and reconciled:
    the whole file is sent.  The manager is reset; the file is neither
    untracked nor tracked anew.  The next reconciliation sends the whole file
    again. *)
Lemma whole_file_is_sent_again_after_reset :
  let files : Files := {[ "/a.txt" := Samples.tracked "a.txt" Samples.textInfo None ]} in
  let first :=
    getFileMessageAndUpdateAgentViewOfFile (Samples.onDisk 5 "foo") "/a.txt" files in
  let second :=
    getFileMessageAndUpdateAgentViewOfFile (Samples.onDisk 5 "foo") "/a.txt"
      (reset first.2) in
  first.1 = Return (Some {| entryAbsFilePath := "/a.txt";
                            entryRelFilePath := "a.txt";
                            update_ := StatusOk (WholeFileUpdate "foo") |})
  ∧ first.2 !! "/a.txt"
    = Some (Samples.tracked "a.txt" Samples.textInfo (Some (AgentText "foo")))
  ∧ second.1 = Return (Some {| entryAbsFilePath := "/a.txt";
                               entryRelFilePath := "a.txt";
                               update_ := StatusOk (WholeFileUpdate "foo") |}).
Proof. repeat split. Qed.

(** C8. The code at the failing input.  A tracked text file with no content
    is reconciled twice in a row, nothing changing in between: the second
    reconciliation sends the whole file once more, where no update was due;
    the agent's view holds the same text before and after it. *)
Theorem unchanged_empty_file_is_sent_twice :
  let files : Files := {[ "/a.txt" := Samples.tracked "a.txt" Samples.textInfo None ]} in
  let first := getFileMessageAndUpdateAgentViewOfFile (Samples.onDisk 5 "") "/a.txt" files in
  let second := getFileMessageAndUpdateAgentViewOfFile (Samples.onDisk 5 "") "/a.txt" first.2 in
  first.1 = Return (Some {| entryAbsFilePath := "/a.txt";
                            entryRelFilePath := "a.txt";
                            update_ := StatusOk (WholeFileUpdate "") |})
  ∧ second.1 = Return (Some {| entryAbsFilePath := "/a.txt";
                               entryRelFilePath := "a.txt";
                               update_ := StatusOk (WholeFileUpdate "") |})
  ∧ second.1 ≠ Return None
  ∧ second.2 !! "/a.txt" = first.2 !! "/a.txt".
Proof. repeat split. discriminate. Qed.

(** Apart from the empty text, the second of two reconciliations of an
    unchanged text file has no update and leaves the agent's view as it is. *)
Lemma unchanged_text_has_no_update (w : World) (files : Files) (abs : AbsFilePath)
    (fileInfo : FileInfo) (content : string) :
  files !! abs = Some fileInfo →
  category (fileTypeInfo fileInfo) = TEXT →
  agentView fileInfo = Some (AgentText content) →
  content ≠ "" →
  existsSync w abs = true →
  getSyncInfo w abs = None →
  readFileSync w abs = Return content →
  getFileMessageAndUpdateAgentViewOfFile w abs files = (Return None, files).
Proof.
  intros Hf Hcat Hv Hne Hex Hbuf Hread.
  rewrite (reconcile_text_on_disk w files abs fileInfo content) by done.
  rewrite (compareWithAgentView_seen abs _ fileInfo content content) by done.
  rewrite bool_decide_false, bool_decide_true by done.
  f_equal. unfold setAgentView. apply map_eq. intros p.
  destruct (decide (abs = p)) as [<-|Hp].
  - rewrite lookup_alter_eq, Hf. simpl. destruct fileInfo. simpl in *. by rewrite Hv.
  - by rewrite lookup_alter_ne.
Qed.

(** ** Binary files *)

(** A binary file whose modification time can be read: the agent's view is
    set to that time before anything else is tried. *)
Lemma handleBinaryFileUpdate_records_mtime (w : World) (abs : AbsFilePath)
    (rel : RelFilePath) (fileInfo : FileInfo) (files : Files) (currentMtime : Z) :
  statSync w abs = Return currentMtime →
  (handleBinaryFileUpdate w abs rel fileInfo files).2
  = setAgentView abs (Some (AgentBinary currentMtime)) files.
Proof.
  intros Hstat. unfold handleBinaryFileUpdate. rewrite Hstat.
  repeat case_match; done.
Qed.

(** A PDF whose text cannot be extracted: the error is reported, and the
    agent's view holds the new modification time all the same. *)
Lemma pdf_failure_advances_view (w : World) (files : Files) (abs : AbsFilePath)
    (fileInfo : FileInfo) (currentMtime : Z) (error : string) :
  files !! abs = Some fileInfo →
  category (fileTypeInfo fileInfo) = PDF →
  existsSync w abs = true →
  statSync w abs = Return currentMtime →
  notNewer (match agentView fileInfo with
            | Some (AgentBinary mtime) => Some mtime
            | _ => None
            end) currentMtime = false →
  extractPdfText w abs = Return (StatusError error) →
  getFileMessageAndUpdateAgentViewOfFile w abs files
  = (Return (Some {| entryAbsFilePath := abs;
                     entryRelFilePath := relativePath w abs;
                     update_ := StatusError error |}),
     setAgentView abs (Some (AgentBinary currentMtime)) files).
Proof.
  intros Hf Hcat Hex Hstat Hnew Hpdf.
  unfold getFileMessageAndUpdateAgentViewOfFile. rewrite Hf, Hex. simpl.
  rewrite bool_decide_false by (rewrite Hcat; done).
  unfold handleBinaryFileUpdate. rewrite Hstat, Hnew.
  rewrite bool_decide_true by done. by rewrite Hpdf.
Qed.

(** C2. The code at the failing input.  A PDF was shown at modification
    time 1 and has changed (time 5); its text cannot be extracted.  The
    reconciliation reports the error of the extractor, and the agent's view
    holds the time 5 afterwards; at the next reconciliation, whatever the
    extractor would answer, there is no update: the extraction is not tried
    again. *)
Theorem failed_pdf_extraction_is_not_retried :
  let files : Files :=
    {[ "/doc.pdf" := Samples.tracked "doc.pdf" Samples.pdfInfo (Some (AgentBinary 1)) ]} in
  let pass pdf :=
    Samples.world true (Return 5%Z) (λ _, Return "%PDF-1.7") None (Return 0%Z) [] pdf in
  let first :=
    getFileMessageAndUpdateAgentViewOfFile
      (pass (Return (StatusError "Failed to extract text"))) "/doc.pdf" files in
  first.1 = Return (Some {| entryAbsFilePath := "/doc.pdf";
                            entryRelFilePath := "doc.pdf";
                            update_ := StatusError "Failed to extract text" |})
  ∧ first.2 !! "/doc.pdf"
    = Some (Samples.tracked "doc.pdf" Samples.pdfInfo (Some (AgentBinary 5)))
  ∧ ∀ pdf,
      (getFileMessageAndUpdateAgentViewOfFile (pass pdf) "/doc.pdf" first.2).1
      = Return None.
Proof. repeat split. Qed.

(** ** Errors in a pass *)

(** C3. The code at the failing input.  Two text files are tracked, neither
    open in a buffer; the first can be read, reading the second is refused
    ([EACCES]).  The pass throws that error: no map is returned, the error is
    not recorded under the path of the second file, and the update of the
    first file is lost although its content has become the agent's view. *)
Theorem read_error_rejects_the_pass :
  let files : Files :=
    {[ "/a.txt" := Samples.tracked "a.txt" Samples.textInfo None;
       "/b.txt" := Samples.tracked "b.txt" Samples.textInfo None ]} in
  let w :=
    Samples.world true (Return 5%Z)
      (λ p, if String.eqb p "/b.txt" then Throw Samples.eacces else Return "hello")
      None (Return 0%Z) [] (Return (StatusOk "")) in
  (getContextUpdate w files).1 = Throw Samples.eacces
  ∧ (getContextUpdate w files).2 !! "/a.txt"
    = Some (Samples.tracked "a.txt" Samples.textInfo (Some (AgentText "hello")))
  ∧ (getContextUpdate w files).2 !! "/b.txt"
    = Some (Samples.tracked "b.txt" Samples.textInfo None).
Proof. repeat split. Qed.

(** In general: a pass throws as soon as one tracked text file that is only
    on disk cannot be read, for another reason than its absence. *)
Lemma unreadable_text_rejects_the_pass (w : World) (files : Files) (abs : AbsFilePath)
    (fileInfo : FileInfo) (err : JsError) :
  files !! abs = Some fileInfo →
  category (fileTypeInfo fileInfo) = TEXT →
  existsSync w abs = true →
  getSyncInfo w abs = None →
  readFileSync w abs = Throw err →
  code err ≠ Some "ENOENT" →
  ∃ err' files', getContextUpdate w files = (Throw err', files').
Proof.
  intros Hf Hcat Hex Hbuf Hread Hcode.
  apply getContextUpdate_throws. exists abs, err. split; first by eexists.
  unfold getFileMessageAndUpdateAgentViewOfFile. rewrite Hf, Hex. simpl.
  rewrite bool_decide_true by done.
  unfold handleTextFileUpdate. rewrite Hbuf, Hread.
  by rewrite bool_decide_false.
Qed.

(** The other failures stay with their file: a reconciliation throws in that
    one case only. *)
Lemma reconcile_throws_only_on_read (w : World) (files : Files) (abs : AbsFilePath)
    (err : JsError) :
  (getFileMessageAndUpdateAgentViewOfFile w abs files).1 = Throw err →
  ∃ fileInfo,
    files !! abs = Some fileInfo
    ∧ category (fileTypeInfo fileInfo) = TEXT
    ∧ getSyncInfo w abs = None
    ∧ readFileSync w abs = Throw err
    ∧ code err ≠ Some "ENOENT".
Proof.
  unfold getFileMessageAndUpdateAgentViewOfFile.
  destruct (files !! abs) as [fileInfo|]; last done.
  destruct (negb _); first done.
  case_bool_decide as Hcat.
  - unfold handleTextFileUpdate, compareWithAgentView.
    destruct (getSyncInfo w abs); first by repeat case_match.
    destruct (readFileSync w abs) as [raw|err'] eqn:Hread; first by repeat case_match.
    case_bool_decide; first done.
    simpl. intros [= ->]. by exists fileInfo.
  - unfold handleBinaryFileUpdate. by repeat case_match.
Qed.

(** ** Diffs *)

(** A reconciliation answers with a diff only for a text file whose agent's
    view held a text: the patch is the one from that text to the content
    that becomes the agent's view. *)
Lemma reconcile_diff (w : World) (files files' : Files) (abs : AbsFilePath)
    (e : FileUpdateEntry) (patch : Patch) :
  getFileMessageAndUpdateAgentViewOfFile w abs files = (Return (Some e), files') →
  update_ e = StatusOk (DiffUpdate patch) →
  ∃ fileInfo prev cur,
    files !! abs = Some fileInfo
    ∧ agentView fileInfo = Some (AgentText prev)
    ∧ files' !! abs
      = Some {| relFilePath := relFilePath fileInfo;
                fileTypeInfo := fileTypeInfo fileInfo;
                agentView := Some (AgentText cur) |}
    ∧ prev ≠ cur
    ∧ patch = createPatch (relativePath w abs) prev cur "previous" "current".
Proof.
  unfold getFileMessageAndUpdateAgentViewOfFile.
  destruct (files !! abs) as [fileInfo|] eqn:Hf; last done.
  assert (Hview : ∀ v, setAgentView abs v files !! abs
            = Some {| relFilePath := relFilePath fileInfo;
                      fileTypeInfo := fileTypeInfo fileInfo;
                      agentView := v |}).
  { intros v. unfold setAgentView. by rewrite lookup_alter_eq, Hf. }
  assert (Hcmp : ∀ cur,
            compareWithAgentView abs (relativePath w abs) fileInfo cur files
            = (Return (Some e), files') →
            update_ e = StatusOk (DiffUpdate patch) →
            ∃ fileInfo0 prev cur0,
              Some fileInfo = Some fileInfo0
              ∧ agentView fileInfo0 = Some (AgentText prev)
              ∧ files' !! abs
                = Some {| relFilePath := relFilePath fileInfo0;
                          fileTypeInfo := fileTypeInfo fileInfo0;
                          agentView := Some (AgentText cur0) |}
              ∧ prev ≠ cur0
              ∧ patch = createPatch (relativePath w abs) prev cur0 "previous" "current").
  { intros cur. unfold compareWithAgentView.
    destruct (agentView fileInfo) as [[prev|?]|] eqn:Hv;
      [|intros [= <- <-]; simpl; done..].
    destruct prev as [|c prev]; first (intros [= <- <-]; simpl; done).
    destruct (String.eqb_spec (String c prev) cur) as [<-|Hne]; first done.
    intros [= <- <-]. simpl. intros [= <-].
    exists fileInfo, (String c prev), cur. by rewrite Hview. }
  destruct (negb _); first (intros [= <- <-]; simpl; done).
  case_bool_decide as Hcat.
  - unfold handleTextFileUpdate.
    repeat case_match; try (intros [= <- <-]; simpl; done); try done; apply Hcmp.
  - unfold handleBinaryFileUpdate.
    repeat case_match; try (intros [= <- <-]; simpl; done); done.
Qed.




(** Outside the whole lines a patch may not apply at all.  The agent was
    shown [foo] without a newline at its end; a line [bar] is added after
    it, without a newline either.  The comparison takes the two lines [foo]
    for the same, so that the only marker of the patch follows the added
    line [bar]; [applyPatch] reads it as a newline at the end of the old
    text that the patch takes away, finds none at the end of the text
    shown, and refuses the patch. *)
Lemma diff_after_an_unfinished_line_is_refused :
  let prev := "foo" in
  let cur := "foo" +:+ NL +:+ "bar" in
  let files : Files :=
    {[ "/a.txt" := Samples.tracked "a.txt" Samples.textInfo (Some (AgentText prev)) ]} in
  let patch :=
    joinLines [ "Index: a.txt";
                "===================================================================";
                "--- a.txt" +:+ tab +:+ "previous";
                "+++ a.txt" +:+ tab +:+ "current";
                "@@ -1,1 +1,2 @@";
                " foo";
                "+bar";
                "\ No newline at end of file";
                "" ] in
  (getFileMessageAndUpdateAgentViewOfFile (Samples.onDisk 6 cur) "/a.txt" files).1
  = Return (Some {| entryAbsFilePath := "/a.txt";
                    entryRelFilePath := "a.txt";
                    update_ := StatusOk (DiffUpdate patch) |})
  ∧ applyPatch prev patch = Refused.
Proof. vm_compute. repeat split. Qed.

(** ** Files that are gone *)

(** A path that is not tracked stays so through a pass, and a pass that
    returns has no entry for it. *)
Lemma getContextUpdate_untracked (w : World) (files : Files) (abs : AbsFilePath) :
  files !! abs = None →
  (getContextUpdate w files).2 !! abs = None
  ∧ ∀ results, (getContextUpdate w files).1 = Return results → results !! abs = None.
Proof.
  intros Hnone. unfold getContextUpdate. destruct (isContextEmpty files).
  - split; first done. by intros results [= <-].
  - assert (abs ∉ keys files) as Hout
      by (rewrite keys_elem, Hnone; by intros [? ?]).
    destruct (reconcileAll_frame w abs (keys files) ∅ None files Hout) as [E1 E2].
    destruct (reconcileAll w (keys files) ∅ None files) as [[r [err|]] f];
      simpl in *; (split; first congruence).
    + done.
    + intros results [= <-]. by rewrite E1.
Qed.

(** X28. A tracked file that is not found when the reconciliation looks for
    it, and a tracked text file with no open buffer whose reading fails with
    [ENOENT] after it was found: the reconciliation answers that the file is
    deleted and removes it from the registry.  A pass that returns has this
    answer under the path and leaves the path untracked; the path then stays
    untracked through every further pass, and a further pass that returns
    has no entry for it. *)
Theorem missing_file_is_deleted (w : World) (files : Files) (abs : AbsFilePath)
    (fileInfo : FileInfo) :
  files !! abs = Some fileInfo →
  existsSync w abs = false
  ∨ (category (fileTypeInfo fileInfo) = TEXT
     ∧ getSyncInfo w abs = None
     ∧ ∃ err, readFileSync w abs = Throw err ∧ code err = Some "ENOENT") →
  getFileMessageAndUpdateAgentViewOfFile w abs files
  = (Return (Some {| entryAbsFilePath := abs;
                     entryRelFilePath := relativePath w abs;
                     update_ := StatusOk FileDeletedUpdate |}),
     delete abs files)
  ∧ delete abs files !! abs = None
  ∧ (∀ results files',
       getContextUpdate w files = (Return results, files') →
       results !! abs = Some {| entryAbsFilePath := abs;
                                entryRelFilePath := relativePath w abs;
                                update_ := StatusOk FileDeletedUpdate |}
       ∧ files' !! abs = None)
  ∧ ∀ later w',
      later !! abs = None →
      (getContextUpdate w' later).2 !! abs = None
      ∧ ∀ results', (getContextUpdate w' later).1 = Return results' →
                    results' !! abs = None.
Proof.
  intros Hf Hgone.
  assert (getFileMessageAndUpdateAgentViewOfFile w abs files
          = (Return (Some {| entryAbsFilePath := abs;
                             entryRelFilePath := relativePath w abs;
                             update_ := StatusOk FileDeletedUpdate |}),
             delete abs files)) as E.
  { unfold getFileMessageAndUpdateAgentViewOfFile. rewrite Hf.
    destruct Hgone as [->|(Hcat & Hbuf & err & Hread & Hcode)]; first done.
    destruct (existsSync w abs); last done. simpl.
    rewrite bool_decide_true by done.
    unfold handleTextFileUpdate. rewrite Hbuf, Hread.
    by rewrite bool_decide_true. }
  split; first done. split; first by rewrite lookup_delete_eq.
  split.
  - intros results files' Hpass.
    destruct (getContextUpdate_at w files files' results abs Hpass) as [Hr Hf'].
    rewrite E in Hr, Hf'. simpl in Hr, Hf'. by rewrite lookup_delete_eq in Hf'.
  - intros later w' Hnone. by apply getContextUpdate_untracked.
Qed.

Lemma missing_file_is_deleted_witness :
  getFileMessageAndUpdateAgentViewOfFile
    (Samples.world true (Return 5%Z) (λ _, Throw Samples.enoent) None (Return 0%Z) []
       (Return (StatusOk "")))
    "/a.txt"
    {[ "/a.txt" := Samples.tracked "a.txt" Samples.textInfo (Some (AgentText "foo")) ]}
  = (Return (Some {| entryAbsFilePath := "/a.txt";
                     entryRelFilePath := "a.txt";
                     update_ := StatusOk FileDeletedUpdate |}),
     delete "/a.txt"
       {[ "/a.txt" := Samples.tracked "a.txt" Samples.textInfo (Some (AgentText "foo")) ]}).
Proof.
  refine (proj1 (missing_file_is_deleted _ _ "/a.txt"
            (Samples.tracked "a.txt" Samples.textInfo (Some (AgentText "foo"))) _ _)).
  - reflexivity.
  - right. split; first reflexivity. split; first reflexivity.
    exists Samples.enoent. split; reflexivity.
Defined.

(** C6. The claim fails on the code where the file vanishes after it was
    found and is not a text file read from disk.  An image is tracked and
    found; its modification time is read; reading its bytes then fails with
    [ENOENT].  The reconciliation answers with an error, not with a
    deletion, and the file stays tracked; the text file read from disk is
    answered with the deletion in the same race (X28). *)
Lemma image_that_vanishes_is_an_error :
  let files : Files :=
    {[ "/pic.png" := Samples.tracked "pic.png" Samples.imageInfo None ]} in
  let w :=
    Samples.world true (Return 5%Z) (λ _, Throw Samples.enoent) None (Return 0%Z) []
      (Return (StatusOk "")) in
  readFileSync w "/pic.png" = Throw Samples.enoent
  ∧ code Samples.enoent = Some "ENOENT"
  ∧ (getFileMessageAndUpdateAgentViewOfFile w "/pic.png" files).1
    = Return (Some {| entryAbsFilePath := "/pic.png";
                      entryRelFilePath := "pic.png";
                      update_ := StatusError "Error checking file stats for /pic.png: ENOENT: no such file or directory" |})
  ∧ (getFileMessageAndUpdateAgentViewOfFile w "/pic.png" files).1
    ≠ Return (Some {| entryAbsFilePath := "/pic.png";
                      entryRelFilePath := "pic.png";
                      update_ := StatusOk FileDeletedUpdate |})
  ∧ (getFileMessageAndUpdateAgentViewOfFile w "/pic.png" files).2 !! "/pic.png"
    = Some (Samples.tracked "pic.png" Samples.imageInfo (Some (AgentBinary 5))).
Proof. repeat split. discriminate. Qed.

(** ** Images *)

(** X29. A tracked image that is found and whose modification time can be
    read.  When the agent's view holds no modification time, or an older
    one, and the bytes can be read, the reconciliation answers with the
    whole file, its bytes in base64; when the agent's view holds a
    modification time that is not zero and the time on disk is the same or
    older, there is no update.  The time on disk becomes the agent's view in
    both cases. *)
Theorem image_update_follows_mtime (w : World) (files : Files) (abs : AbsFilePath)
    (fileInfo : FileInfo) (currentMtime : Z) :
  files !! abs = Some fileInfo →
  category (fileTypeInfo fileInfo) = IMAGE →
  existsSync w abs = true →
  statSync w abs = Return currentMtime →
  (∀ raw,
     readFileSync w abs = Return raw →
     match agentView fileInfo with
     | Some (AgentBinary prevMtime) => (prevMtime < currentMtime)%Z
     | _ => True
     end →
     getFileMessageAndUpdateAgentViewOfFile w abs files
     = (Return (Some {| entryAbsFilePath := abs;
                        entryRelFilePath := relativePath w abs;
                        update_ := StatusOk (WholeFileUpdate (Base64.toBase64 raw)) |}),
        setAgentView abs (Some (AgentBinary currentMtime)) files))
  ∧ (∀ prevMtime,
       agentView fileInfo = Some (AgentBinary prevMtime) →
       prevMtime ≠ 0%Z →
       (currentMtime ≤ prevMtime)%Z →
       getFileMessageAndUpdateAgentViewOfFile w abs files
       = (Return None, setAgentView abs (Some (AgentBinary currentMtime)) files)).
Proof.
  intros Hf Hcat Hex Hstat.
  unfold getFileMessageAndUpdateAgentViewOfFile. rewrite Hf, Hex. simpl.
  rewrite bool_decide_false by (rewrite Hcat; done).
  unfold handleBinaryFileUpdate. rewrite Hstat.
  rewrite (bool_decide_false (_ = PDF)) by (rewrite Hcat; done).
  split.
  - intros raw Hread Hnew. rewrite Hread.
    assert (notNewer match agentView fileInfo with
                     | Some (AgentBinary mtime) => Some mtime
                     | _ => None
                     end currentMtime = false) as ->; last done.
    destruct (agentView fileInfo) as [[?|prevMtime]|]; try done.
    unfold notNewer. apply andb_false_iff. right. by apply Z.leb_gt.
  - intros prevMtime Hv Hnz Hle. rewrite Hv. unfold notNewer.
    apply Z.eqb_neq in Hnz. apply Z.leb_le in Hle. by rewrite Hnz, Hle.
Qed.

Lemma image_update_follows_mtime_witness :
  getFileMessageAndUpdateAgentViewOfFile (Samples.onDisk 5 "GIF89a") "/pic.gif"
    {[ "/pic.gif" := Samples.tracked "pic.gif" Samples.imageInfo (Some (AgentBinary 4)) ]}
  = (Return (Some {| entryAbsFilePath := "/pic.gif";
                     entryRelFilePath := "pic.gif";
                     update_ := StatusOk (WholeFileUpdate "R0lGODlh") |}),
     {[ "/pic.gif" := Samples.tracked "pic.gif" Samples.imageInfo (Some (AgentBinary 5)) ]})
  ∧ getFileMessageAndUpdateAgentViewOfFile (Samples.onDisk 5 "GIF89a") "/pic.gif"
      {[ "/pic.gif" := Samples.tracked "pic.gif" Samples.imageInfo (Some (AgentBinary 5)) ]}
    = (Return None,
       {[ "/pic.gif" := Samples.tracked "pic.gif" Samples.imageInfo (Some (AgentBinary 5)) ]}).
Proof.
  split.
  - refine (proj1 (image_update_follows_mtime (Samples.onDisk 5 "GIF89a") _ "/pic.gif"
              (Samples.tracked "pic.gif" Samples.imageInfo (Some (AgentBinary 4))) 5
              _ _ _ _) "GIF89a" _ _); first [reflexivity | simpl; lia].
  - refine (proj2 (image_update_follows_mtime (Samples.onDisk 5 "GIF89a") _ "/pic.gif"
              (Samples.tracked "pic.gif" Samples.imageInfo (Some (AgentBinary 5))) 5
              _ _ _ _) 5%Z _ _ _); first [reflexivity | simpl; lia].
Defined.

(** C7. The claim fails on the code in both directions.  The agent was
    shown an image at modification time 10 and the file on disk now has the
    time 5, which differs: the reconciliation has no update for it.  The
    agent was shown an image at modification time 0 and the file on disk
    still has the time 0: the reconciliation sends the whole file again. *)
Theorem image_update_does_not_follow_change :
  let w := Samples.onDisk 5 "GIF89a" in
  let older : Files :=
    {[ "/pic.gif" := Samples.tracked "pic.gif" Samples.imageInfo (Some (AgentBinary 10)) ]} in
  let w0 := Samples.onDisk 0 "GIF89a" in
  let zero : Files :=
    {[ "/pic.gif" := Samples.tracked "pic.gif" Samples.imageInfo (Some (AgentBinary 0)) ]} in
  (statSync w "/pic.gif" = Return 5%Z
   ∧ 5%Z ≠ 10%Z
   ∧ getFileMessageAndUpdateAgentViewOfFile w "/pic.gif" older
     = (Return None,
        {[ "/pic.gif" := Samples.tracked "pic.gif" Samples.imageInfo
                           (Some (AgentBinary 5)) ]}))
  ∧ (statSync w0 "/pic.gif" = Return 0%Z
     ∧ getFileMessageAndUpdateAgentViewOfFile w0 "/pic.gif" zero
       = (Return (Some {| entryAbsFilePath := "/pic.gif";
                          entryRelFilePath := "pic.gif";
                          update_ := StatusOk (WholeFileUpdate "R0lGODlh") |}),
          zero)).
Proof. repeat split. discriminate. Qed.

(** ** The scenario of the specification *)

(** A file [a.txt] with the content [foo] is tracked: the first pass sends
    the whole file.  A line [bar] is added on disk: the second pass sends a
    diff that adds one line.  The file is removed: the third pass tells so,
    and the file is no longer tracked. *)
Example scenario :
  let foo := "foo" +:+ NL in
  let foobar := "foo" +:+ NL +:+ "bar" +:+ NL in
  let gone :=
    Samples.world false (Throw Samples.enoent) (λ _, Throw Samples.enoent) None
      (Return 0%Z) [] (Return (StatusOk "")) in
  let tracked0 :=
    (update (Samples.onDisk 1 foo) (AddFileContext "a.txt" "/a.txt" Samples.textInfo) ∅).2 in
  let pass1 := getContextUpdate (Samples.onDisk 1 foo) tracked0 in
  let pass2 := getContextUpdate (Samples.onDisk 2 foobar) pass1.2 in
  let pass3 := getContextUpdate gone pass2.2 in
  pass1.1 = Return {[ "/a.txt" := {| entryAbsFilePath := "/a.txt";
                                      entryRelFilePath := "a.txt";
                                      update_ := StatusOk (WholeFileUpdate foo) |} ]}
  ∧ pass2.1 = Return {[ "/a.txt" := {| entryAbsFilePath := "/a.txt";
                                        entryRelFilePath := "a.txt";
                                        update_ := StatusOk (DiffUpdate
                                          (joinLines
                                             [ "Index: a.txt";
                                               "===================================================================";
                                               "--- a.txt" +:+ tab +:+ "previous";
                                               "+++ a.txt" +:+ tab +:+ "current";
                                               "@@ -1,1 +1,2 @@";
                                               " foo";
                                               "+bar";
                                               "" ])) |} ]}
  ∧ pass3.1 = Return {[ "/a.txt" := {| entryAbsFilePath := "/a.txt";
                                        entryRelFilePath := "a.txt";
                                        update_ := StatusOk FileDeletedUpdate |} ]}
  ∧ pass3.2 = ∅.
Proof. repeat split. Qed.

(** * Further properties *)

Import Messages Rendering AutoContext.

(** ** A pass, file by file *)

(** X1. In a pass that returns, what is recorded under a path and what is
    left in the registry under it are the answer and the effect of the
    reconciliation of that path alone, run on the registry the pass started
    from: the files do not influence each other, and a file without update
    has no entry. *)
Theorem pass_is_the_reconciliation_of_each_file (w : World) (files files' : Files)
    (results : FileUpdates) (p : AbsFilePath) :
  getContextUpdate w files = (Return results, files') →
  results !! p
  = match (getFileMessageAndUpdateAgentViewOfFile w p files).1 with
    | Return (Some e) => Some e
    | _ => None
    end
  ∧ files' !! p = (getFileMessageAndUpdateAgentViewOfFile w p files).2 !! p.
Proof. apply getContextUpdate_at. Qed.

Lemma pass_is_the_reconciliation_of_each_file_witness :
  ({[ "/a.txt" := {| entryAbsFilePath := "/a.txt"; entryRelFilePath := "a.txt";
                     update_ := StatusOk (WholeFileUpdate "foo") |} ]} : FileUpdates)
    !! "/b.txt"
  = match (getFileMessageAndUpdateAgentViewOfFile (Samples.onDisk 5 "foo") "/b.txt"
             {[ "/a.txt" := Samples.tracked "a.txt" Samples.textInfo None;
                "/b.txt" := Samples.tracked "b.txt" Samples.textInfo (Some (AgentText "foo")) ]}).1
    with
    | Return (Some e) => Some e
    | _ => None
    end
  ∧ ({[ "/a.txt" := Samples.tracked "a.txt" Samples.textInfo (Some (AgentText "foo"));
        "/b.txt" := Samples.tracked "b.txt" Samples.textInfo (Some (AgentText "foo")) ]}
       : Files) !! "/b.txt"
    = (getFileMessageAndUpdateAgentViewOfFile (Samples.onDisk 5 "foo") "/b.txt"
         {[ "/a.txt" := Samples.tracked "a.txt" Samples.textInfo None;
            "/b.txt" := Samples.tracked "b.txt" Samples.textInfo (Some (AgentText "foo")) ]}).2
      !! "/b.txt".
Proof.
  refine (pass_is_the_reconciliation_of_each_file (Samples.onDisk 5 "foo")
            {[ "/a.txt" := Samples.tracked "a.txt" Samples.textInfo None;
               "/b.txt" := Samples.tracked "b.txt" Samples.textInfo (Some (AgentText "foo")) ]}
            _ _ "/b.txt" _).
  reflexivity.
Defined.

(** X2. A pass throws exactly when one of the tracked files is a text file
    that is found on disk, is not open in a buffer, and cannot be read for
    another reason than its absence. *)
Theorem pass_throws_iff_a_text_file_is_unreadable (w : World) (files : Files) :
  (∃ err files', getContextUpdate w files = (Throw err, files'))
  ↔ ∃ p fileInfo err,
      files !! p = Some fileInfo
      ∧ category (fileTypeInfo fileInfo) = TEXT
      ∧ existsSync w p = true
      ∧ getSyncInfo w p = None
      ∧ readFileSync w p = Throw err
      ∧ code err ≠ Some "ENOENT".
Proof.
  rewrite getContextUpdate_throws. split.
  - intros (p & err & _ & Hthrow).
    destruct (reconcile_throws_only_on_read w files p err Hthrow)
      as (fileInfo & Hf & Hcat & Hbuf & Hread & Hcode).
    exists p, fileInfo, err. repeat split; try done.
    unfold getFileMessageAndUpdateAgentViewOfFile in Hthrow. rewrite Hf in Hthrow.
    by destruct (existsSync w p).
  - intros (p & fileInfo & err & Hf & Hcat & Hex & Hbuf & Hread & Hcode).
    exists p, err. split; first by eexists.
    unfold getFileMessageAndUpdateAgentViewOfFile. rewrite Hf, Hex. simpl.
    rewrite bool_decide_true by done.
    unfold handleTextFileUpdate. rewrite Hbuf, Hread.
    by rewrite bool_decide_false.
Qed.

Section Identity.

Lemma keepsIdentity_refl (files : Files) : keepsIdentity files files.
Proof. intros p fileInfo' H. by exists fileInfo'. Qed.

Lemma keepsIdentity_trans (files1 files2 files3 : Files) :
  keepsIdentity files1 files2 → keepsIdentity files2 files3 → keepsIdentity files1 files3.
Proof.
  intros H12 H23 p fileInfo3 H3.
  destruct (H23 p fileInfo3 H3) as (fileInfo2 & H2 & -> & ->).
  apply (H12 p fileInfo2 H2).
Qed.

Lemma touched_keepsIdentity (abs : AbsFilePath) (files files' : Files) :
  touched abs files files' → keepsIdentity files files'.
Proof.
  intros [] p fileInfo' H.
  - by exists fileInfo'.
  - apply lookup_delete_Some in H as [_ H]. by exists fileInfo'.
  - unfold setAgentView in H. apply lookup_alter_Some in H
      as [(-> & fileInfo & Hf & ->)|[_ H]]; eauto.
Qed.

Lemma reconcileAll_keepsIdentity (w : World) (paths : list AbsFilePath)
    (results : FileUpdates) (rejected : option JsError) (files : Files) :
  keepsIdentity files (reconcileAll w paths results rejected files).2.
Proof.
  revert results rejected files.
  induction paths as [|q rest IH]; intros results rejected files.
  - apply keepsIdentity_refl.
  - cbn [reconcileAll].
    pose proof (touched_keepsIdentity q files _ (reconcile_touched w q files)) as Hq.
    destruct (getFileMessageAndUpdateAgentViewOfFile w q files) as [[[e|]|err] files1];
      simpl in Hq; eapply keepsIdentity_trans; eauto.
Qed.

End Identity.

(** X3. Whatever a pass answers, it tracks no new path, and every file that
    is still tracked after it has kept its relative path and its file type:
    only agent views change, and files are dropped. *)
Theorem pass_keeps_paths_and_types (w : World) (files : Files) :
  keepsIdentity files (getContextUpdate w files).2.
Proof.
  unfold getContextUpdate. destruct (isContextEmpty files).
  - apply keepsIdentity_refl.
  - pose proof (reconcileAll_keepsIdentity w (keys files) ∅ None files) as H.
    by destruct (reconcileAll w (keys files) ∅ None files) as [[r [err|]] f].
Qed.

(** The entry that a reconciliation returns names the path it was asked for,
    and the path relative to the working directory. *)
Lemma reconcile_entry_names_its_path (w : World) (files : Files) (abs : AbsFilePath)
    (e : FileUpdateEntry) :
  (getFileMessageAndUpdateAgentViewOfFile w abs files).1 = Return (Some e) →
  entryAbsFilePath e = abs
  ∧ entryRelFilePath e = relativePath w abs
  ∧ is_Some (files !! abs).
Proof.
  unfold getFileMessageAndUpdateAgentViewOfFile.
  destruct (files !! abs) as [fileInfo|]; last done.
  unfold handleTextFileUpdate, handleBinaryFileUpdate, compareWithAgentView.
  repeat case_match; simpl; intros [= <-]; eauto.
Qed.

(** X4. Every entry of the map that a pass returns is filed under the path
    it names, belongs to a file that was tracked when the pass began, and
    carries the path relative to the working directory as it is computed
    during the pass, not the relative path stored when the file was added. *)
Theorem pass_entries_name_their_paths (w : World) (files files' : Files)
    (results : FileUpdates) (p : AbsFilePath) (e : FileUpdateEntry) :
  getContextUpdate w files = (Return results, files') →
  results !! p = Some e →
  entryAbsFilePath e = p
  ∧ entryRelFilePath e = relativePath w p
  ∧ is_Some (files !! p).
Proof.
  intros Hpass He.
  destruct (getContextUpdate_at w files files' results p Hpass) as [Hr _].
  rewrite He in Hr. apply reconcile_entry_names_its_path.
  by destruct (getFileMessageAndUpdateAgentViewOfFile w p files).1 as [[e'|]|];
    simplify_eq.
Qed.

Lemma pass_entries_name_their_paths_witness :
  entryAbsFilePath {| entryAbsFilePath := "/a.txt"; entryRelFilePath := "a.txt";
                      update_ := StatusOk (WholeFileUpdate "foo") |} = "/a.txt"
  ∧ entryRelFilePath {| entryAbsFilePath := "/a.txt"; entryRelFilePath := "a.txt";
                        update_ := StatusOk (WholeFileUpdate "foo") |}
    = relativePath (Samples.onDisk 5 "foo") "/a.txt"
  ∧ is_Some (({[ "/a.txt" := Samples.tracked "docs/a.txt" Samples.textInfo None ]} : Files)
               !! "/a.txt").
Proof.
  refine (pass_entries_name_their_paths (Samples.onDisk 5 "foo")
            {[ "/a.txt" := Samples.tracked "docs/a.txt" Samples.textInfo None ]}
            _ _ "/a.txt" _ _ _); reflexivity.
Defined.

Lemma pass_keeps_paths_and_types_witness :
  ∃ fileInfo,
    ({[ "/a.txt" := Samples.tracked "docs/a.txt" Samples.textInfo None;
        "/gone.txt" := Samples.tracked "gone.txt" Samples.textInfo None ]} : Files)
      !! "/a.txt" = Some fileInfo
    ∧ relFilePath (Samples.tracked "docs/a.txt" Samples.textInfo (Some (AgentText "foo")))
      = relFilePath fileInfo
    ∧ fileTypeInfo (Samples.tracked "docs/a.txt" Samples.textInfo (Some (AgentText "foo")))
      = fileTypeInfo fileInfo.
Proof.
  refine (pass_keeps_paths_and_types
            (Samples.world true (Return 5%Z)
               (λ p, if String.eqb p "/gone.txt" then Throw Samples.enoent else Return "foo")
               None (Return 0%Z) [] (Return (StatusOk "")))
            {[ "/a.txt" := Samples.tracked "docs/a.txt" Samples.textInfo None;
               "/gone.txt" := Samples.tracked "gone.txt" Samples.textInfo None ]}
            "/a.txt" _ _).
  reflexivity.
Defined.

(** ** Text files that are open in a buffer *)

(** X5. A tracked text file that is found on disk and is open in a buffer:
    its reconciliation never throws and never drops the file.  Either it
    answers with an error and leaves the registry as it was, or it has read
    the lines of the buffer and compares the agent's view with these lines
    joined by newlines. *)
Theorem open_buffer_is_reconciled_from_its_lines (w : World) (files : Files)
    (abs : AbsFilePath) (fileInfo : FileInfo) (b : BufSyncInfo) :
  files !! abs = Some fileInfo →
  category (fileTypeInfo fileInfo) = TEXT →
  existsSync w abs = true →
  getSyncInfo w abs = Some b →
  (∃ error,
     getFileMessageAndUpdateAgentViewOfFile w abs files
     = (Return (Some {| entryAbsFilePath := abs;
                        entryRelFilePath := relativePath w abs;
                        update_ := StatusError error |}), files))
  ∨ (∃ reloaded lines,
       getLines w (bufnr b) reloaded = Return lines
       ∧ getFileMessageAndUpdateAgentViewOfFile w abs files
         = compareWithAgentView abs (relativePath w abs) fileInfo (joinLines lines) files).
Proof.
  intros Hf Hcat Hex Hbuf.
  unfold getFileMessageAndUpdateAgentViewOfFile. rewrite Hf, Hex. simpl.
  rewrite bool_decide_true by done.
  unfold handleTextFileUpdate. rewrite Hbuf.
  destruct (readThroughBuffer w abs b) as [[conflict|content]|err] eqn:Hread;
    [left; by eexists | | left; by eexists].
  right. unfold readThroughBuffer, obind in Hread.
  repeat case_match; simplify_eq; eauto.
Qed.

Lemma open_buffer_is_reconciled_from_its_lines_witness :
  (∃ error,
     getFileMessageAndUpdateAgentViewOfFile
       (Samples.world true (Return 5%Z) (λ _, Return "on disk")
          (Some {| bufnr := 3; mtime := 5; changeTick := 7 |}) (Return 8%Z)
          ["in"; "buffer"] (Return (StatusOk "")))
       "/a.txt" {[ "/a.txt" := Samples.tracked "a.txt" Samples.textInfo None ]}
     = (Return (Some {| entryAbsFilePath := "/a.txt";
                        entryRelFilePath := "a.txt";
                        update_ := StatusError error |}),
        {[ "/a.txt" := Samples.tracked "a.txt" Samples.textInfo None ]}))
  ∨ (∃ (reloaded : bool) (lines : list string),
       Return ["in"; "buffer"] = Return lines
       ∧ getFileMessageAndUpdateAgentViewOfFile
           (Samples.world true (Return 5%Z) (λ _, Return "on disk")
              (Some {| bufnr := 3; mtime := 5; changeTick := 7 |}) (Return 8%Z)
              ["in"; "buffer"] (Return (StatusOk "")))
           "/a.txt" {[ "/a.txt" := Samples.tracked "a.txt" Samples.textInfo None ]}
         = compareWithAgentView "/a.txt" "a.txt"
             (Samples.tracked "a.txt" Samples.textInfo None) (joinLines lines)
             {[ "/a.txt" := Samples.tracked "a.txt" Samples.textInfo None ]}).
Proof.
  refine (open_buffer_is_reconciled_from_its_lines
            (Samples.world true (Return 5%Z) (λ _, Return "on disk")
               (Some {| bufnr := 3; mtime := 5; changeTick := 7 |}) (Return 8%Z)
               ["in"; "buffer"] (Return (StatusOk "")))
            {[ "/a.txt" := Samples.tracked "a.txt" Samples.textInfo None ]}
            "/a.txt" (Samples.tracked "a.txt" Samples.textInfo None)
            {| bufnr := 3; mtime := 5; changeTick := 7 |} _ _ _ _); reflexivity.
Defined.

(** X6. A tracked text file that is open in a buffer, whose modification
    time and change counter can be read.  When the disk is not newer than
    the last synchronisation, the buffer is not reloaded and its lines are
    what the agent's view is compared with, whether the buffer has changed or
    not.  When the disk is newer and the buffer has not changed, the buffer
    is first reloaded: a failure of the reload is an error of the file, which
    leaves the registry as it was, and otherwise the reloaded lines are
    compared. *)
Theorem buffer_is_reloaded_when_only_the_disk_changed (w : World) (files : Files)
    (abs : AbsFilePath) (fileInfo : FileInfo) (b : BufSyncInfo) (diskMtime tick : Z) :
  files !! abs = Some fileInfo →
  category (fileTypeInfo fileInfo) = TEXT →
  existsSync w abs = true →
  getSyncInfo w abs = Some b →
  statSync w abs = Return diskMtime →
  getChangeTick w (bufnr b) = Return tick →
  ((diskMtime ≤ mtime b)%Z →
   ∀ lines,
     getLines w (bufnr b) false = Return lines →
     getFileMessageAndUpdateAgentViewOfFile w abs files
     = compareWithAgentView abs (relativePath w abs) fileInfo (joinLines lines) files)
  ∧ (changeTick b = tick → (mtime b < diskMtime)%Z →
     (∀ err,
        attemptEdit w (bufnr b) = Throw err →
        getFileMessageAndUpdateAgentViewOfFile w abs files
        = (Return (Some {| entryAbsFilePath := abs;
                           entryRelFilePath := relativePath w abs;
                           update_ := StatusError (grabError abs err) |}),
           files))
     ∧ ∀ lines,
         attemptEdit w (bufnr b) = Return () →
         getLines w (bufnr b) true = Return lines →
         getFileMessageAndUpdateAgentViewOfFile w abs files
         = compareWithAgentView abs (relativePath w abs) fileInfo (joinLines lines) files).
Proof.
  intros Hf Hcat Hex Hbuf Hstat Htick.
  unfold getFileMessageAndUpdateAgentViewOfFile. rewrite Hf, Hex. simpl.
  rewrite bool_decide_true by done.
  unfold handleTextFileUpdate. rewrite Hbuf.
  unfold readThroughBuffer. rewrite Hstat, Htick. simpl.
  split.
  - intros Hle lines Hlines.
    replace (mtime b <? diskMtime)%Z with false by (symmetry; apply Z.ltb_ge; lia).
    rewrite andb_false_r. simpl. by rewrite Hlines.
  - intros Hsame Hlt. apply Z.ltb_lt in Hlt. rewrite Hlt.
    replace (changeTick b =? tick)%Z with true by (symmetry; by apply Z.eqb_eq).
    simpl. split.
    + intros err ->. done.
    + intros lines -> Hlines. simpl. by rewrite Hlines.
Qed.

Lemma buffer_is_reloaded_when_only_the_disk_changed_witness :
  getFileMessageAndUpdateAgentViewOfFile
    (Samples.world true (Return 9%Z) (λ _, Return "on disk")
       (Some {| bufnr := 3; mtime := 5; changeTick := 7 |}) (Return 7%Z)
       ["reloaded"] (Return (StatusOk "")))
    "/a.txt" {[ "/a.txt" := Samples.tracked "a.txt" Samples.textInfo None ]}
  = compareWithAgentView "/a.txt" "a.txt" (Samples.tracked "a.txt" Samples.textInfo None)
      (joinLines ["reloaded"])
      {[ "/a.txt" := Samples.tracked "a.txt" Samples.textInfo None ]}.
Proof.
  refine (proj2 (proj2 (buffer_is_reloaded_when_only_the_disk_changed
            (Samples.world true (Return 9%Z) (λ _, Return "on disk")
               (Some {| bufnr := 3; mtime := 5; changeTick := 7 |}) (Return 7%Z)
               ["reloaded"] (Return (StatusOk "")))
            {[ "/a.txt" := Samples.tracked "a.txt" Samples.textInfo None ]}
            "/a.txt" (Samples.tracked "a.txt" Samples.textInfo None)
            {| bufnr := 3; mtime := 5; changeTick := 7 |} 9 7 _ _ _ _ _ _) _ _)
            ["reloaded"] _ _);
    first [reflexivity | simpl; lia].
Defined.

(** ** Images and PDFs *)

(** X7. A tracked file that is not a text file and is found on disk: its
    reconciliation never throws and never drops the file; an entry that is
    not an error carries the whole file, never a diff and never a deletion;
    and when the modification time cannot be read, the answer is an error
    that leaves the registry as it was. *)
Theorem binary_reconciliation_is_whole_file_or_error (w : World) (files : Files)
    (abs : AbsFilePath) (fileInfo : FileInfo) :
  files !! abs = Some fileInfo →
  category (fileTypeInfo fileInfo) ≠ TEXT →
  existsSync w abs = true →
  ∃ r files',
    getFileMessageAndUpdateAgentViewOfFile w abs files = (Return r, files')
    ∧ is_Some (files' !! abs)
    ∧ (∀ e u, r = Some e → update_ e = StatusOk u → ∃ content, u = WholeFileUpdate content)
    ∧ ∀ err,
        statSync w abs = Throw err →
        r = Some {| entryAbsFilePath := abs;
                    entryRelFilePath := relativePath w abs;
                    update_ := StatusError (statError abs err) |}
        ∧ files' = files.
Proof.
  intros Hf Hcat Hex.
  unfold getFileMessageAndUpdateAgentViewOfFile. rewrite Hf, Hex. simpl.
  rewrite bool_decide_false by done.
  assert (Hview : ∀ v, is_Some (setAgentView abs v files !! abs)).
  { intros v. unfold setAgentView. rewrite lookup_alter_eq, Hf. by eexists. }
  unfold handleBinaryFileUpdate.
  repeat case_match; eexists _, _; (split; first done); (split; first by auto);
    (split; [by intros ? ? [= <-] [= <-]; eauto | by intros ? [= <-]]).
Qed.

Lemma binary_reconciliation_is_whole_file_or_error_witness :
  ∃ r files',
    getFileMessageAndUpdateAgentViewOfFile
      (Samples.world true (Throw Samples.eacces) (λ _, Return "GIF89a") None (Return 0%Z) []
         (Return (StatusOk "")))
      "/pic.gif" {[ "/pic.gif" := Samples.tracked "pic.gif" Samples.imageInfo None ]}
    = (Return r, files')
    ∧ is_Some (files' !! "/pic.gif")
    ∧ (∀ e u, r = Some e → update_ e = StatusOk u → ∃ content, u = WholeFileUpdate content)
    ∧ ∀ err,
        @Throw Z Samples.eacces = Throw err →
        r = Some {| entryAbsFilePath := "/pic.gif";
                    entryRelFilePath := "pic.gif";
                    update_ := StatusError (statError "/pic.gif" err) |}
        ∧ files' = {[ "/pic.gif" := Samples.tracked "pic.gif" Samples.imageInfo None ]}.
Proof.
  refine (binary_reconciliation_is_whole_file_or_error
            (Samples.world true (Throw Samples.eacces) (λ _, Return "GIF89a") None
               (Return 0%Z) [] (Return (StatusOk "")))
            {[ "/pic.gif" := Samples.tracked "pic.gif" Samples.imageInfo None ]}
            "/pic.gif" (Samples.tracked "pic.gif" Samples.imageInfo None) _ _ _);
    first [reflexivity | discriminate].
Defined.

(** X8. A tracked PDF that is found on disk and whose modification time can
    be read.  When the agent's view holds no modification time, or an older
    one, and the extractor gives the text, the answer is the whole file with
    that text; when the extractor throws, the answer is an error with the
    text of the thrown error.  When the agent's view holds a modification
    time that is not zero and the disk is not newer, there is no update,
    whatever the extractor would answer.  The time on disk becomes the
    agent's view in each case. *)
Theorem pdf_update_follows_mtime (w : World) (files : Files) (abs : AbsFilePath)
    (fileInfo : FileInfo) (currentMtime : Z) :
  files !! abs = Some fileInfo →
  category (fileTypeInfo fileInfo) = PDF →
  existsSync w abs = true →
  statSync w abs = Return currentMtime →
  (match agentView fileInfo with
   | Some (AgentBinary prevMtime) => (prevMtime < currentMtime)%Z
   | _ => True
   end →
   (∀ text,
      extractPdfText w abs = Return (StatusOk text) →
      getFileMessageAndUpdateAgentViewOfFile w abs files
      = (Return (Some {| entryAbsFilePath := abs;
                         entryRelFilePath := relativePath w abs;
                         update_ := StatusOk (WholeFileUpdate text) |}),
         setAgentView abs (Some (AgentBinary currentMtime)) files))
   ∧ ∀ err,
       extractPdfText w abs = Throw err →
       getFileMessageAndUpdateAgentViewOfFile w abs files
       = (Return (Some {| entryAbsFilePath := abs;
                          entryRelFilePath := relativePath w abs;
                          update_ := StatusError (statError abs err) |}),
          setAgentView abs (Some (AgentBinary currentMtime)) files))
  ∧ ∀ prevMtime,
      agentView fileInfo = Some (AgentBinary prevMtime) →
      prevMtime ≠ 0%Z →
      (currentMtime ≤ prevMtime)%Z →
      getFileMessageAndUpdateAgentViewOfFile w abs files
      = (Return None, setAgentView abs (Some (AgentBinary currentMtime)) files).
Proof.
  intros Hf Hcat Hex Hstat.
  unfold getFileMessageAndUpdateAgentViewOfFile. rewrite Hf, Hex. simpl.
  rewrite bool_decide_false by (rewrite Hcat; done).
  unfold handleBinaryFileUpdate. rewrite Hstat.
  rewrite (bool_decide_true (_ = PDF)) by done.
  split.
  - intros Hnew.
    assert (notNewer match agentView fileInfo with
                     | Some (AgentBinary mtime) => Some mtime
                     | _ => None
                     end currentMtime = false) as ->.
    { destruct (agentView fileInfo) as [[?|prevMtime]|]; try done.
      unfold notNewer. apply andb_false_iff. right. by apply Z.leb_gt. }
    split; [intros text ->|intros err ->]; done.
  - intros prevMtime Hv Hnz Hle. rewrite Hv. unfold notNewer.
    apply Z.eqb_neq in Hnz. apply Z.leb_le in Hle. by rewrite Hnz, Hle.
Qed.

Lemma pdf_update_follows_mtime_witness :
  getFileMessageAndUpdateAgentViewOfFile
    (Samples.world true (Return 5%Z) (λ _, Return "%PDF-1.7") None (Return 0%Z) []
       (Return (StatusOk "page one")))
    "/doc.pdf" {[ "/doc.pdf" := Samples.tracked "doc.pdf" Samples.pdfInfo None ]}
  = (Return (Some {| entryAbsFilePath := "/doc.pdf";
                     entryRelFilePath := "doc.pdf";
                     update_ := StatusOk (WholeFileUpdate "page one") |}),
     {[ "/doc.pdf" := Samples.tracked "doc.pdf" Samples.pdfInfo (Some (AgentBinary 5)) ]}).
Proof.
  refine (proj1 (proj1 (pdf_update_follows_mtime
            (Samples.world true (Return 5%Z) (λ _, Return "%PDF-1.7") None (Return 0%Z) []
               (Return (StatusOk "page one")))
            {[ "/doc.pdf" := Samples.tracked "doc.pdf" Samples.pdfInfo None ]}
            "/doc.pdf" (Samples.tracked "doc.pdf" Samples.pdfInfo None) 5 _ _ _ _) _)
            "page one" _); first [reflexivity | exact I].
Defined.

(** ** Adding and removing files *)

(** X9. Adding a text file to the context, tracked before or not, tracks it
    under the given relative path and type with no agent view and leaves the
    other files alone; the next reconciliation that reads it from disk
    sends the whole file, whatever the agent had been shown of it before. *)
Theorem added_text_file_is_sent_whole (w w' : World) (files : Files)
    (rel : RelFilePath) (abs : AbsFilePath) (info : FileTypeInfo) (content : string) :
  category info = TEXT →
  existsSync w' abs = true →
  getSyncInfo w' abs = None →
  readFileSync w' abs = Return content →
  update w (AddFileContext rel abs info) files
  = (Return (),
     <[abs := {| relFilePath := rel; fileTypeInfo := info; agentView := None |}]> files)
  ∧ getFileMessageAndUpdateAgentViewOfFile w' abs
      (update w (AddFileContext rel abs info) files).2
    = (Return (Some {| entryAbsFilePath := abs;
                       entryRelFilePath := relativePath w' abs;
                       update_ := StatusOk (WholeFileUpdate content) |}),
       <[abs := {| relFilePath := rel; fileTypeInfo := info;
                   agentView := Some (AgentText content) |}]> files).
Proof.
  intros Hcat Hex Hbuf Hread.
  assert (update w (AddFileContext rel abs info) files
          = (Return (),
             <[abs := {| relFilePath := rel; fileTypeInfo := info; agentView := None |}]>
               files)) as E.
  { unfold update. rewrite bool_decide_false by (rewrite Hcat; done). done. }
  split; first done. rewrite E. cbn [snd].
  rewrite (reconcile_text_on_disk w' _ abs
             {| relFilePath := rel; fileTypeInfo := info; agentView := None |} content)
    by (done || by rewrite lookup_insert_eq).
  unfold compareWithAgentView. cbn [agentView]. f_equal.
  unfold setAgentView. apply map_eq. intros p.
  destruct (decide (abs = p)) as [<-|Hne].
  - by rewrite lookup_alter_eq, !lookup_insert_eq.
  - by rewrite lookup_alter_ne, !lookup_insert_ne.
Qed.

Lemma added_text_file_is_sent_whole_witness :
  update (Samples.onDisk 5 "foo") (AddFileContext "a.txt" "/a.txt" Samples.textInfo)
    {[ "/a.txt" := Samples.tracked "old/a.txt" Samples.textInfo (Some (AgentText "foo")) ]}
  = (Return (), {[ "/a.txt" := Samples.tracked "a.txt" Samples.textInfo None ]})
  ∧ getFileMessageAndUpdateAgentViewOfFile (Samples.onDisk 5 "foo") "/a.txt"
      (update (Samples.onDisk 5 "foo") (AddFileContext "a.txt" "/a.txt" Samples.textInfo)
         {[ "/a.txt" := Samples.tracked "old/a.txt" Samples.textInfo
                          (Some (AgentText "foo")) ]}).2
    = (Return (Some {| entryAbsFilePath := "/a.txt";
                       entryRelFilePath := "a.txt";
                       update_ := StatusOk (WholeFileUpdate "foo") |}),
       {[ "/a.txt" := Samples.tracked "a.txt" Samples.textInfo (Some (AgentText "foo")) ]}).
Proof.
  refine (added_text_file_is_sent_whole (Samples.onDisk 5 "foo") (Samples.onDisk 5 "foo")
            {[ "/a.txt" := Samples.tracked "old/a.txt" Samples.textInfo
                             (Some (AgentText "foo")) ]}
            "a.txt" "/a.txt" Samples.textInfo "foo" _ _ _ _); reflexivity.
Defined.

(** X10. Removing a file from the context never throws.  In a later pass
    that returns, the path has no entry and stays untracked, and every other
    path has the entry it would have had with the file still in the context:
    the removal changes nothing for the other files. *)
Theorem removed_file_leaves_the_others_alone (w w' : World) (files files' : Files)
    (abs : AbsFilePath) (results : FileUpdates) :
  getContextUpdate w' (update w (RemoveFileContext abs) files).2 = (Return results, files') →
  (update w (RemoveFileContext abs) files).1 = Return ()
  ∧ results !! abs = None
  ∧ files' !! abs = None
  ∧ ∀ p, p ≠ abs →
      results !! p
      = match (getFileMessageAndUpdateAgentViewOfFile w' p files).1 with
        | Return (Some e) => Some e
        | _ => None
        end
      ∧ files' !! p = (getFileMessageAndUpdateAgentViewOfFile w' p files).2 !! p.
Proof.
  cbn [update snd fst]. intros Hpass. split; first done.
  destruct (getContextUpdate_at w' _ files' results abs Hpass) as [Ha Hfa].
  unfold getFileMessageAndUpdateAgentViewOfFile in Ha, Hfa.
  rewrite lookup_delete_eq in Ha, Hfa. simpl in Ha, Hfa.
  rewrite lookup_delete_eq in Hfa.
  split; first done. split; first done.
  intros p Hne.
  destruct (getContextUpdate_at w' _ files' results p Hpass) as [-> ->].
  destruct (reconcile_local w' p (delete abs files) files) as [-> ->]; last done.
  by rewrite lookup_delete_ne.
Qed.

Lemma removed_file_leaves_the_others_alone_witness :
  (update (Samples.onDisk 5 "foo") (RemoveFileContext "/b.txt")
     {[ "/a.txt" := Samples.tracked "a.txt" Samples.textInfo None;
        "/b.txt" := Samples.tracked "b.txt" Samples.textInfo None ]}).1 = Return ()
  ∧ ({[ "/a.txt" := {| entryAbsFilePath := "/a.txt"; entryRelFilePath := "a.txt";
                       update_ := StatusOk (WholeFileUpdate "foo") |} ]} : FileUpdates)
      !! "/b.txt" = None
  ∧ ({[ "/a.txt" := Samples.tracked "a.txt" Samples.textInfo (Some (AgentText "foo")) ]}
       : Files) !! "/b.txt" = None
  ∧ ∀ p, p ≠ "/b.txt" →
      ({[ "/a.txt" := {| entryAbsFilePath := "/a.txt"; entryRelFilePath := "a.txt";
                         update_ := StatusOk (WholeFileUpdate "foo") |} ]} : FileUpdates)
        !! p
      = match (getFileMessageAndUpdateAgentViewOfFile (Samples.onDisk 5 "foo") p
                 {[ "/a.txt" := Samples.tracked "a.txt" Samples.textInfo None;
                    "/b.txt" := Samples.tracked "b.txt" Samples.textInfo None ]}).1
        with
        | Return (Some e) => Some e
        | _ => None
        end
      ∧ ({[ "/a.txt" := Samples.tracked "a.txt" Samples.textInfo (Some (AgentText "foo")) ]}
           : Files) !! p
        = (getFileMessageAndUpdateAgentViewOfFile (Samples.onDisk 5 "foo") p
             {[ "/a.txt" := Samples.tracked "a.txt" Samples.textInfo None;
                "/b.txt" := Samples.tracked "b.txt" Samples.textInfo None ]}).2 !! p.
Proof.
  refine (removed_file_leaves_the_others_alone (Samples.onDisk 5 "foo")
            (Samples.onDisk 5 "foo")
            {[ "/a.txt" := Samples.tracked "a.txt" Samples.textInfo None;
               "/b.txt" := Samples.tracked "b.txt" Samples.textInfo None ]}
            _ "/b.txt" _ _).
  reflexivity.
Defined.

(** X11. Adding a file that was not tracked and removing it again leaves the
    registry exactly as it was; neither step throws when the category is a
    supported one. *)
Theorem add_then_remove_restores_the_registry (w : World) (files : Files)
    (rel : RelFilePath) (abs : AbsFilePath) (info : FileTypeInfo) :
  files !! abs = None →
  category info ≠ UNSUPPORTED →
  (update w (AddFileContext rel abs info) files).1 = Return ()
  ∧ update w (RemoveFileContext abs) (update w (AddFileContext rel abs info) files).2
    = (Return (), files).
Proof.
  intros Hnone Hcat. unfold update. rewrite bool_decide_false by done.
  split; first done. cbn [snd]. by rewrite delete_insert_id.
Qed.

Lemma add_then_remove_restores_the_registry_witness :
  (update (Samples.onDisk 5 "foo") (AddFileContext "b.png" "/b.png" Samples.imageInfo)
     {[ "/a.txt" := Samples.tracked "a.txt" Samples.textInfo None ]}).1 = Return ()
  ∧ update (Samples.onDisk 5 "foo") (RemoveFileContext "/b.png")
      (update (Samples.onDisk 5 "foo") (AddFileContext "b.png" "/b.png" Samples.imageInfo)
         {[ "/a.txt" := Samples.tracked "a.txt" Samples.textInfo None ]}).2
    = (Return (), {[ "/a.txt" := Samples.tracked "a.txt" Samples.textInfo None ]}).
Proof.
  refine (add_then_remove_restores_the_registry _ _ _ _ _ _ _);
    first [reflexivity | discriminate].
Defined.

(** ** Tools applied by the agent *)

(** What stands under the path once the tool's file is in the context: the
    entry that was there, or a new one with the path relative to the working
    directory, the type given with the tool and no agent view. *)
Lemma tool_applied_entry (w : World) (files : Files) (abs : AbsFilePath)
    (info : FileTypeInfo) :
  match files !! abs with
  | None =>
      <[abs := {| relFilePath := relativePath w abs; fileTypeInfo := info;
                  agentView := None |}]> files
  | Some _ => files
  end !! abs
  = Some (default {| relFilePath := relativePath w abs; fileTypeInfo := info;
                     agentView := None |} (files !! abs)).
Proof.
  destruct (files !! abs) as [fileInfo|] eqn:Hf; simpl; first done.
  by rewrite lookup_insert_eq.
Qed.

(** X12. When the agent has read a file with the get-file tool, the file is
    in the context, under its own entry if it was tracked and under a new one
    otherwise, with the text the tool returned as the agent's view; this
    never throws, whatever the type of the file and the text are.  If the
    file is a text file, a reconciliation that then reads the same text from
    disk, the text not being empty, has no update and changes nothing. *)
Theorem file_read_by_the_agent_is_not_sent_again (w w' : World) (files : Files)
    (abs : AbsFilePath) (info : FileTypeInfo) (content : string) :
  let fileInfo :=
    default {| relFilePath := relativePath w abs; fileTypeInfo := info; agentView := None |}
      (files !! abs) in
  let seen :=
    {| relFilePath := relFilePath fileInfo; fileTypeInfo := fileTypeInfo fileInfo;
       agentView := Some (AgentText content) |} in
  update w (ToolApplied abs (GetFile content) info) files = (Return (), <[abs := seen]> files)
  ∧ (category (fileTypeInfo fileInfo) = TEXT →
     content ≠ "" →
     existsSync w' abs = true →
     getSyncInfo w' abs = None →
     readFileSync w' abs = Return content →
     getFileMessageAndUpdateAgentViewOfFile w' abs (<[abs := seen]> files)
     = (Return None, <[abs := seen]> files)).
Proof.
  intros fileInfo seen.
  split.
  - unfold update, updateAgentsViewOfFiles. rewrite tool_applied_entry.
    fold fileInfo. f_equal. unfold setAgentView. apply map_eq. intros p.
    destruct (decide (abs = p)) as [<-|Hp].
    + rewrite lookup_alter_eq, tool_applied_entry, lookup_insert_eq. done.
    + rewrite lookup_alter_ne, lookup_insert_ne by done.
      destruct (files !! abs); by rewrite ?lookup_insert_ne.
  - intros Hcat Hne Hex Hbuf Hread.
    apply (unchanged_text_has_no_update w' _ abs seen content); try done.
    by rewrite lookup_insert_eq.
Qed.

Lemma file_read_by_the_agent_is_not_sent_again_witness :
  update (Samples.onDisk 5 "foo") (ToolApplied "/a.txt" (GetFile "foo") Samples.textInfo) ∅
  = (Return (), {[ "/a.txt" := Samples.tracked "a.txt" Samples.textInfo
                                 (Some (AgentText "foo")) ]})
  ∧ getFileMessageAndUpdateAgentViewOfFile (Samples.onDisk 5 "foo") "/a.txt"
      {[ "/a.txt" := Samples.tracked "a.txt" Samples.textInfo (Some (AgentText "foo")) ]}
    = (Return None,
       {[ "/a.txt" := Samples.tracked "a.txt" Samples.textInfo (Some (AgentText "foo")) ]}).
Proof.
  refine ((λ H, conj (proj1 H) (proj2 H _ _ _ _ _))
            (file_read_by_the_agent_is_not_sent_again (Samples.onDisk 5 "foo")
               (Samples.onDisk 5 "foo") ∅ "/a.txt" Samples.textInfo "foo"));
    first [reflexivity | discriminate].
Defined.

(** X13. An insert or a replace applied to a tracked text file of which the
    agent has a text: the agent's text is edited in the same way and
    nothing else changes; when the edit cannot be applied to the agent's
    text, the update throws and the registry is left as it was.  After an
    edit, a reconciliation that reads the edited text from disk, the text not
    being empty, has no update. *)
Theorem edit_by_the_agent_edits_its_view (w w' : World) (files : Files)
    (abs : AbsFilePath) (info : FileTypeInfo) (fileInfo : FileInfo)
    (viewContent : string) (tool : ToolApplication) (result : EditResult) :
  files !! abs = Some fileInfo →
  category (fileTypeInfo fileInfo) = TEXT →
  agentView fileInfo = Some (AgentText viewContent) →
  (∃ insertAfter content,
     tool = Insert insertAfter content
     ∧ result = applyInsert w viewContent insertAfter content)
  ∨ (∃ find replace,
       tool = Replace find replace
       ∧ result = applyReplace w viewContent find replace) →
  match result with
  | EditOk edited =>
      update w (ToolApplied abs tool info) files
      = (Return (), setAgentView abs (Some (AgentText edited)) files)
      ∧ (edited ≠ "" →
         existsSync w' abs = true →
         getSyncInfo w' abs = None →
         readFileSync w' abs = Return edited →
         getFileMessageAndUpdateAgentViewOfFile w' abs
           (setAgentView abs (Some (AgentText edited)) files)
         = (Return None, setAgentView abs (Some (AgentText edited)) files))
  | EditError error =>
      update w (ToolApplied abs tool info) files
      = (Throw (newError ("Failed to update agent's view of " +:+ abs +:+ ": " +:+ error)),
         files)
  end.
Proof.
  intros Hf Hcat Hv Htool.
  assert (update w (ToolApplied abs tool info) files
          = match result with
            | EditOk edited => (Return (), setAgentView abs (Some (AgentText edited)) files)
            | EditError error =>
                (Throw (newError
                   ("Failed to update agent's view of " +:+ abs +:+ ": " +:+ error)),
                 files)
            end) as E.
  { unfold update, updateAgentsViewOfFiles. rewrite Hf, Hf.
    destruct Htool as [(a & c & -> & ->)|(a & c & -> & ->)];
      rewrite bool_decide_true by done; simpl; rewrite Hv; done. }
  destruct result as [edited|error]; last done.
  split; first done.
  intros Hne Hex Hbuf Hread.
  apply (unchanged_text_has_no_update w' _ abs
           {| relFilePath := relFilePath fileInfo; fileTypeInfo := fileTypeInfo fileInfo;
              agentView := Some (AgentText edited) |} edited); try done.
  unfold setAgentView. by rewrite lookup_alter_eq, Hf.
Qed.

Lemma edit_by_the_agent_edits_its_view_witness :
  update (Samples.appending (Samples.onDisk 5 "foobar"))
    (ToolApplied "/a.txt" (Insert "foo" "bar") Samples.textInfo)
    {[ "/a.txt" := Samples.tracked "a.txt" Samples.textInfo (Some (AgentText "foo")) ]}
  = (Return (),
     setAgentView "/a.txt" (Some (AgentText "foobar"))
       {[ "/a.txt" := Samples.tracked "a.txt" Samples.textInfo (Some (AgentText "foo")) ]})
  ∧ ("foobar" ≠ "" →
     existsSync (Samples.onDisk 5 "foobar") "/a.txt" = true →
     getSyncInfo (Samples.onDisk 5 "foobar") "/a.txt" = None →
     readFileSync (Samples.onDisk 5 "foobar") "/a.txt" = Return "foobar" →
     getFileMessageAndUpdateAgentViewOfFile (Samples.onDisk 5 "foobar") "/a.txt"
       (setAgentView "/a.txt" (Some (AgentText "foobar"))
          {[ "/a.txt" := Samples.tracked "a.txt" Samples.textInfo (Some (AgentText "foo")) ]})
     = (Return None,
        setAgentView "/a.txt" (Some (AgentText "foobar"))
          {[ "/a.txt" := Samples.tracked "a.txt" Samples.textInfo
                           (Some (AgentText "foo")) ]})).
Proof.
  refine (edit_by_the_agent_edits_its_view (Samples.appending (Samples.onDisk 5 "foobar"))
            (Samples.onDisk 5 "foobar")
            {[ "/a.txt" := Samples.tracked "a.txt" Samples.textInfo (Some (AgentText "foo")) ]}
            "/a.txt" Samples.textInfo
            (Samples.tracked "a.txt" Samples.textInfo (Some (AgentText "foo")))
            "foo" (Insert "foo" "bar") (EditOk "foobar") _ _ _ _);
    [reflexivity | reflexivity | reflexivity |].
  left. exists "foo", "bar". split; reflexivity.
Defined.

(** X14. An insert or a replace applied to a file that is not a text file,
    or to a text file of which the agent has a binary view, is refused: the
    update throws.  The file is in the context afterwards all the same, with
    the entry it had or, if it was not tracked, with a new entry without
    agent view. *)
Theorem edit_of_a_binary_file_is_refused (w : World) (files : Files) (abs : AbsFilePath)
    (info : FileTypeInfo) (tool : ToolApplication) :
  let fileInfo :=
    default {| relFilePath := relativePath w abs; fileTypeInfo := info; agentView := None |}
      (files !! abs) in
  (∃ insertAfter content, tool = Insert insertAfter content)
  ∨ (∃ find replace, tool = Replace find replace) →
  category (fileTypeInfo fileInfo) ≠ TEXT
  ∨ (∃ mtime, agentView fileInfo = Some (AgentBinary mtime)) →
  ∃ err,
    update w (ToolApplied abs tool info) files = (Throw err, <[abs := fileInfo]> files).
Proof.
  intros fileInfo Htool Hwhy.
  assert (Hafter : match files !! abs with
                   | None =>
                       <[abs := {| relFilePath := relativePath w abs; fileTypeInfo := info;
                                   agentView := None |}]> files
                   | Some _ => files
                   end = <[abs := fileInfo]> files).
  { subst fileInfo. destruct (files !! abs) as [fi|] eqn:Hf; simpl; last done.
    by rewrite insert_id. }
  unfold update, updateAgentsViewOfFiles. rewrite tool_applied_entry. fold fileInfo.
  rewrite Hafter.
  destruct Htool as [(a & c & ->)|(a & c & ->)];
    (destruct (decide (category (fileTypeInfo fileInfo) = TEXT)) as [Hcat|Hcat];
     [ rewrite bool_decide_true by done;
       destruct Hwhy as [?|[mtime Hv]]; first done; simpl; rewrite Hv; by eexists
     | rewrite bool_decide_false by done; simpl; by eexists ]).
Qed.

Lemma edit_of_a_binary_file_is_refused_witness :
  ∃ err,
    update (Samples.onDisk 5 "GIF89a")
      (ToolApplied "/pic.gif" (Replace "a" "b") Samples.imageInfo) ∅
    = (Throw err, {[ "/pic.gif" := Samples.tracked "pic.gif" Samples.imageInfo None ]}).
Proof.
  refine (edit_of_a_binary_file_is_refused (Samples.onDisk 5 "GIF89a") ∅ "/pic.gif"
            Samples.imageInfo (Replace "a" "b") _ _).
  - right. by exists "a", "b".
  - left. discriminate.
Defined.

(** X15. An insert or a replace applied to a text file of which the agent has
    no view yet: the agent's view becomes the content of the file on disk as
    it is read then, whatever the arguments of the edit are; when the file
    cannot be read the update throws, and the file is in the context without
    agent view. *)
Theorem edit_without_a_view_takes_the_text_from_disk (w : World) (files : Files)
    (abs : AbsFilePath) (info : FileTypeInfo) (tool : ToolApplication) :
  let fileInfo :=
    default {| relFilePath := relativePath w abs; fileTypeInfo := info; agentView := None |}
      (files !! abs) in
  (∃ insertAfter content, tool = Insert insertAfter content)
  ∨ (∃ find replace, tool = Replace find replace) →
  category (fileTypeInfo fileInfo) = TEXT →
  agentView fileInfo = None →
  update w (ToolApplied abs tool info) files
  = match readFileSync w abs with
    | Return currentContent =>
        (Return (),
         <[abs := {| relFilePath := relFilePath fileInfo;
                     fileTypeInfo := fileTypeInfo fileInfo;
                     agentView := Some (AgentText currentContent) |}]> files)
    | Throw err =>
        (Throw (newError ("Failed to read file " +:+ abs
                          +:+ " to update agent's view: " +:+ message err)),
         <[abs := fileInfo]> files)
    end.
Proof.
  intros fileInfo Htool Hcat Hv.
  assert (Hafter : match files !! abs with
                   | None =>
                       <[abs := {| relFilePath := relativePath w abs; fileTypeInfo := info;
                                   agentView := None |}]> files
                   | Some _ => files
                   end = <[abs := fileInfo]> files).
  { subst fileInfo. destruct (files !! abs) as [fi|] eqn:Hf; simpl; last done.
    by rewrite insert_id. }
  unfold update, updateAgentsViewOfFiles. rewrite tool_applied_entry. fold fileInfo.
  rewrite Hafter.
  destruct Htool as [(a & c & ->)|(a & c & ->)];
    rewrite bool_decide_true by done; simpl; rewrite Hv;
    (destruct (readFileSync w abs); last done);
    f_equal; unfold setAgentView; apply map_eq; intros p;
    (destruct (decide (abs = p)) as [<-|Hp];
     [ by rewrite lookup_alter_eq, !lookup_insert_eq
     | by rewrite lookup_alter_ne, !lookup_insert_ne ]).
Qed.

Lemma edit_without_a_view_takes_the_text_from_disk_witness :
  update (Samples.onDisk 5 "foobar")
    (ToolApplied "/a.txt" (Insert "foo" "bar") Samples.textInfo) ∅
  = match readFileSync (Samples.onDisk 5 "foobar") "/a.txt" with
    | Return currentContent =>
        (Return (),
         <["/a.txt" := Samples.tracked "a.txt" Samples.textInfo
                         (Some (AgentText currentContent))]> ∅)
    | Throw err =>
        (Throw (newError ("Failed to read file " +:+ "/a.txt"
                          +:+ " to update agent's view: " +:+ message err)),
         <["/a.txt" := Samples.tracked "a.txt" Samples.textInfo None]> ∅)
    end.
Proof.
  refine (edit_without_a_view_takes_the_text_from_disk (Samples.onDisk 5 "foobar") ∅
            "/a.txt" Samples.textInfo (Insert "foo" "bar") _ _ _).
  - left. by exists "foo", "bar".
  - reflexivity.
  - reflexivity.
Defined.

(** X16. Whatever tool was applied and whether the update throws or not, the
    file of the tool is in the context afterwards; if it was tracked before,
    it keeps its relative path and its file type, the type given with the
    tool being ignored; and no other file is touched. *)
Theorem tool_applied_touches_one_entry (w : World) (files : Files) (abs : AbsFilePath)
    (info : FileTypeInfo) (tool : ToolApplication) :
  let fileInfo :=
    default {| relFilePath := relativePath w abs; fileTypeInfo := info; agentView := None |}
      (files !! abs) in
  (∃ view,
     (update w (ToolApplied abs tool info) files).2 !! abs
     = Some {| relFilePath := relFilePath fileInfo;
               fileTypeInfo := fileTypeInfo fileInfo;
               agentView := view |})
  ∧ ∀ p, p ≠ abs → (update w (ToolApplied abs tool info) files).2 !! p = files !! p.
Proof.
  intros fileInfo.
  set (files0 := match files !! abs with
                 | None =>
                     <[abs := {| relFilePath := relativePath w abs; fileTypeInfo := info;
                                 agentView := None |}]> files
                 | Some _ => files
                 end).
  assert (H0 : files0 !! abs = Some fileInfo) by apply tool_applied_entry.
  assert (Hother : ∀ p, p ≠ abs → files0 !! p = files !! p).
  { intros p Hp. subst files0. destruct (files !! abs); by rewrite ?lookup_insert_ne. }
  assert (Hview : ∀ v, setAgentView abs v files0 !! abs
            = Some {| relFilePath := relFilePath fileInfo;
                      fileTypeInfo := fileTypeInfo fileInfo;
                      agentView := v |}).
  { intros v. unfold setAgentView. by rewrite lookup_alter_eq, H0. }
  assert (Hsame : files0 !! abs
            = Some {| relFilePath := relFilePath fileInfo;
                      fileTypeInfo := fileTypeInfo fileInfo;
                      agentView := agentView fileInfo |})
    by (rewrite H0; by destruct fileInfo).
  assert (Hframe : ∀ v p, p ≠ abs → setAgentView abs v files0 !! p = files !! p).
  { intros v p Hp. unfold setAgentView. rewrite lookup_alter_ne by done. by apply Hother. }
  unfold update, updateAgentsViewOfFiles. fold files0. rewrite H0.
  destruct tool; repeat case_match; cbn [snd]; split; eauto.
Qed.

(** ** The empty context *)

Lemma isContextEmpty_empty (files : Files) : isContextEmpty files = true ↔ files = ∅.
Proof.
  unfold isContextEmpty. rewrite bool_decide_eq_true. split.
  - intros H. apply nil_length_inv in H. apply map_empty. intros p.
    apply eq_None_not_Some. rewrite <- keys_elem, H. apply not_elem_of_nil.
  - intros ->. unfold keys. by rewrite map_to_list_empty.
Qed.

(** X17. When none of the tracked files is found on disk any more, the pass
    returns, with the deletion recorded under every tracked path and under
    no other, and leaves the context empty. *)
Theorem pass_over_vanished_files_empties_the_context (w : World) (files : Files) :
  (∀ p, is_Some (files !! p) → existsSync w p = false) →
  ∃ results,
    getContextUpdate w files = (Return results, ∅)
    ∧ isContextEmpty (getContextUpdate w files).2 = true
    ∧ ∀ p,
        results !! p
        = (λ _, {| entryAbsFilePath := p; entryRelFilePath := relativePath w p;
                   update_ := StatusOk FileDeletedUpdate |}) <$> files !! p.
Proof.
  intros Hgone.
  assert (Hone : ∀ p,
            getFileMessageAndUpdateAgentViewOfFile w p files
            = match files !! p with
              | Some _ =>
                  (Return (Some {| entryAbsFilePath := p;
                                   entryRelFilePath := relativePath w p;
                                   update_ := StatusOk FileDeletedUpdate |}),
                   delete p files)
              | None => (Return None, files)
              end).
  { intros p. unfold getFileMessageAndUpdateAgentViewOfFile.
    destruct (files !! p) eqn:Hp; last done. by rewrite Hgone. }
  destruct (getContextUpdate w files) as [[results|err] files'] eqn:Hpass.
  - assert (files' = ∅) as ->.
    { apply map_empty. intros p.
      destruct (getContextUpdate_at w files files' results p Hpass) as [_ ->].
      rewrite Hone. destruct (files !! p) eqn:Hp; simpl; first by rewrite lookup_delete_eq.
      done. }
    exists results. split; first done. split; first by apply isContextEmpty_empty.
    intros p. destruct (getContextUpdate_at w files ∅ results p Hpass) as [-> _].
    rewrite Hone. by destruct (files !! p).
  - exfalso.
    destruct (proj1 (getContextUpdate_throws w files)) as (p & err' & _ & Hthrow);
      first by eauto.
    rewrite Hone in Hthrow. by destruct (files !! p).
Qed.

Lemma pass_over_vanished_files_empties_the_context_witness :
  ∃ results,
    getContextUpdate
      (Samples.world false (Throw Samples.enoent) (λ _, Throw Samples.enoent) None
         (Return 0%Z) [] (Return (StatusOk "")))
      {[ "/a.txt" := Samples.tracked "a.txt" Samples.textInfo (Some (AgentText "foo"));
         "/pic.gif" := Samples.tracked "pic.gif" Samples.imageInfo None ]}
    = (Return results, ∅)
    ∧ isContextEmpty
        (getContextUpdate
           (Samples.world false (Throw Samples.enoent) (λ _, Throw Samples.enoent) None
              (Return 0%Z) [] (Return (StatusOk "")))
           {[ "/a.txt" := Samples.tracked "a.txt" Samples.textInfo (Some (AgentText "foo"));
              "/pic.gif" := Samples.tracked "pic.gif" Samples.imageInfo None ]}).2 = true
    ∧ ∀ p,
        results !! p
        = (λ _, {| entryAbsFilePath := p;
                   entryRelFilePath :=
                     relativePath
                       (Samples.world false (Throw Samples.enoent) (λ _, Throw Samples.enoent)
                          None (Return 0%Z) [] (Return (StatusOk ""))) p;
                   update_ := StatusOk FileDeletedUpdate |})
          <$> ({[ "/a.txt" := Samples.tracked "a.txt" Samples.textInfo
                                (Some (AgentText "foo"));
                  "/pic.gif" := Samples.tracked "pic.gif" Samples.imageInfo None ]} : Files)
              !! p.
Proof.
  refine (pass_over_vanished_files_empties_the_context _ _ _).
  intros p _. reflexivity.
Defined.

(** ** A pass that is repeated *)

Section Again.

Variable w : World.

Lemma setAgentView_twice (abs : AbsFilePath) (v v' : option AgentView) (files : Files) :
  setAgentView abs v (setAgentView abs v' files) = setAgentView abs v files.
Proof.
  unfold setAgentView. apply map_eq. intros p.
  destruct (decide (abs = p)) as [<-|Hne].
  - rewrite !lookup_alter_eq. by destruct (files !! abs).
  - by rewrite !lookup_alter_ne.
Qed.

Lemma setAgentView_lookup (abs : AbsFilePath) (v : option AgentView) (files : Files)
    (fileInfo : FileInfo) :
  files !! abs = Some fileInfo →
  setAgentView abs v files !! abs
  = Some {| relFilePath := relFilePath fileInfo; fileTypeInfo := fileTypeInfo fileInfo;
            agentView := v |}.
Proof. intros Hf. unfold setAgentView. by rewrite lookup_alter_eq, Hf. Qed.

Lemma compare_again (abs : AbsFilePath) (rel : RelFilePath) (fileInfo : FileInfo)
    (content : string) (v : option AgentView) (files : Files) (o1 : Outcome (option FileUpdateEntry))
    (files1 : Files) :
  compareWithAgentView abs rel fileInfo content files = (o1, files1) →
  files1 = setAgentView abs (Some (AgentText content)) files
  ∧ ∀ fileInfo', agentView fileInfo' = Some (AgentText content) →
      repeats w abs (compareWithAgentView abs rel fileInfo' content files1).1
      ∧ (compareWithAgentView abs rel fileInfo' content files1).2 = files1.
Proof.
  intros H.
  assert (files1 = setAgentView abs (Some (AgentText content)) files) as ->.
  { unfold compareWithAgentView in H. repeat case_match; by simplify_eq. }
  split; first done. intros fileInfo' Hv.
  unfold compareWithAgentView. rewrite Hv, setAgentView_twice.
  destruct content as [|c content]; first (split; [right; by left | done]).
  by rewrite String.eqb_refl.
Qed.

Lemma reconcile_again (abs : AbsFilePath) (files files1 : Files)
    (o1 : Outcome (option FileUpdateEntry)) :
  getFileMessageAndUpdateAgentViewOfFile w abs files = (o1, files1) →
  repeats w abs (getFileMessageAndUpdateAgentViewOfFile w abs files1).1
  ∧ (getFileMessageAndUpdateAgentViewOfFile w abs files1).2 = files1.
Proof.
  unfold getFileMessageAndUpdateAgentViewOfFile at 1.
  destruct (files !! abs) as [fileInfo|] eqn:Hf; last first.
  { intros [= <- <-]. unfold getFileMessageAndUpdateAgentViewOfFile. by rewrite Hf. }
  destruct (existsSync w abs) eqn:Hex; cbn [negb]; last first.
  { intros [= <- <-]. unfold getFileMessageAndUpdateAgentViewOfFile.
    by rewrite lookup_delete_eq. }
  case_bool_decide as Hcat.
  - (* text *)
    unfold handleTextFileUpdate at 1.
    destruct (getSyncInfo w abs) as [b|] eqn:Hbuf.
    + destruct (readThroughBuffer w abs b) as [[conflict|content]|err] eqn:Hread.
      * intros [= <- <-]. unfold getFileMessageAndUpdateAgentViewOfFile.
        rewrite Hf, Hex. cbn [negb]. rewrite bool_decide_true by done.
        unfold handleTextFileUpdate. rewrite Hbuf, Hread. split; last done.
        left. by eexists.
      * intros H. apply compare_again in H as [-> H]; last exact None.
        unfold getFileMessageAndUpdateAgentViewOfFile.
        rewrite (setAgentView_lookup _ _ _ _ Hf), Hex. cbn [negb fileTypeInfo].
        rewrite bool_decide_true by done.
        unfold handleTextFileUpdate. rewrite Hbuf, Hread. by apply H.
      * intros [= <- <-]. unfold getFileMessageAndUpdateAgentViewOfFile.
        rewrite Hf, Hex. cbn [negb]. rewrite bool_decide_true by done.
        unfold handleTextFileUpdate. rewrite Hbuf, Hread. split; last done.
        left. by eexists.
    + destruct (readFileSync w abs) as [raw|err] eqn:Hread.
      * intros H. apply compare_again in H as [-> H]; last exact None.
        unfold getFileMessageAndUpdateAgentViewOfFile.
        rewrite (setAgentView_lookup _ _ _ _ Hf), Hex. cbn [negb fileTypeInfo].
        rewrite bool_decide_true by done.
        unfold handleTextFileUpdate. rewrite Hbuf, Hread. by apply H.
      * case_bool_decide as Hcode; intros [= <- <-].
        -- unfold getFileMessageAndUpdateAgentViewOfFile.
           by rewrite lookup_delete_eq.
        -- unfold getFileMessageAndUpdateAgentViewOfFile.
           rewrite Hf, Hex. cbn [negb]. rewrite bool_decide_true by done.
           unfold handleTextFileUpdate. rewrite Hbuf, Hread.
           by rewrite bool_decide_false.
  - (* binary *)
    unfold handleBinaryFileUpdate at 1.
    destruct (statSync w abs) as [currentMtime|err] eqn:Hstat.
    + intros H.
      assert (files1 = setAgentView abs (Some (AgentBinary currentMtime)) files) as ->.
      { cbv zeta in H. repeat case_match; by simplify_eq. }
      clear H.
      unfold getFileMessageAndUpdateAgentViewOfFile.
      rewrite (setAgentView_lookup _ _ _ _ Hf), Hex. cbn [negb fileTypeInfo].
      rewrite bool_decide_false by done.
      unfold handleBinaryFileUpdate. rewrite Hstat. cbn [agentView fileTypeInfo].
      rewrite setAgentView_twice. unfold notNewer. rewrite Z.leb_refl, andb_true_r.
      destruct (decide (currentMtime = 0%Z)) as [->|Hnz].
      * cbn [Z.eqb negb]. split; last by repeat case_match.
        repeat case_match; simpl; eauto.
      * apply Z.eqb_neq in Hnz. by rewrite Hnz.
    + intros [= <- <-]. unfold getFileMessageAndUpdateAgentViewOfFile.
      rewrite Hf, Hex. cbn [negb]. rewrite bool_decide_false by done.
      unfold handleBinaryFileUpdate. rewrite Hstat. split; last done.
      left. by eexists.
Qed.

End Again.

(** X18. A pass that is repeated while nothing changes sends nothing again
    but what went wrong.  When a pass returns and a second pass in the same
    world returns after it, the second pass leaves the registry as the first
    left it, and every entry of its map is an error, or the whole content of
    a text file that is empty, or the whole content of a file whose
    modification time is 0. *)
Theorem repeated_pass_sends_only_errors (w : World) (files files1 files2 : Files)
    (results1 results2 : FileUpdates) :
  getContextUpdate w files = (Return results1, files1) →
  getContextUpdate w files1 = (Return results2, files2) →
  files2 = files1
  ∧ ∀ p e, results2 !! p = Some e →
      (∃ error, update_ e = StatusError error)
      ∨ update_ e = StatusOk (WholeFileUpdate "")
      ∨ (∃ content, update_ e = StatusOk (WholeFileUpdate content)
                    ∧ statSync w p = Return 0%Z).
Proof.
  intros H1 H2.
  assert (Hat : ∀ p,
            repeats w p (getFileMessageAndUpdateAgentViewOfFile w p files1).1
            ∧ (getFileMessageAndUpdateAgentViewOfFile w p files1).2 !! p = files1 !! p).
  { intros p.
    destruct (getContextUpdate_at w files files1 results1 p H1) as [_ Hf1].
    destruct (getFileMessageAndUpdateAgentViewOfFile w p files) as [o g] eqn:Eg.
    simpl in Hf1.
    destruct (reconcile_again w p files g o Eg) as [Hr Hg].
    destruct (reconcile_local w p files1 g Hf1) as [-> ->].
    split; first done. by rewrite Hg. }
  split.
  - apply map_eq. intros p.
    destruct (getContextUpdate_at w files1 files2 results2 p H2) as [_ ->].
    apply Hat.
  - intros p e He.
    destruct (getContextUpdate_at w files1 files2 results2 p H2) as [Hr _].
    destruct (Hat p) as [Hrep _]. rewrite He in Hr.
    destruct (getFileMessageAndUpdateAgentViewOfFile w p files1).1 as [[e'|]|err];
      try done.
    by simplify_eq.
Qed.

Lemma repeated_pass_sends_only_errors_witness :
  getContextUpdate (Samples.onDisk 5 "foo")
    {[ "/a.txt" := Samples.tracked "a.txt" Samples.textInfo (Some (AgentText "foo"));
       "/logo.png" := Samples.tracked "logo.png" Samples.imageInfo (Some (AgentBinary 5)) ]}
  = (Return ∅,
     {[ "/a.txt" := Samples.tracked "a.txt" Samples.textInfo (Some (AgentText "foo"));
        "/logo.png" := Samples.tracked "logo.png" Samples.imageInfo
                         (Some (AgentBinary 5)) ]})
  ∧ ∀ p e, (∅ : FileUpdates) !! p = Some e →
      (∃ error, update_ e = StatusError error)
      ∨ update_ e = StatusOk (WholeFileUpdate "")
      ∨ (∃ content, update_ e = StatusOk (WholeFileUpdate content)
                    ∧ statSync (Samples.onDisk 5 "foo") p = Return 0%Z).
Proof.
  split; first reflexivity.
  refine (proj2 (repeated_pass_sends_only_errors (Samples.onDisk 5 "foo")
            {[ "/a.txt" := Samples.tracked "a.txt" Samples.textInfo None;
               "/logo.png" := Samples.tracked "logo.png" Samples.imageInfo None ]}
            _ _ _ ∅ _ _)).
  - reflexivity.
  - reflexivity.
Defined.

(** ** What the agent is told *)

(** The image that an update attaches: one for the whole content of a file
    that is tracked as an image, none otherwise. *)
Lemma describeUpdate_images (files : Files) (abs : AbsFilePath) (e : FileUpdateEntry) :
  (describeUpdate files abs e).2
  = match update_ e, files !! abs with
    | StatusOk (WholeFileUpdate content), Some fileInfo =>
        if bool_decide (category (fileTypeInfo fileInfo) = IMAGE)
        then [ImageContent (mimeType (fileTypeInfo fileInfo)) content]
        else []
    | _, _ => []
    end.
Proof.
  unfold describeUpdate.
  destruct (update_ e) as [[content|patch|]|error]; try done.
  destruct (files !! abs) as [fileInfo|]; last done.
  by destruct (category (fileTypeInfo fileInfo)).
Qed.

(** The images that the updates attach, in the order of the updates. *)
Lemma contextUpdatesToContent_nonempty (files : Files)
    (entries : list (AbsFilePath * FileUpdateEntry)) :
  entries ≠ [] →
  ∃ text,
    contextUpdatesToContent files entries
    = TextContent text
      :: concat (map (λ pu, (describeUpdate files pu.1 pu.2).2) entries).
Proof.
  intros Hne. unfold contextUpdatesToContent. rewrite !length_map, !map_map.
  destruct entries; first done.
  cbn [length Nat.ltb Nat.leb]. eexists. reflexivity.
Qed.

(** A tracked image that is new to the agent and can be read is sent whole. *)
Lemma new_image_is_sent_whole (w : World) (files : Files) (abs : AbsFilePath)
    (fileInfo : FileInfo) (currentMtime : Z) (raw : string) :
  files !! abs = Some fileInfo →
  category (fileTypeInfo fileInfo) = IMAGE →
  existsSync w abs = true →
  statSync w abs = Return currentMtime →
  readFileSync w abs = Return raw →
  match agentView fileInfo with
  | Some (AgentBinary prevMtime) => (prevMtime < currentMtime)%Z
  | _ => True
  end →
  getFileMessageAndUpdateAgentViewOfFile w abs files
  = (Return (Some {| entryAbsFilePath := abs;
                     entryRelFilePath := relativePath w abs;
                     update_ := StatusOk (WholeFileUpdate (Base64.toBase64 raw)) |}),
     setAgentView abs (Some (AgentBinary currentMtime)) files).
Proof.
  intros Hf Hcat Hex Hstat Hread Hnew.
  unfold getFileMessageAndUpdateAgentViewOfFile. rewrite Hf, Hex. simpl.
  rewrite bool_decide_false by (rewrite Hcat; done).
  unfold handleBinaryFileUpdate. rewrite Hstat.
  rewrite (bool_decide_false (_ = PDF)) by (rewrite Hcat; done).
  rewrite Hread.
  assert (notNewer match agentView fileInfo with
                   | Some (AgentBinary mtime) => Some mtime
                   | _ => None
                   end currentMtime = false) as ->; last done.
  destruct (agentView fileInfo) as [[?|prevMtime]|]; try done.
  unfold notNewer. apply andb_false_iff. right. by apply Z.leb_gt.
Qed.

(** X19. The content made of the updates of a pass is empty when there is no
    update.  Otherwise it is one text, in front, followed by images only:
    one image for every update that carries the whole content of a file
    which the registry tracks as an image, with the media type of that file
    and the content of the update as data, in the order in which the object
    of the updates lists them; deletions, diffs, errors and files that are
    not tracked any more attach nothing. *)
Theorem content_is_one_text_then_the_images (files : Files)
    (entries : list (AbsFilePath * FileUpdateEntry)) :
  let images :=
    concat (map (λ pu : AbsFilePath * FileUpdateEntry,
                   match update_ pu.2, files !! pu.1 with
                   | StatusOk (WholeFileUpdate content), Some fileInfo =>
                       if bool_decide (category (fileTypeInfo fileInfo) = IMAGE)
                       then [ImageContent (mimeType (fileTypeInfo fileInfo)) content]
                       else []
                   | _, _ => []
                   end) entries) in
  (entries = [] → contextUpdatesToContent files entries = [])
  ∧ (entries ≠ [] →
     ∃ text, contextUpdatesToContent files entries = TextContent text :: images).
Proof.
  intros images. unfold contextUpdatesToContent.
  assert (Himg : concat (map snd (map (λ pu, describeUpdate files pu.1 pu.2) entries))
                 = images).
  { subst images. f_equal. rewrite map_map. apply map_ext. intros [abs e].
    apply describeUpdate_images. }
  rewrite Himg, !length_map. split.
  - by intros ->.
  - intros Hne. destruct entries; first done. simpl. by eexists.
Qed.

(** X20. An image that a pass sends whole is attached to what the agent is
    told: when a tracked image is found, its modification time is new to the
    agent and its bytes can be read, the content built from the map that the
    pass returns, in whatever order its entries were stored, and from the
    registry it leaves holds an image with the media type of the file and
    its bytes in base64. *)
Theorem image_sent_by_a_pass_is_attached (w : World) (files files' : Files)
    (results : FileUpdates) (entries : list (AbsFilePath * FileUpdateEntry))
    (abs : AbsFilePath) (fileInfo : FileInfo) (currentMtime : Z) (raw : string) :
  getContextUpdate w files = (Return results, files') →
  enumerates entries results →
  files !! abs = Some fileInfo →
  category (fileTypeInfo fileInfo) = IMAGE →
  existsSync w abs = true →
  statSync w abs = Return currentMtime →
  readFileSync w abs = Return raw →
  match agentView fileInfo with
  | Some (AgentBinary prevMtime) => (prevMtime < currentMtime)%Z
  | _ => True
  end →
  ImageContent (mimeType (fileTypeInfo fileInfo)) (Base64.toBase64 raw)
  ∈ contextUpdatesToContent files' entries.
Proof.
  intros Hpass [_ Hentries] Hf Hcat Hex Hstat Hread Hnew.
  pose proof (new_image_is_sent_whole w files abs fileInfo currentMtime raw
                Hf Hcat Hex Hstat Hread Hnew) as E.
  destruct (getContextUpdate_at w files files' results abs Hpass) as [Hr Hf'].
  rewrite E in Hr, Hf'. simpl in Hr, Hf'.
  unfold setAgentView in Hf'. rewrite lookup_alter_eq, Hf in Hf'. simpl in Hf'.
  apply Hentries in Hr.
  destruct (contextUpdatesToContent_nonempty files' entries) as [text ->].
  { intros ->. by apply elem_of_nil in Hr. }
  apply elem_of_cons. right. apply list_elem_of_In, in_concat.
  eexists. split.
  - apply in_map_iff. eexists (abs, _). split; first done.
    apply list_elem_of_In. exact Hr.
  - rewrite describeUpdate_images. simpl. rewrite Hf'. simpl.
    rewrite bool_decide_true by done. by left.
Qed.

Lemma image_sent_by_a_pass_is_attached_witness :
  ImageContent "image/png" (Base64.toBase64 "abc")
  ∈ contextUpdatesToContent
      {[ "/logo.png" := Samples.tracked "logo.png" Samples.imageInfo (Some (AgentBinary 7)) ]}
      [ ("/logo.png",
         {| entryAbsFilePath := "/logo.png"; entryRelFilePath := "logo.png";
            update_ := StatusOk (WholeFileUpdate (Base64.toBase64 "abc")) |}) ].
Proof.
  refine (image_sent_by_a_pass_is_attached (Samples.onDisk 7 "abc")
            {[ "/logo.png" := Samples.tracked "logo.png" Samples.imageInfo
                                (Some (AgentBinary 3)) ]}
            _
            {[ "/logo.png" :=
                 {| entryAbsFilePath := "/logo.png"; entryRelFilePath := "logo.png";
                    update_ := StatusOk (WholeFileUpdate (Base64.toBase64 "abc")) |} ]}
            _ "/logo.png"
            (Samples.tracked "logo.png" Samples.imageInfo (Some (AgentBinary 3)))
            7 "abc" _ _ _ _ _ _ _ _).
  - reflexivity.
  - split.
    + apply NoDup_singleton.
    + intros p e. rewrite list_elem_of_singleton, lookup_singleton_Some.
      split; [by intros [= -> ->] | by intros [<- <-]].
  - reflexivity.
  - reflexivity.
  - reflexivity.
  - reflexivity.
  - reflexivity.
  - simpl. lia.
Defined.

(** ** The files of the automatic context *)

Section AutoContextFacts.

Variable w : World.
Variable o : Oracles.

Lemma matchesOf_elem (pattern : string) (f : Matched) :
  f ∈ matchesOf w o pattern
  ↔ ∃ matches m,
      glob o pattern = Return matches
      ∧ m ∈ matches
      ∧ existsSync w (resolveFilePath o m) = true
      ∧ f = (resolveFilePath o m, relativePath w (resolveFilePath o m)).
Proof.
  unfold matchesOf. destruct (glob o pattern) as [matches|err].
  - rewrite list_elem_of_omap. split.
    + intros (m & Hm & Hf). exists matches, m. simpl in Hf.
      destruct (existsSync w (resolveFilePath o m)) eqn:Hex; by simplify_eq.
    + intros (matches' & m & [= <-] & Hm & Hex & ->). exists m. simpl.
      by rewrite Hex.
  - split; first by intros ?%elem_of_nil. by intros (? & ? & [=] & _).
Qed.

Lemma uniqueFiles_elem (seen : list string) (all : list Matched) (f : Matched) :
  f ∈ uniqueFiles o seen all → f ∈ all ∧ pathKey o f.1 ∉ seen.
Proof.
  revert seen. induction all as [|g rest IH]; intros seen; simpl.
  - by intros ?%elem_of_nil.
  - case_bool_decide as Hseen.
    + intros [Hin Hk]%IH. split; [by right | done].
    + intros [->|[Hin Hk]%IH]%elem_of_cons.
      * split; [by left | done].
      * split; [by right |]. intros Hs. apply Hk. by right.
Qed.

Lemma uniqueFiles_keys (seen : list string) (all : list Matched) :
  NoDup ((λ f : Matched, pathKey o f.1) <$> uniqueFiles o seen all).
Proof.
  revert seen. induction all as [|g rest IH]; intros seen; simpl.
  - constructor.
  - case_bool_decide as Hseen; first apply IH.
    rewrite fmap_cons. constructor; last apply IH.
    intros (f & Hk & [_ Hf]%uniqueFiles_elem)%list_elem_of_fmap.
    apply Hf. rewrite <- Hk. by left.
Qed.

Lemma uniqueFiles_covers (seen : list string) (all : list Matched) (f : Matched) :
  f ∈ all →
  pathKey o f.1 ∈ seen
  ∨ ∃ f', f' ∈ uniqueFiles o seen all ∧ pathKey o f'.1 = pathKey o f.1.
Proof.
  revert seen. induction all as [|g rest IH]; intros seen; simpl.
  - by intros ?%elem_of_nil.
  - intros [->|Hin]%elem_of_cons.
    + case_bool_decide as Hseen; first by left.
      right. exists g. split; [by left | done].
    + case_bool_decide as Hseen; first by apply IH.
      destruct (IH (pathKey o g.1 :: seen) Hin) as [[Hk|Hs]%elem_of_cons|(f' & Hf' & Hk)].
      * right. exists g. split; [by left | done].
      * by left.
      * right. exists f'. split; [by right | done].
Qed.

Lemma filterSupportedFiles_elem (matched : list Matched) (f : Matched)
    (fileTypeInfo : FileTypeInfo) :
  (f, fileTypeInfo) ∈ filterSupportedFiles o matched
  ↔ f ∈ matched
    ∧ detectFileType o f.1 = Return (Some fileTypeInfo)
    ∧ category fileTypeInfo ≠ UNSUPPORTED.
Proof.
  unfold filterSupportedFiles. rewrite list_elem_of_omap. split.
  - intros (g & Hg & Hf).
    destruct (detectFileType o g.1) as [[t|]|] eqn:Hd; try done.
    case_bool_decide; first done. by simplify_eq.
  - intros (Hin & Hd & Hcat). exists f. split; first done.
    rewrite Hd. by rewrite bool_decide_false.
Qed.

Lemma filterSupportedFiles_paths (matched : list Matched) :
  NoDup (fst <$> matched) → NoDup ((λ m, m.1.1) <$> filterSupportedFiles o matched).
Proof.
  induction matched as [|g rest IH]; simpl; first done.
  rewrite NoDup_cons. intros [Hg Hrest].
  destruct (detectFileType o g.1) as [[t|]|]; auto.
  case_bool_decide; auto.
  rewrite fmap_cons. constructor; last auto.
  intros ([f t'] & Hk & [Hin _]%filterSupportedFiles_elem)%list_elem_of_fmap.
  apply Hg. simpl in Hk. rewrite Hk. apply list_elem_of_fmap. by exists f.
Qed.

Lemma foldl_tracks_other (l : list (Matched * FileTypeInfo)) (acc : Files)
    (abs : AbsFilePath) :
  abs ∉ (λ m, m.1.1) <$> l → foldl tracks acc l !! abs = acc !! abs.
Proof.
  revert acc. induction l as [|m rest IH]; intros acc; first done.
  rewrite fmap_cons. intros [Hm Hrest]%not_elem_of_cons. simpl.
  rewrite IH by done. unfold tracks. by rewrite lookup_insert_ne.
Qed.

Lemma foldl_tracks_lookup (l : list (Matched * FileTypeInfo)) (acc : Files)
    (abs : AbsFilePath) (fileInfo : FileInfo) :
  foldl tracks acc l !! abs = Some fileInfo →
  acc !! abs = Some fileInfo
  ∨ ∃ m, m ∈ l ∧ m.1.1 = abs
         ∧ fileInfo = {| relFilePath := m.1.2; fileTypeInfo := m.2; agentView := None |}.
Proof.
  revert acc. induction l as [|m rest IH]; intros acc; first by left.
  simpl. intros [H|(m' & Hin & Hk & ->)]%IH.
  - unfold tracks in H. destruct (decide (m.1.1 = abs)) as [<-|Hne].
    + rewrite lookup_insert_eq in H. simplify_eq. right. exists m.
      split; [by left | done].
    + rewrite lookup_insert_ne in H by done. by left.
  - right. exists m'. split; [by right | done].
Qed.

Lemma foldl_tracks_elem (l : list (Matched * FileTypeInfo)) (acc : Files)
    (m : Matched * FileTypeInfo) :
  NoDup ((λ m, m.1.1) <$> l) → m ∈ l →
  foldl tracks acc l !! m.1.1
  = Some {| relFilePath := m.1.2; fileTypeInfo := m.2; agentView := None |}.
Proof.
  revert acc. induction l as [|m' rest IH]; intros acc; first by intros _ ?%elem_of_nil.
  rewrite fmap_cons, NoDup_cons. intros [Hm' Hrest] [->|Hin]%elem_of_cons; simpl.
  - rewrite foldl_tracks_other by done. unfold tracks. by rewrite lookup_insert_eq.
  - by apply IH.
Qed.

Lemma findFilesCrossPlatform_paths (patterns : list string) :
  NoDup (fst <$> findFilesCrossPlatform w o patterns).
Proof.
  unfold findFilesCrossPlatform.
  apply (NoDup_fmap_1 (pathKey o)). rewrite <- list_fmap_compose.
  apply uniqueFiles_keys.
Qed.

Lemma loadAutoContext_patterns (abs : AbsFilePath) (fileInfo : FileInfo) :
  loadAutoContext w o !! abs = Some fileInfo →
  ∃ patterns,
    autoContext o = Some patterns
    ∧ getcwd o = Return ()
    ∧ loadAutoContext w o
      = foldl tracks ∅ (filterSupportedFiles o (findFilesCrossPlatform w o patterns)).
Proof.
  unfold loadAutoContext.
  destruct (autoContext o) as [[|p ps]|]; try done.
  destruct (getcwd o) as [[]|]; last done.
  intros _. by eexists.
Qed.

End AutoContextFacts.

(** X21. Every file of the automatic context is one that a pattern of the
    option matched and that was found on disk; its type was detected and is
    a supported one; it is tracked under the path relative to the working
    directory and with no agent view. *)
Theorem auto_context_files_are_matched_and_supported (w : World) (o : Oracles)
    (abs : AbsFilePath) (fileInfo : FileInfo) :
  loadAutoContext w o !! abs = Some fileInfo →
  agentView fileInfo = None
  ∧ relFilePath fileInfo = relativePath w abs
  ∧ category (fileTypeInfo fileInfo) ≠ UNSUPPORTED
  ∧ detectFileType o abs = Return (Some (fileTypeInfo fileInfo))
  ∧ existsSync w abs = true
  ∧ ∃ patterns pattern matches m,
      autoContext o = Some patterns
      ∧ pattern ∈ patterns
      ∧ glob o pattern = Return matches
      ∧ m ∈ matches
      ∧ resolveFilePath o m = abs.
Proof.
  intros Hload.
  destruct (loadAutoContext_patterns w o abs fileInfo Hload) as (patterns & Hopt & _ & E).
  rewrite E in Hload.
  apply foldl_tracks_lookup in Hload as [Hempty|([f t] & Hin & Hk & ->)];
    first by rewrite lookup_empty in Hempty.
  simpl in *. apply filterSupportedFiles_elem in Hin as (Hfound & Hdetect & Hcat).
  unfold findFilesCrossPlatform in Hfound.
  apply uniqueFiles_elem in Hfound as [Hall _].
  apply list_elem_of_In, in_concat in Hall as (l & Hl & Hf).
  apply in_map_iff in Hl as (pattern & <- & Hp).
  apply list_elem_of_In, matchesOf_elem in Hf as (matches & m & Hglob & Hm & Hex & ->).
  simpl in *. subst abs. repeat split; try done.
  exists patterns, pattern, matches, m. repeat split; try done.
  by apply list_elem_of_In.
Qed.

Lemma auto_context_files_are_matched_and_supported_witness :
  loadAutoContext (Samples.onDisk 1 "hello") Samples.project !! "/notes.md"
  = Some (Samples.tracked "notes.md" Samples.textInfo None)
  ∧ category Samples.textInfo ≠ UNSUPPORTED
  ∧ existsSync (Samples.onDisk 1 "hello") "/notes.md" = true.
Proof.
  split; first by vm_compute.
  refine ((λ H, conj (proj1 (proj2 (proj2 H))) (proj1 (proj2 (proj2 (proj2 (proj2 H))))))
            (auto_context_files_are_matched_and_supported (Samples.onDisk 1 "hello")
               Samples.project "/notes.md"
               (Samples.tracked "notes.md" Samples.textInfo None) _)).
  by vm_compute.
Defined.

(** X22. No file is in the automatic context twice: two tracked paths never
    share their key, the normalized canonical path (or the normalized path
    itself where the canonical one cannot be had). *)
Theorem auto_context_keeps_each_file_once (w : World) (o : Oracles)
    (abs1 abs2 : AbsFilePath) :
  is_Some (loadAutoContext w o !! abs1) →
  is_Some (loadAutoContext w o !! abs2) →
  pathKey o abs1 = pathKey o abs2 →
  abs1 = abs2.
Proof.
  intros [fi1 H1] [fi2 H2] Hk.
  destruct (loadAutoContext_patterns w o abs1 fi1 H1) as (patterns & _ & _ & E).
  rewrite E in H1, H2.
  apply foldl_tracks_lookup in H1 as [Hempty|([f1 t1] & Hin1 & <- & _)];
    first by rewrite lookup_empty in Hempty.
  apply foldl_tracks_lookup in H2 as [Hempty|([f2 t2] & Hin2 & <- & _)];
    first by rewrite lookup_empty in Hempty.
  apply filterSupportedFiles_elem in Hin1 as (Hf1 & _).
  apply filterSupportedFiles_elem in Hin2 as (Hf2 & _).
  simpl in *. unfold findFilesCrossPlatform in Hf1, Hf2.
  pose proof (uniqueFiles_keys o [] (concat (map (matchesOf w o) patterns))) as Hnd.
  apply list_elem_of_lookup in Hf1 as [i Hi], Hf2 as [j Hj].
  assert (i = j) as ->.
  { eapply NoDup_lookup; first exact Hnd.
    - rewrite list_lookup_fmap, Hi. done.
    - rewrite list_lookup_fmap, Hj. simpl. by rewrite Hk. }
  by simplify_eq.
Qed.

Lemma auto_context_keeps_each_file_once_witness :
  is_Some (loadAutoContext (Samples.onDisk 1 "hello") Samples.project !! "/README.md")
  ∧ pathKey Samples.project "/docs/link.md" = pathKey Samples.project "/README.md"
  ∧ loadAutoContext (Samples.onDisk 1 "hello") Samples.project !! "/docs/link.md" = None
  ∧ "/README.md" = "/README.md".
Proof.
  split; first (eexists; by vm_compute).
  split; first reflexivity.
  split; first by vm_compute.
  refine (auto_context_keeps_each_file_once (Samples.onDisk 1 "hello") Samples.project
            "/README.md" "/README.md" _ _ _).
  - eexists. by vm_compute.
  - eexists. by vm_compute.
  - reflexivity.
Defined.

(** X23. A pattern whose glob fails does not keep the matches of the others
    out.  For every match of a pattern whose glob returns, found on disk,
    one file with the same key is among the files found; and every file found
    whose type is detected and supported is in the automatic context, under
    its relative path, with that type and no agent view. *)
Theorem auto_context_holds_every_supported_match (w : World) (o : Oracles)
    (patterns : list string) (pattern : string) (matches : list string) (m : string) :
  autoContext o = Some patterns →
  getcwd o = Return () →
  pattern ∈ patterns →
  glob o pattern = Return matches →
  m ∈ matches →
  existsSync w (resolveFilePath o m) = true →
  ∃ f,
    f ∈ findFilesCrossPlatform w o patterns
    ∧ pathKey o f.1 = pathKey o (resolveFilePath o m)
    ∧ ∀ fileTypeInfo,
        detectFileType o f.1 = Return (Some fileTypeInfo) →
        category fileTypeInfo ≠ UNSUPPORTED →
        loadAutoContext w o !! f.1
        = Some {| relFilePath := f.2; fileTypeInfo := fileTypeInfo; agentView := None |}.
Proof.
  intros Hopt Hcwd Hp Hglob Hm Hex.
  assert ((resolveFilePath o m, relativePath w (resolveFilePath o m))
          ∈ concat (map (matchesOf w o) patterns)) as Hall.
  { apply list_elem_of_In, in_concat. exists (matchesOf w o pattern). split.
    - apply in_map. by apply list_elem_of_In.
    - apply list_elem_of_In, matchesOf_elem. by exists matches, m. }
  destruct (uniqueFiles_covers o [] _ _ Hall) as [Hs|(f & Hf & Hk)];
    first by apply elem_of_nil in Hs.
  exists f. split; first done. split; first done.
  intros fileTypeInfo Hdetect Hcat.
  unfold loadAutoContext. rewrite Hopt, Hcwd.
  destruct patterns as [|p0 ps]; first by apply elem_of_nil in Hp.
  apply (foldl_tracks_elem _ ∅ (f, fileTypeInfo)).
  - apply filterSupportedFiles_paths, findFilesCrossPlatform_paths.
  - by apply filterSupportedFiles_elem.
Qed.

Lemma auto_context_holds_every_supported_match_witness :
  ∃ f,
    f ∈ findFilesCrossPlatform (Samples.onDisk 1 "hello") Samples.project
          ["*.md"; "broken["; "docs/*"]
    ∧ pathKey Samples.project f.1 = pathKey Samples.project "/docs/link.md"
    ∧ ∀ fileTypeInfo,
        detectFileType Samples.project f.1 = Return (Some fileTypeInfo) →
        category fileTypeInfo ≠ UNSUPPORTED →
        loadAutoContext (Samples.onDisk 1 "hello") Samples.project !! f.1
        = Some {| relFilePath := f.2; fileTypeInfo := fileTypeInfo; agentView := None |}.
Proof.
  refine (auto_context_holds_every_supported_match (Samples.onDisk 1 "hello")
            Samples.project ["*.md"; "broken["; "docs/*"] "docs/*"
            ["docs/link.md"; "docs/tool.exe"] "docs/link.md" _ _ _ _ _ _).
  - reflexivity.
  - reflexivity.
  - set_solver.
  - reflexivity.
  - set_solver.
  - reflexivity.
Defined.

(** X24. The files of the automatic context are sent whole with the first
    pass: a text file of the automatic context that is found on disk, is not
    open in a buffer and can be read has its whole content in the answer of
    its first reconciliation, and this content becomes the agent's view. *)
Theorem auto_context_text_is_sent_whole (w w' : World) (o : Oracles) (abs : AbsFilePath)
    (fileInfo : FileInfo) (content : string) :
  loadAutoContext w o !! abs = Some fileInfo →
  category (fileTypeInfo fileInfo) = TEXT →
  existsSync w' abs = true →
  getSyncInfo w' abs = None →
  readFileSync w' abs = Return content →
  getFileMessageAndUpdateAgentViewOfFile w' abs (loadAutoContext w o)
  = (Return (Some {| entryAbsFilePath := abs;
                     entryRelFilePath := relativePath w' abs;
                     update_ := StatusOk (WholeFileUpdate content) |}),
     setAgentView abs (Some (AgentText content)) (loadAutoContext w o)).
Proof.
  intros Hload Hcat Hex Hbuf Hread.
  rewrite (reconcile_text_on_disk w' _ abs fileInfo content) by done.
  unfold compareWithAgentView.
  assert (agentView fileInfo = None) as ->; last done.
  destruct (loadAutoContext_patterns w o abs fileInfo Hload) as (patterns & _ & _ & E).
  rewrite E in Hload.
  apply foldl_tracks_lookup in Hload as [Hempty|(m & _ & _ & ->)]; last done.
  by rewrite lookup_empty in Hempty.
Qed.

Lemma auto_context_text_is_sent_whole_witness :
  getFileMessageAndUpdateAgentViewOfFile (Samples.onDisk 2 "hello") "/README.md"
    (loadAutoContext (Samples.onDisk 1 "hello") Samples.project)
  = (Return (Some {| entryAbsFilePath := "/README.md";
                     entryRelFilePath := "README.md";
                     update_ := StatusOk (WholeFileUpdate "hello") |}),
     setAgentView "/README.md" (Some (AgentText "hello"))
       (loadAutoContext (Samples.onDisk 1 "hello") Samples.project)).
Proof.
  refine (auto_context_text_is_sent_whole (Samples.onDisk 1 "hello")
            (Samples.onDisk 2 "hello") Samples.project "/README.md"
            (Samples.tracked "README.md" Samples.textInfo None) "hello" _ _ _ _ _).
  - by vm_compute.
  - reflexivity.
  - reflexivity.
  - reflexivity.
  - reflexivity.
Defined.

(** ** What the user is shown *)

(** X25. The view of the context has one line for every tracked file, with
    its relative path; the message bound to [dd] on a line, given to
    [update], removes the file of that line from the context, and the
    message bound to [<CR>] leaves the context as it is; no line is bound to
    anything else, or to a file that is not tracked. *)
Theorem view_lines_remove_their_own_file (w : World) (files : Files) :
  (∀ abs fileInfo,
     files !! abs = Some fileInfo →
     {| lineText := "- `" +:+ relFilePath fileInfo +:+ "`" +:+ NL;
        bindings := [ ("dd", RemoveFileContext abs); ("<CR>", OpenFile abs) ] |}
     ∈ view files)
  ∧ ∀ line key msg,
      line ∈ view files →
      (key, msg) ∈ bindings line →
      ∃ abs,
        is_Some (files !! abs)
        ∧ ((key = "dd" ∧ update w msg files = (Return (), delete abs files))
           ∨ (key = "<CR>" ∧ update w msg files = (Return (), files))).
Proof.
  unfold view. split.
  - intros abs fileInfo Hf.
    rewrite bool_decide_false.
    + right. apply list_elem_of_fmap. exists (abs, fileInfo). split; first done.
      by apply elem_of_map_to_list.
    + intros Hk. apply nil_length_inv in Hk.
      assert (abs ∈ keys files) as Hin by (apply keys_elem; by eexists).
      rewrite Hk in Hin. by apply elem_of_nil in Hin.
  - intros line key msg. case_bool_decide; first by intros ?%elem_of_nil.
    intros [->|Hline]%elem_of_cons; first by intros ?%elem_of_nil.
    apply list_elem_of_fmap in Hline as ([abs fileInfo] & -> & Hin).
    apply elem_of_map_to_list in Hin. simpl.
    intros [[= -> ->]|[[= -> ->]|?%elem_of_nil]%elem_of_cons]%elem_of_cons;
      try done; exists abs; (split; first by eexists); [by left | by right].
Qed.

(** *** The counts *)

Lemma countMatches_line (lead : ascii) (lineStart : bool) (seen : nat)
    (l rest : string) :
  lead ≠ nl →
  plainLine seen l = true →
  countMatches lead lineStart seen (l +:+ NL +:+ rest)
  = (if lineStart && beginsWithOne lead l then 1 else 0) + countMatches lead true 0 rest.
Proof.
  intros Hlead. revert lineStart seen.
  induction l as [|c r IH]; intros lineStart seen Hplain.
  - change ("" +:+ NL +:+ rest) with (String nl rest).
    cbn [countMatches beginsWithOne].
    replace (Ascii.eqb nl lead) with false
      by (symmetry; apply Ascii.eqb_neq; congruence).
    rewrite !andb_false_r. cbn [andb]. f_equal.
    unfold endsTerminator. rewrite Ascii.eqb_refl. cbn [orb].
    replace (separatorBytes seen nl) with 0; first done.
    unfold separatorBytes. by destruct (seen =? 1).
  - cbn [plainLine] in Hplain. apply andb_true_iff in Hplain as [Hc Hr].
    apply negb_true_iff in Hc.
    change (String c r +:+ NL +:+ rest) with (String c (r +:+ NL +:+ rest)).
    cbn [countMatches]. rewrite Hc, (IH false _ Hr). cbn [andb Nat.add].
    assert (Ascii.eqb c lead
            && match r +:+ NL +:+ rest with
               | "" => false
               | String c' _ => negb (Ascii.eqb c' lead)
               end
            = beginsWithOne lead (String c r)) as Hcond.
    { cbn [beginsWithOne]. f_equal. destruct r as [|c' r']; last done.
      change ("" +:+ NL +:+ rest) with (String nl rest). cbn iota.
      apply negb_true_iff, Ascii.eqb_neq. congruence. }
    by rewrite <- andb_assoc, Hcond.
Qed.

Lemma countMatches_unlines (lead : ascii) (ls : list string) :
  lead ≠ nl →
  Forall (λ l, plainLine 0 l = true) ls →
  countMatches lead true 0 (unlines ls)
  = length (filter (λ l, beginsWithOne lead l = true) ls).
Proof.
  intros Hlead Hplain. induction Hplain as [|l ls Hl _ IH]; first done.
  cbn [unlines foldr]. rewrite countMatches_line by done. fold (unlines ls).
  rewrite IH, filter_cons. cbn [andb].
  destruct (beginsWithOne lead l); by rewrite ?decide_True, ?decide_False by done.
Qed.

(** X26. The counts of the change indicator of a diff.  For a patch made of
    lines that hold no line terminator, each ended by a line feed, the
    number of additions is the number of lines that begin with one [+] and
    not with two, and the number of deletions the number of lines that begin
    with one [-] and not with two: the two lines of the header, which begin
    with three, do not count, and neither does an added line whose text
    begins with [+] or a removed line whose text begins with [-]. *)
Theorem change_counts_are_lines_with_one_sign (ls : list string) :
  Forall (λ l, plainLine 0 l = true) ls →
  additions (unlines ls) = length (filter (λ l, beginsWithOne "+" l = true) ls)
  ∧ deletions (unlines ls) = length (filter (λ l, beginsWithOne "-" l = true) ls).
Proof.
  intros Hplain. split; by apply countMatches_unlines.
Qed.

Lemma change_counts_are_lines_with_one_sign_witness :
  additions (unlines [ "--- a.md" +:+ tab +:+ "previous"; "+++ a.md" +:+ tab +:+ "current";
                       "@@ -1,2 +1,2 @@"; " # list"; "-- old item"; "+- new item"; "+" ])
  = length (filter (λ l, beginsWithOne "+" l = true)
              [ "--- a.md" +:+ tab +:+ "previous"; "+++ a.md" +:+ tab +:+ "current";
                "@@ -1,2 +1,2 @@"; " # list"; "-- old item"; "+- new item"; "+" ])
  ∧ deletions (unlines [ "--- a.md" +:+ tab +:+ "previous"; "+++ a.md" +:+ tab +:+ "current";
                         "@@ -1,2 +1,2 @@"; " # list"; "-- old item"; "+- new item"; "+" ])
    = length (filter (λ l, beginsWithOne "-" l = true)
                [ "--- a.md" +:+ tab +:+ "previous"; "+++ a.md" +:+ tab +:+ "current";
                  "@@ -1,2 +1,2 @@"; " # list"; "-- old item"; "+- new item"; "+" ]).
Proof.
  refine (change_counts_are_lines_with_one_sign _ _).
  repeat constructor.
Defined.

(** X27. The count of the change indicator of a whole file is the number of
    pieces into which the line feeds cut the content: one for a content
    without line feed, the empty one included, and one more than the number
    of lines for a content that ends with a line feed. *)
Theorem whole_file_count_is_the_number_of_pieces (content : string) :
  lineCount content = length (splitLines content)
  ∧ lineCount (content +:+ NL) = lineCount content + 1.
Proof.
  split.
  - unfold lineCount. induction content as [|c r IH]; first done.
    cbn [countNewlines splitLines]. destruct (Ascii.eqb c nl).
    + cbn [length]. lia.
    + destruct (splitLines_cons r) as (l & ls & E). rewrite E in *.
      cbn [length] in *. lia.
  - unfold lineCount. induction content as [|c r IH]; first done.
    change (String c r +:+ NL) with (String c (r +:+ NL)).
    cbn [countNewlines]. lia.
Qed.
